(** * Subsystem metrics of AWX: accumulators, flush, broadcast, aggregation

    A shallow embedding of [awx/main/analytics/subsystem_metrics.py].

    Conventions of the embedding.
    - Numbers are exact integers ([Z]): counters, gauge readings, clock
      readings and the values kept in the Redis hash.  The binary
      floating-point rounding of [FloatM] and [SetFloatM] is not modelled;
      the classes keep their own constructors and their own Redis commands.
    - A Python exception is a value of [exn]; a method that can raise returns
      a [result].
    - A Python [dict] whose iteration order is observed is an [odict]: an
      association list with the insertion discipline of [dict].
    - The Redis server is a record: the hash stored under [root_key], the
      string keys (per-node snapshots) and the lock keys.  Store round trips
      are assumed to succeed. *)

From stdpp Require Import base gmap strings list sorting pretty.

Local Set Warnings "-register-all".
Local Open Scope string_scope.
Local Open Scope Z_scope.
Local Open Scope list_scope.

(** ** Python runtime: exceptions, results, ordered dictionaries *)

Inductive exn :=
  | KeyError (key : string)
  | IndexError
  | TypeError
  | AttributeError
  | LockNotOwnedError
  | TransportError.

Inductive result (A : Type) :=
  | Ok (a : A)
  | Raise (e : exn).
Arguments Ok {A} a.
Arguments Raise {A} e.

#[global] Instance result_ret : MRet result := @Ok.
#[global] Instance result_bind : MBind result := fun A B k r =>
  match r with
  | Ok a => k a
  | Raise e => Raise e
  end.

Definition is_ok {A} (r : result A) : bool :=
  match r with Ok _ => true | Raise _ => false end.

Module odict.
Section Odict.
Context {K V : Type} `{EqDecision K}.

Definition t := list (K * V).

Fixpoint get (d : list (K * V)) (k : K) : option V :=
  match d with
  | [] => None
  | (k', v) :: d' => if decide (k' = k) then Some v else get d' k
  end.

(** [d[k] = v]: an existing key keeps its position, a new key goes last. *)
Fixpoint set (d : list (K * V)) (k : K) (v : V) : list (K * V) :=
  match d with
  | [] => [(k, v)]
  | (k', v') :: d' =>
      if decide (k' = k) then (k', v) :: d' else (k', v') :: set d' k v
  end.

Definition keys (d : list (K * V)) : list K := d.*1.
Definition values (d : list (K * V)) : list V := d.*2.

Definition mem (d : list (K * V)) (k : K) : bool :=
  match get d k with Some _ => true | None => false end.

(** [d[k]] as an expression. *)
Definition subscript (show : K -> string) (d : list (K * V)) (k : K) : result V :=
  match get d k with
  | Some v => Ok v
  | None => Raise (KeyError (show k))
  end.

End Odict.
End odict.

(** [x in l] for a list of strings. *)
Definition str_in (x : string) (l : list string) : bool :=
  bool_decide (x ∈ l).

(** The characters an f-string needs besides letters. *)
Definition nl : string := String (Ascii.ascii_of_nat 10) EmptyString.
Definition dquote : string := String (Ascii.ascii_of_nat 34) EmptyString.

(** ** JSON documents and their Python view *)

Inductive json :=
  | JNum (z : Z)
  | JList (l : list json)
  | JDict (d : list (string * json)).

(** [str(j)] as used by an f-string.  Keys are printed between single
    quotes, which is [repr] for the field names used here. *)
Fixpoint py_str (j : json) : string :=
  match j with
  | JNum z => pretty z
  | JList l =>
      "[" +:+
      (fix items (l : list json) : string :=
         match l with
         | [] => ""
         | x :: l' =>
             match l' with
             | [] => py_str x
             | _ :: _ => py_str x +:+ ", " +:+ items l'
             end
         end) l +:+ "]"
  | JDict d =>
      "{" +:+
      (fix items (d : list (string * json)) : string :=
         match d with
         | [] => ""
         | (k, x) :: d' =>
             match d' with
             | [] => "'" +:+ k +:+ "': " +:+ py_str x
             | _ :: _ => "'" +:+ k +:+ "': " +:+ py_str x +:+ ", " +:+ items d'
             end
         end) d +:+ "}"
  end.

(** [key in j] *)
Definition json_contains (j : json) (key : string) : result bool :=
  match j with
  | JDict d => Ok (odict.mem d key)
  | JList _ => Ok false
  | JNum _ => Raise TypeError
  end.

(** [j[key]] *)
Definition json_subscript (j : json) (key : string) : result json :=
  match j with
  | JDict d => odict.subscript id d key
  | JList _ => Raise TypeError
  | JNum _ => Raise TypeError
  end.

(** [j.get(key)] *)
Definition json_get (j : json) (key : string) : result (option json) :=
  match j with
  | JDict d => Ok (odict.get d key)
  | JList _ => Raise AttributeError
  | JNum _ => Raise AttributeError
  end.

(** [j[0:n]] *)
Definition json_slice_to (j : json) (n : nat) : result (list json) :=
  match j with
  | JList l => Ok (take n l)
  | JDict _ => Raise TypeError
  | JNum _ => Raise TypeError
  end.

(** [sum(l)] *)
Fixpoint py_sum_from (acc : Z) (l : list json) : result Z :=
  match l with
  | [] => Ok acc
  | JNum z :: l' => py_sum_from (acc + z) l'
  | _ :: _ => Raise TypeError
  end.

Definition py_sum (l : list json) : result Z := py_sum_from 0 l.

(** Truth value of a JSON document ([if not entry]). *)
Definition json_truthy (j : json) : bool :=
  match j with
  | JNum z => negb (z =? 0)%Z
  | JList l => match l with [] => false | _ => true end
  | JDict d => match d with [] => false | _ => true end
  end.

(** ** The Redis hash under [root_key] *)

Inductive cmd :=
  | HSET (field : string) (value : Z)
  | HINCRBY (field : string) (amount : Z)
  | HINCRBYFLOAT (field : string) (amount : Z).

Definition hincr (h : gmap string Z) (field : string) (amount : Z) : gmap string Z :=
  <[field := default 0 (h !! field) + amount]> h.

Definition run_cmd (h : gmap string Z) (c : cmd) : gmap string Z :=
  match c with
  | HSET f v => <[f := v]> h
  | HINCRBY f a => hincr h f a
  | HINCRBYFLOAT f a => hincr h f a
  end.

(** A connection runs each command at once; a pipeline runs its buffer in
    order on [execute]. *)
Definition run_cmds (h : gmap string Z) (cs : list cmd) : gmap string Z :=
  foldl run_cmd h cs.

(** ** Metric values *)

Module BaseM.
Record t := mk {
  field : string;
  help_text : string;
  current_value : Z;
  metric_has_changed : bool;
}.

Definition __init__ (field help_text : string) : t :=
  mk field help_text 0 false.

Definition reset_value (self : t) : t * list cmd :=
  (mk (field self) (help_text self) 0 (metric_has_changed self),
   [HSET (field self) 0]).

Definition inc (self : t) (value : Z) : t :=
  mk (field self) (help_text self) (current_value self + value) true.

Definition set (self : t) (value : Z) : t :=
  mk (field self) (help_text self) value true.

Definition get (self : t) : Z := current_value self.

Definition decode (decode_value : option Z -> Z) (conn : gmap string Z) (self : t) : Z :=
  decode_value (conn !! field self).

Definition header (self : t) (type : string) : string :=
  "# HELP " +:+ field self +:+ " " +:+ help_text self +:+ nl +:+
  "# TYPE " +:+ field self +:+ " " +:+ type +:+ nl.

Definition sample (self : t) (instance : string) (value : json) : string :=
  field self +:+ "{node=" +:+ dquote +:+ instance +:+ dquote +:+ "} " +:+
  py_str value +:+ nl.

(** [instance_data] maps a node name to its decoded snapshot; the loop
    visits the nodes in the order of the dictionary. *)
Fixpoint to_prometheus_loop (self : t) (instance_data : list (string * json))
    (output_text : string) : result string :=
  match instance_data with
  | [] => Ok output_text
  | (instance, snapshot) :: rest =>
      present ← json_contains snapshot (field self);
      if (present : bool) then
        value ← json_subscript snapshot (field self);
        to_prometheus_loop self rest (output_text +:+ sample self instance value)
      else to_prometheus_loop self rest output_text
  end.

Definition to_prometheus (self : t) (instance_data : list (string * json))
  : result string :=
  to_prometheus_loop self instance_data (header self "gauge").
End BaseM.

Module FloatM.
Definition decode_value (value : option Z) : Z :=
  match value with
  | Some v => v
  | None => 0
  end.

Definition store_value (self : BaseM.t) : BaseM.t * list cmd :=
  if BaseM.metric_has_changed self then
    (BaseM.mk (BaseM.field self) (BaseM.help_text self) 0 false,
     [HINCRBYFLOAT (BaseM.field self) (BaseM.current_value self)])
  else (self, []).
End FloatM.

Module IntM.
Definition decode_value (value : option Z) : Z :=
  match value with
  | Some v => v
  | None => 0
  end.

Definition store_value (self : BaseM.t) : BaseM.t * list cmd :=
  if BaseM.metric_has_changed self then
    (BaseM.mk (BaseM.field self) (BaseM.help_text self) 0 false,
     [HINCRBY (BaseM.field self) (BaseM.current_value self)])
  else (self, []).

Definition decode (conn : gmap string Z) (self : BaseM.t) : Z :=
  BaseM.decode decode_value conn self.
End IntM.

Module SetIntM.
Definition decode_value (value : option Z) : Z :=
  match value with
  | Some v => v
  | None => 0
  end.

Definition store_value (self : BaseM.t) : BaseM.t * list cmd :=
  if BaseM.metric_has_changed self then
    (BaseM.mk (BaseM.field self) (BaseM.help_text self)
       (BaseM.current_value self) false,
     [HSET (BaseM.field self) (BaseM.current_value self)])
  else (self, []).
End SetIntM.

Module SetFloatM.
Definition decode_value (value : option Z) : Z :=
  match value with
  | Some v => v
  | None => 0
  end.

(** inherited from [SetIntM] *)
Definition store_value := SetIntM.store_value.

Definition decode (conn : gmap string Z) (self : BaseM.t) : Z :=
  BaseM.decode decode_value conn self.
End SetFloatM.

Module HistogramM.
Record t := mk {
  base : BaseM.t;
  buckets : list Z;
  buckets_to_keys : list (Z * BaseM.t);
  inf : BaseM.t;
  sum : BaseM.t;
}.

Definition bucket_key (field : string) (b : Z) : BaseM.t :=
  BaseM.__init__ (field +:+ "_" +:+ pretty b) "".

Definition __init__ (field help_text : string) (buckets : list Z) : t :=
  mk (BaseM.__init__ field help_text)
     buckets
     (foldl (fun d b => odict.set d b (bucket_key field b)) [] buckets)
     (BaseM.__init__ (field +:+ "_inf") "")
     (BaseM.__init__ (field +:+ "_sum") "").

Definition reset_value (self : t) : t * list cmd :=
  let '(inf', c_inf) := BaseM.reset_value (inf self) in
  let '(sum', c_sum) := BaseM.reset_value (sum self) in
  let b2k := (fun kv => (kv.1, (BaseM.reset_value kv.2).1)) <$> buckets_to_keys self in
  let c_b := (fun kv => HSET (BaseM.field kv.2) 0) <$> buckets_to_keys self in
  let '(base', c_base) := BaseM.reset_value (base self) in
  (mk base' (buckets self) b2k inf' sum',
   [HSET (BaseM.field (base self)) 0] ++ c_inf ++ c_sum ++ c_b ++ c_base).

(** The loop of [observe]: the first boundary [b] with [value <= b] is
    incremented, then the loop is left. *)
Fixpoint observe_loop (value : Z) (bs : list Z) (d : list (Z * BaseM.t))
  : result (list (Z * BaseM.t)) :=
  match bs with
  | [] => Ok d
  | b :: bs' =>
      if (value <=? b)%Z then
        m ← odict.subscript pretty d b;
        Ok (odict.set d b (BaseM.inc m 1))
      else observe_loop value bs' d
  end.

Definition observe (self : t) (value : Z) : result t :=
  d ← observe_loop value (buckets self) (buckets_to_keys self);
  Ok (mk (base self) (buckets self) d
        (BaseM.inc (inf self) 1)
        (BaseM.inc (sum self) value)).

Definition decode (conn : gmap string Z) (self : t) : json :=
  JDict [("counts", JList ((fun kv => JNum (IntM.decode conn kv.2)) <$> buckets_to_keys self));
         ("sum", JNum (IntM.decode conn (sum self)));
         ("inf", JNum (IntM.decode conn (inf self)))].

Fixpoint store_loop (bs : list Z) (d : list (Z * BaseM.t)) (out : list cmd)
  : result (list (Z * BaseM.t) * list cmd) :=
  match bs with
  | [] => Ok (d, out)
  | b :: bs' =>
      m ← odict.subscript pretty d b;
      let '(m', c) := IntM.store_value m in
      store_loop bs' (odict.set d b m') (out ++ c)
  end.

Definition store_value (self : t) : result (t * list cmd) :=
  '(d, c_b) ← store_loop (buckets self) (buckets_to_keys self) [];
  let '(sum', c_sum) := IntM.store_value (sum self) in
  let '(inf', c_inf) := IntM.store_value (inf self) in
  Ok (mk (base self) (buckets self) d inf' sum', c_b ++ c_sum ++ c_inf).

Definition bucket_line (self : t) (b : Z) (instance : string) (count : Z) : string :=
  BaseM.field (base self) +:+ "_bucket{le=" +:+ dquote +:+ pretty b +:+ dquote +:+
  ",node=" +:+ dquote +:+ instance +:+ dquote +:+ "} " +:+ pretty count +:+ nl.

(** [for i, b in enumerate(self.buckets)], started at index [i]. *)
Fixpoint to_prometheus_buckets (self : t) (instance : string) (snapshot : json)
    (i : nat) (bs : list Z) (output_text : string) : result string :=
  match bs with
  | [] => Ok output_text
  | b :: bs' =>
      entry ← json_subscript snapshot (BaseM.field (base self));
      counts ← json_subscript entry "counts";
      upto ← json_slice_to counts (i + 1);
      total ← py_sum upto;
      to_prometheus_buckets self instance snapshot (S i) bs'
        (output_text +:+ bucket_line self b instance total)
  end.

Definition to_prometheus_instance (self : t) (instance : string) (snapshot : json)
    (output_text : string) : result string :=
  let field := BaseM.field (base self) in
  out ← to_prometheus_buckets self instance snapshot 0 (buckets self) output_text;
  entry ← json_subscript snapshot field;
  inf1 ← json_subscript entry "inf";
  let out := out +:+ field +:+ "_bucket{le=" +:+ dquote +:+ "+Inf" +:+ dquote +:+
             ",node=" +:+ dquote +:+ instance +:+ dquote +:+ "} " +:+ py_str inf1 +:+ nl in
  entry ← json_subscript snapshot field;
  inf2 ← json_subscript entry "inf";
  let out := out +:+ field +:+ "_count{node=" +:+ dquote +:+ instance +:+ dquote +:+ "} " +:+
             py_str inf2 +:+ nl in
  entry ← json_subscript snapshot field;
  total ← json_subscript entry "sum";
  Ok (out +:+ field +:+ "_sum{node=" +:+ dquote +:+ instance +:+ dquote +:+ "} " +:+
      py_str total +:+ nl).

Fixpoint to_prometheus_loop (self : t) (instance_data : list (string * json))
    (output_text : string) : result string :=
  match instance_data with
  | [] => Ok output_text
  | (instance, snapshot) :: rest =>
      out ← to_prometheus_instance self instance snapshot output_text;
      to_prometheus_loop self rest out
  end.

Definition to_prometheus (self : t) (instance_data : list (string * json))
  : result string :=
  to_prometheus_loop self instance_data (BaseM.header (base self) "histogram").
End HistogramM.

(** ** The class hierarchy as a tagged union, with method dispatch *)

Inductive metric :=
  | MFloat (m : BaseM.t)
  | MInt (m : BaseM.t)
  | MSetInt (m : BaseM.t)
  | MSetFloat (m : BaseM.t)
  | MHistogram (h : HistogramM.t).

Module Metric.
Definition base (m : metric) : BaseM.t :=
  match m with
  | MFloat b | MInt b | MSetInt b | MSetFloat b => b
  | MHistogram h => HistogramM.base h
  end.

Definition with_base (m : metric) (b : BaseM.t) : metric :=
  match m with
  | MFloat _ => MFloat b
  | MInt _ => MInt b
  | MSetInt _ => MSetInt b
  | MSetFloat _ => MSetFloat b
  | MHistogram h =>
      MHistogram (HistogramM.mk b (HistogramM.buckets h)
                    (HistogramM.buckets_to_keys h) (HistogramM.inf h)
                    (HistogramM.sum h))
  end.

Definition field (m : metric) : string := BaseM.field (base m).

(** [inc], [set] and [get] are those of [BaseM] for every class. *)
Definition inc (m : metric) (value : Z) : metric :=
  with_base m (BaseM.inc (base m) value).

Definition set (m : metric) (value : Z) : metric :=
  with_base m (BaseM.set (base m) value).

Definition get (m : metric) : Z := BaseM.get (base m).

(** Only [HistogramM] has [observe]. *)
Definition observe (m : metric) (value : Z) : result metric :=
  match m with
  | MHistogram h => h' ← HistogramM.observe h value; Ok (MHistogram h')
  | _ => Raise AttributeError
  end.

Definition store_value (m : metric) : result (metric * list cmd) :=
  match m with
  | MFloat b => let '(b', c) := FloatM.store_value b in Ok (MFloat b', c)
  | MInt b => let '(b', c) := IntM.store_value b in Ok (MInt b', c)
  | MSetInt b => let '(b', c) := SetIntM.store_value b in Ok (MSetInt b', c)
  | MSetFloat b => let '(b', c) := SetFloatM.store_value b in Ok (MSetFloat b', c)
  | MHistogram h => '(h', c) ← HistogramM.store_value h; Ok (MHistogram h', c)
  end.

Definition reset_value (m : metric) : metric * list cmd :=
  match m with
  | MHistogram h => let '(h', c) := HistogramM.reset_value h in (MHistogram h', c)
  | _ => let '(b', c) := BaseM.reset_value (base m) in (with_base m b', c)
  end.

Definition decode (conn : gmap string Z) (m : metric) : json :=
  match m with
  | MFloat b => JNum (BaseM.decode FloatM.decode_value conn b)
  | MInt b => JNum (BaseM.decode IntM.decode_value conn b)
  | MSetInt b => JNum (BaseM.decode SetIntM.decode_value conn b)
  | MSetFloat b => JNum (BaseM.decode SetFloatM.decode_value conn b)
  | MHistogram h => HistogramM.decode conn h
  end.

Definition to_prometheus (m : metric) (instance_data : list (string * json))
  : result string :=
  match m with
  | MHistogram h => HistogramM.to_prometheus h instance_data
  | _ => BaseM.to_prometheus (base m) instance_data
  end.

Definition is_additive (m : metric) : bool :=
  match m with MFloat _ | MInt _ => true | _ => false end.

Definition is_gauge (m : metric) : bool :=
  match m with MSetInt _ | MSetFloat _ => true | _ => false end.
End Metric.

(** ** The Redis server, the notification channel and the log *)

(** A value stored under a string key: empty bytes, or the serialisation of
    a JSON document.  A document stands for its own serialisation:
    [json.loads (json.dumps j) = j] on the documents of this model. *)
Inductive blob :=
  | BEmpty
  | BJson (j : json).

Record payload := mk_payload {
  instance : string;
  metrics : blob;
  metrics_namespace : string;
}.

Inductive log_record :=
  | warning_lock_release (exc : exn)
  | debug_no_metric_data (namespace : string)
  | debug_metric_not_found (namespace field : string)
      (instance_data : list (string * json)).

(** What may happen to a lock key between [acquire] and [release]. *)
Inductive lock_event :=
  | lock_kept
  | lock_lost
  | lock_reassigned (token : string).

Record world := mk_world {
  hash : gmap string Z;
  strings : gmap string blob;
  locks : gmap string string;
  channel : list payload;
  logs : list log_record;
}.

Module Redis.
Definition with_hash (w : world) (h : gmap string Z) : world :=
  mk_world h (strings w) (locks w) (channel w) (logs w).

Definition with_locks (w : world) (l : gmap string string) : world :=
  mk_world (hash w) (strings w) l (channel w) (logs w).

(** [conn.set(key, value)] *)
Definition set (w : world) (key : string) (value : blob) : world :=
  mk_world (hash w) (<[key := value]> (strings w)) (locks w) (channel w) (logs w).

(** [conn.get(key)] *)
Definition get (w : world) (key : string) : option blob := strings w !! key.

(** Commands sent on a connection, or the buffer of a pipeline on
    [execute]. *)
Definition run (w : world) (cs : list cmd) : world :=
  with_hash w (run_cmds (hash w) cs).

(** [scan_iter(prefix + '*')]: the keys that start with [prefix].  The
    prefix holds no glob character. *)
Definition scan_iter (w : world) (prefix : string) : list string :=
  List.filter (String.prefix prefix) (map_to_list (strings w)).*1.

(** [lock.acquire(blocking=False)]: [SET name token NX]. *)
Definition acquire (w : world) (name token : string) : bool * world :=
  match locks w !! name with
  | None => (true, with_locks w (<[name := token]> (locks w)))
  | Some _ => (false, w)
  end.

Definition happen (w : world) (name : string) (ev : lock_event) : world :=
  match ev with
  | lock_kept => w
  | lock_lost => with_locks w (delete name (locks w))
  | lock_reassigned token => with_locks w (<[name := token]> (locks w))
  end.

(** [lock.release()]: deletes the key if it still holds our token. *)
Definition release (w : world) (name token : string) : result world :=
  if decide (locks w !! name = Some token) then
    Ok (with_locks w (delete name (locks w)))
  else Raise LockNotOwnedError.

Definition emit (w : world) (p : payload) : world :=
  mk_world (hash w) (strings w) (locks w) (channel w ++ [p]) (logs w).

(** [conn.delete(key)], for a key that is not the hash: a snapshot key or a
    lock key goes, whichever it is. *)
Definition delete (w : world) (key : string) : world :=
  mk_world (hash w) (base.delete key (strings w)) (base.delete key (locks w))
    (channel w) (logs w).

Definition log (w : world) (r : log_record) : world :=
  mk_world (hash w) (strings w) (locks w) (channel w) (logs w ++ [r]).
End Redis.

(** ** Strings: [split] and [sort] *)

(** [s.split(sep)] for a non-empty [sep]: [skip] counts the characters of a
    separator still to be passed over, [cur] is the piece being read. *)
Fixpoint split_go (sep : string) (skip : nat) (cur : string) (s : string)
  : list string :=
  match s with
  | EmptyString => [cur]
  | String c s' =>
      match skip with
      | S k => split_go sep k cur s'
      | O =>
          if String.prefix sep s then
            cur :: split_go sep (String.length sep - 1) EmptyString s'
          else split_go sep O (cur +:+ String c EmptyString) s'
      end
  end.

Definition split (s sep : string) : list string := split_go sep 0 EmptyString s.

Fixpoint insert_sorted (x : string) (l : list string) : list string :=
  match l with
  | [] => [x]
  | y :: l' => if String.leb x y then x :: l else y :: insert_sorted x l'
  end.

(** [l.sort()] on strings *)
Definition sort (l : list string) : list string := foldr insert_sorted [] l.

(** ** Settings and the environment of a call *)

Record settings := mk_settings {
  SUBSYSTEM_METRICS_REDIS_KEY_PREFIX : string;
  SUBSYSTEM_METRICS_INTERVAL_SAVE_TO_REDIS : Z;
  SUBSYSTEM_METRICS_INTERVAL_SEND_METRICS : Z;
  CLUSTER_HOST_ID : string;
  is_testing : bool;
}.

(** What one call of [send_metrics] reads from outside: the token of its
    lock object, [time.time()], the transport (which may raise) and the fate
    of the lock key while the call holds it. *)
Record send_env := mk_send_env {
  lock_token : string;
  current_time : Z;
  emit_channel_notification : payload -> result unit;
  lock_fate : lock_event;
}.

(** What one call of [pipe_execute] reads from outside: the four readings
    of [time.perf_counter()], [time.time()] after [execute], and the
    environment of its [send_metrics]. *)
Record flush_env := mk_flush_env {
  perf_counter_1 : Z;
  perf_counter_2 : Z;
  perf_counter_3 : Z;
  perf_counter_4 : Z;
  time_after_execute : Z;
  send : send_env;
}.

(** [request.query_params.getlist] for the two filters *)
Record request := mk_request {
  node : list string;
  metric_ : list string;
}.

(** ** The namespace *)

Module Metrics.
Record t := mk {
  _namespace : string;
  pipe : list cmd;
  last_pipe_execute : Z;
  metrics_have_changed : bool;
  pipe_execute_interval : Z;
  send_metrics_interval : Z;
  auto_pipe_execute : bool;
  instance_name : string;
  METRICS : list (string * metric);
  previous_send_metrics : BaseM.t;
}.

Definition _METRICSLIST : list metric :=
  [MFloat (BaseM.__init__ "subsystem_metrics_pipe_execute_seconds"
             "Time spent saving metrics to redis");
   MInt (BaseM.__init__ "subsystem_metrics_pipe_execute_calls"
           "Number of calls to pipe_execute");
   MFloat (BaseM.__init__ "subsystem_metrics_send_metrics_seconds"
             "Time spent sending metrics to other nodes")].

(** [METRICSLIST] is the class attribute of the subclass; [now] is
    [time.time()]. *)
Definition __init__ (cfg : settings) (METRICSLIST : list metric) (now : Z)
    (namespace : string) (auto_pipe_execute : bool)
    (instance_name : option string) (metrics_have_changed : bool) : t :=
  mk namespace []
     now
     metrics_have_changed
     (SUBSYSTEM_METRICS_INTERVAL_SAVE_TO_REDIS cfg)
     (SUBSYSTEM_METRICS_INTERVAL_SEND_METRICS cfg)
     auto_pipe_execute
     (match instance_name with
      | Some (String c s) => String c s
      | _ => if is_testing cfg then "awx_testing" else CLUSTER_HOST_ID cfg
      end)
     (foldl (fun d m => odict.set d (Metric.field m) m) []
        (METRICSLIST ++ _METRICSLIST))
     (BaseM.__init__ "send_metrics_time" "Timestamp of previous send_metrics call").

Definition with_METRICS (self : t) (d : list (string * metric)) : t :=
  mk (_namespace self) (pipe self) (last_pipe_execute self)
     (metrics_have_changed self) (pipe_execute_interval self)
     (send_metrics_interval self) (auto_pipe_execute self)
     (instance_name self) d (previous_send_metrics self).

Definition with_changed (self : t) (b : bool) : t :=
  mk (_namespace self) (pipe self) (last_pipe_execute self)
     b (pipe_execute_interval self)
     (send_metrics_interval self) (auto_pipe_execute self)
     (instance_name self) (METRICS self) (previous_send_metrics self).

Definition with_pipe (self : t) (p : list cmd) : t :=
  mk (_namespace self) p (last_pipe_execute self)
     (metrics_have_changed self) (pipe_execute_interval self)
     (send_metrics_interval self) (auto_pipe_execute self)
     (instance_name self) (METRICS self) (previous_send_metrics self).

Definition with_last_pipe_execute (self : t) (now : Z) : t :=
  mk (_namespace self) (pipe self) now
     (metrics_have_changed self) (pipe_execute_interval self)
     (send_metrics_interval self) (auto_pipe_execute self)
     (instance_name self) (METRICS self) (previous_send_metrics self).

Definition with_previous_send_metrics (self : t) (m : BaseM.t) : t :=
  mk (_namespace self) (pipe self) (last_pipe_execute self)
     (metrics_have_changed self) (pipe_execute_interval self)
     (send_metrics_interval self) (auto_pipe_execute self)
     (instance_name self) (METRICS self) m.

(** *** Methods as state transformers

    A method runs on the object and on the world it is connected to; an
    exception leaves both as they were when it was raised. *)

Record state := mk_state { self : t; conn : world }.

Definition M (A : Type) : Type := state -> result A * state.

#[global] Instance M_ret : MRet M := fun A a s => (Ok a, s).
#[global] Instance M_bind : MBind M := fun A B k c s =>
  match c s with
  | (Ok a, s') => k a s'
  | (Raise e, s') => (Raise e, s')
  end.

Definition get_state : M state := fun s => (Ok s, s).
Definition on_self (f : t -> t) : M unit :=
  fun s => (Ok tt, mk_state (f (self s)) (conn s)).
Definition on_conn (f : world -> world) : M unit :=
  fun s => (Ok tt, mk_state (self s) (f (conn s))).
Definition lift {A} (r : result A) : M A := fun s => (r, s).

(** [try: body finally: final] *)
Definition try_finally {A} (body : M A) (final : M unit) : M A := fun s =>
  let '(r, s1) := body s in
  match final s1 with
  | (Ok _, s2) => (r, s2)
  | (Raise e, s2) => (Raise e, s2)
  end.

(** [try: body except Exception as exc: handler(exc)] *)
Definition try_except {A} (body : M A) (handler : exn -> M A) : M A := fun s =>
  match body s with
  | (Ok a, s1) => (Ok a, s1)
  | (Raise e, s1) => handler e s1
  end.

(** [self.METRICS[field]] *)
Definition lookup (field : string) : M metric :=
  s ← get_state; lift (odict.subscript id (METRICS (self s)) field).

Definition update (field : string) (m : metric) : M unit :=
  on_self (fun self => with_METRICS self (odict.set (METRICS self) field m)).

Section Methods.
Context (cfg : settings).

Abbreviation root_key := (SUBSYSTEM_METRICS_REDIS_KEY_PREFIX cfg).

Definition lock_name (self : t) : string :=
  root_key +:+ "-" +:+ _namespace self +:+ "_lock".

Definition instance_prefix (self : t) : string :=
  root_key +:+ "-" +:+ _namespace self +:+ "_instance_".

Definition instance_key (self : t) (instance : string) : string :=
  instance_prefix self +:+ instance.

Definition get (self : t) (field : string) : result Z :=
  m ← odict.subscript id (METRICS self) field; Ok (Metric.get m).

Definition decode (self : t) (conn : world) (field : string) : result json :=
  m ← odict.subscript id (METRICS self) field; Ok (Metric.decode (hash conn) m).

(** [for field in self.METRICS: data[field] = self.METRICS[field].decode(self.conn)] *)
Definition load_local_metrics (self : t) (conn : world) : list (string * json) :=
  foldl (fun data fm => odict.set data fm.1 (Metric.decode (hash conn) fm.2))
    [] (METRICS self).

Definition serialize_local_metrics (self : t) (conn : world) : blob :=
  BJson (JDict (load_local_metrics self conn)).

Definition should_pipe_execute (self : t) (now : Z) : bool :=
  if negb (metrics_have_changed self) then false
  else if (now - last_pipe_execute self >? pipe_execute_interval self)%Z then true
  else false.

(** The body of the [try] of [send_metrics]. *)
Definition send_metrics_body (env : send_env) : M unit :=
  s ← get_state;
  let current_time := current_time env in
  if (current_time
      - SetFloatM.decode (hash (conn s)) (previous_send_metrics (self s))
      >? send_metrics_interval (self s))%Z
  then
    let serialized_metrics := serialize_local_metrics (self s) (conn s) in
    let payload :=
      mk_payload (instance_name (self s)) serialized_metrics (_namespace (self s)) in
    on_conn (fun w => Redis.set w (instance_key (self s) (instance_name (self s)))
                        serialized_metrics);;
    lift (emit_channel_notification env payload);;
    on_conn (fun w => Redis.emit w payload);;
    on_self (fun self => with_previous_send_metrics self
                           (BaseM.set (previous_send_metrics self) current_time));;
    s ← get_state;
    let '(m, c) := SetFloatM.store_value (previous_send_metrics (self s)) in
    on_self (fun self => with_previous_send_metrics self m);;
    on_conn (fun w => Redis.run w c)
  else mret tt.

(** The [finally] of [send_metrics]. *)
Definition send_metrics_release (env : send_env) : M unit :=
  try_except
    (s ← get_state;
     on_conn (fun w => Redis.happen w (lock_name (self s)) (lock_fate env));;
     s ← get_state;
     w ← lift (Redis.release (conn s) (lock_name (self s)) (lock_token env));
     on_conn (fun _ => w))
    (fun exc => on_conn (fun w => Redis.log w (warning_lock_release exc))).

Definition send_metrics (env : send_env) : M unit :=
  s ← get_state;
  let '(acquired, w) := Redis.acquire (conn s) (lock_name (self s)) (lock_token env) in
  on_conn (fun _ => w);;
  if negb acquired then mret tt
  else try_finally (send_metrics_body env) (send_metrics_release env).

(** [for m in self.METRICS: self.METRICS[m].store_value(self.pipe)] *)
Fixpoint store_values (fields : list string) : M unit :=
  match fields with
  | [] => mret tt
  | m :: rest =>
      metric ← lookup m;
      '(metric', c) ← lift (Metric.store_value metric);
      update m metric';;
      on_self (fun self => with_pipe self (pipe self ++ c));;
      store_values rest
  end.

(** [self.pipe.execute()] *)
Definition execute : M unit :=
  s ← get_state;
  on_conn (fun w => Redis.run w (pipe (self s)));;
  on_self (fun self => with_pipe self []).

(** [self.METRICS[field].inc(value)], past the namespace. *)
Definition inc_direct (field : string) (value : Z) : M unit :=
  m ← lookup field; update field (Metric.inc m value).

Definition pipe_execute (env : flush_env) : M unit :=
  s ← get_state;
  if metrics_have_changed (self s) then
    let duration_to_save := perf_counter_1 env in
    store_values (odict.keys (METRICS (self s)));;
    execute;;
    on_self (fun self => with_last_pipe_execute self (time_after_execute env));;
    on_self (fun self => with_changed self false);;
    let duration_to_save := (perf_counter_2 env - duration_to_save)%Z in
    inc_direct "subsystem_metrics_pipe_execute_seconds" duration_to_save;;
    inc_direct "subsystem_metrics_pipe_execute_calls" 1;;
    let duration_to_save := perf_counter_3 env in
    send_metrics (send env);;
    let duration_to_save := (perf_counter_4 env - duration_to_save)%Z in
    inc_direct "subsystem_metrics_send_metrics_seconds" duration_to_save
  else mret tt.

Definition auto_flush (env : flush_env) : M unit :=
  s ← get_state;
  if auto_pipe_execute (self s) then pipe_execute env else mret tt.

Definition inc (env : flush_env) (field : string) (value : Z) : M unit :=
  if decide (value ≠ 0) then
    m ← lookup field;
    update field (Metric.inc m value);;
    on_self (fun self => with_changed self true);;
    auto_flush env
  else mret tt.

Definition set (env : flush_env) (field : string) (value : Z) : M unit :=
  m ← lookup field;
  update field (Metric.set m value);;
  on_self (fun self => with_changed self true);;
  auto_flush env.

Definition observe (env : flush_env) (field : string) (value : Z) : M unit :=
  m ← lookup field;
  m' ← lift (Metric.observe m value);
  update field m';;
  on_self (fun self => with_changed self true);;
  auto_flush env.

(** [m.decode('UTF-8').split('_instance_')[1]] for every scanned key *)
Fixpoint scanned_names (keys : list string) : result (list string) :=
  match keys with
  | [] => Ok []
  | m :: rest =>
      match split m "_instance_" !! 1%nat with
      | Some name => names ← scanned_names rest; Ok (name :: names)
      | None => Raise IndexError
      end
  end.

(** The loading loop of [load_other_metrics]. *)
Definition load_instance (self : t) (conn : world) (instances_filter : list string)
    (instance_data : list (string * json)) (instance : string)
  : list (string * json) :=
  if (length instances_filter =? 0)%nat || str_in instance instances_filter then
    match Redis.get conn (instance_key self instance) with
    | Some (BJson document) => odict.set instance_data instance document
    | Some BEmpty => instance_data
    | None => instance_data
    end
  else instance_data.

Definition instance_names (self : t) (conn : world) : result (list string) :=
  names ← scanned_names (Redis.scan_iter conn (instance_prefix self));
  Ok (sort ([instance_name self] ++ names)).

Definition load_other_metrics (self : t) (conn : world) (request : request)
  : result (list (string * json)) :=
  let instances_filter := node request in
  instance_names ← instance_names self conn;
  Ok (foldl (load_instance self conn instances_filter) [] instance_names).

(** The rendering loop of [generate_metrics]. *)
Fixpoint generate_loop (metrics_filter : list string)
    (instance_data : list (string * json)) (metrics : list (string * metric))
    (output_text : string) : result string :=
  match metrics with
  | [] => Ok output_text
  | (field, m) :: rest =>
      if (length metrics_filter =? 0)%nat || str_in field metrics_filter then
        text ← Metric.to_prometheus m instance_data;
        generate_loop metrics_filter instance_data rest (output_text +:+ text)
      else generate_loop metrics_filter instance_data rest output_text
  end.

Definition generate_metrics (self : t) (conn : world) (request : request)
  : result string :=
  instance_data ← load_other_metrics self conn request;
  let metrics_filter := metric_ request in
  match instance_data with
  | [] => Ok ""
  | _ :: _ => generate_loop metrics_filter instance_data (METRICS self) ""
  end.

(** [for m in self.METRICS.values(): m.reset_value(self.conn)] *)
Fixpoint reset_loop (metrics : list (string * metric))
  : list (string * metric) * list cmd :=
  match metrics with
  | [] => ([], [])
  | (field, m) :: rest =>
      let '(m', c) := Metric.reset_value m in
      let '(rest', c_rest) := reset_loop rest in
      ((field, m') :: rest', c ++ c_rest)
  end.

Definition reset_values : M unit :=
  s ← get_state;
  let '(metrics, c) := reset_loop (METRICS (self s)) in
  on_self (fun self => with_METRICS self metrics);;
  on_conn (fun w => Redis.run w c);;
  on_self (fun self => with_changed self true);;
  on_conn (fun w => Redis.delete w (root_key +:+ "_lock"));;
  s ← get_state;
  on_conn (fun w => foldl Redis.delete w (Redis.scan_iter w (instance_prefix (self s)))).
End Methods.
End Metrics.

(** ** The collector bridge *)

Inductive metric_family :=
  | GaugeMetricFamily (name documentation : string) (value : json)
  | HistogramMetricFamily (name documentation : string)
      (buckets : list (string * string)) (sum_value : json).

Module CustomToPrometheusMetricsCollector.
(** What a consumer of the generator has seen when it stops: the
    families yielded, the records logged, and how it stopped. *)
Record run := mk_run {
  yielded : list metric_family;
  logged : list log_record;
  outcome : result unit;
}.

(** [list(zip(metric.buckets, counts))] with both sides through [str] *)
Definition zip_buckets (buckets : list Z) (counts : json)
  : result (list (string * string)) :=
  match counts with
  | JList l => Ok (zip (pretty <$> buckets) (py_str <$> l))
  | JDict d => Ok (zip (pretty <$> buckets) (odict.keys d))
  | JNum _ => Raise TypeError
  end.

Definition family (m : metric) (entry : json) : result metric_family :=
  match m with
  | MHistogram h =>
      counts ← json_subscript entry "counts";
      buckets ← zip_buckets (HistogramM.buckets h) counts;
      sum_value ← json_subscript entry "sum";
      Ok (HistogramMetricFamily (Metric.field m) (BaseM.help_text (Metric.base m))
            buckets sum_value)
  | _ =>
      Ok (GaugeMetricFamily (Metric.field m) (BaseM.help_text (Metric.base m)) entry)
  end.

Fixpoint collect_loop (namespace : string) (instance_data : list (string * json))
    (host_metrics : option json) (metrics : list (string * metric)) (r : run)
  : run :=
  match metrics with
  | [] => r
  | (_, m) :: rest =>
      let got :=
        match host_metrics with
        | Some j => json_get j (Metric.field m)
        | None => Raise AttributeError
        end in
      match got with
      | Raise e => mk_run (yielded r) (logged r) (Raise e)
      | Ok entry =>
          match entry with
          | Some j =>
              if json_truthy j then
                match family m j with
                | Ok f =>
                    collect_loop namespace instance_data host_metrics rest
                      (mk_run (yielded r ++ [f]) (logged r) (outcome r))
                | Raise e => mk_run (yielded r) (logged r) (Raise e)
                end
              else
                collect_loop namespace instance_data host_metrics rest
                  (mk_run (yielded r)
                     (logged r ++
                      [debug_metric_not_found namespace (Metric.field m) instance_data])
                     (outcome r))
          | None =>
              collect_loop namespace instance_data host_metrics rest
                (mk_run (yielded r)
                   (logged r ++
                    [debug_metric_not_found namespace (Metric.field m) instance_data])
                   (outcome r))
          end
      end
  end.

Definition collect (cfg : settings) (_metrics : Metrics.t) (conn : world) : run :=
  let my_hostname := CLUSTER_HOST_ID cfg in
  match Metrics.load_other_metrics cfg _metrics conn (mk_request [] []) with
  | Raise e => mk_run [] [] (Raise e)
  | Ok instance_data =>
      match instance_data with
      | [] => mk_run [] [debug_no_metric_data (Metrics._namespace _metrics)] (Ok tt)
      | _ :: _ =>
          let host_metrics := odict.get instance_data my_hostname in
          collect_loop (Metrics._namespace _metrics) instance_data host_metrics
            (Metrics.METRICS _metrics) (mk_run [] [] (Ok tt))
      end
  end.
End CustomToPrometheusMetricsCollector.

(** ** Invariants and auxiliary notions used by the statements *)

(** [store_value(conn)] on a connection: the commands run at once. *)
Definition store_value_on (conn : gmap string Z) (m : metric)
  : result (metric * gmap string Z) :=
  '(m', c) ← Metric.store_value m; Ok (m', run_cmds conn c).

(** The first boundary [b], in the order of the list, with [value <= b]. *)
Definition first_bucket (value : Z) (buckets : list Z) : option Z :=
  List.find (fun b => (value <=? b)%Z) buckets.

(** The local count kept for boundary [b]. *)
Definition bucket_count (h : HistogramM.t) (b : Z) : option Z :=
  BaseM.current_value <$> odict.get (HistogramM.buckets_to_keys h) b.

(** The sub-counters of a histogram are keyed by its boundaries, in order. *)
Definition histogram_keyed (h : HistogramM.t) : Prop :=
  odict.keys (HistogramM.buckets_to_keys h) = HistogramM.buckets h.

(** An accumulator that is not dirty holds nothing: true of a new metric,
    kept by [inc], [set], [store_value] and [reset_value] of the additive
    classes. *)
Definition clean_zero (b : BaseM.t) : Prop :=
  BaseM.metric_has_changed b = false -> BaseM.current_value b = 0.

Definition clean_zerob (b : BaseM.t) : bool :=
  BaseM.metric_has_changed b || (BaseM.current_value b =? 0)%Z.

(** Every boundary of a histogram has its sub-counter. *)
Definition histogram_wf (h : HistogramM.t) : bool :=
  forallb (odict.mem (HistogramM.buckets_to_keys h)) (HistogramM.buckets h).

Definition metric_wf (m : metric) : bool :=
  match m with
  | MHistogram h => histogram_wf h
  | _ => true
  end.

(** The metrics about the flush itself, as [_METRICSLIST] registers them. *)
Definition self_metric_ok (d : list (string * metric)) (field : string) : bool :=
  match odict.get d field with
  | Some m => Metric.is_additive m && clean_zerob (Metric.base m)
  | None => false
  end.

(** Every metric is registered under its own field name. *)
Definition field_matches (fm : string * metric) : bool :=
  bool_decide (Metric.field fm.2 = fm.1).

(** What [Metrics.__init__] sets up and every method keeps: [METRICS] is a
    dictionary from field names to the metrics of these names, its
    histograms have their sub-counters, the three metrics of [_METRICSLIST]
    are registered, and the broadcast timestamp is the gauge
    [send_metrics_time]. *)
Definition namespace_wf (self : Metrics.t) : bool :=
  bool_decide (NoDup (odict.keys (Metrics.METRICS self)))
  && forallb field_matches (Metrics.METRICS self)
  && forallb metric_wf (odict.values (Metrics.METRICS self))
  && self_metric_ok (Metrics.METRICS self) "subsystem_metrics_pipe_execute_seconds"
  && self_metric_ok (Metrics.METRICS self) "subsystem_metrics_pipe_execute_calls"
  && self_metric_ok (Metrics.METRICS self) "subsystem_metrics_send_metrics_seconds"
  && bool_decide (BaseM.field (Metrics.previous_send_metrics self) = "send_metrics_time").

(** The metric as [store_value] leaves it. *)
Definition stored (m : metric) : metric :=
  match Metric.store_value m with
  | Ok (m', _) => m'
  | Raise _ => m
  end.

(** *** The steps of a broadcast, as [send_metrics] performs them *)

(** The world once the lock is taken. *)
Definition locked (cfg : settings) (env : send_env) (self : Metrics.t) (w : world)
  : world :=
  Redis.with_locks w (<[Metrics.lock_name cfg self := lock_token env]> (locks w)).

(** The interval test of [send_metrics], read from the hash. *)
Definition broadcast_due (env : send_env) (self : Metrics.t) (w : world) : bool :=
  (current_time env
   - SetFloatM.decode (hash w) (Metrics.previous_send_metrics self)
   >? Metrics.send_metrics_interval self)%Z.

Definition broadcast_payload (self : Metrics.t) (w : world) : payload :=
  mk_payload (Metrics.instance_name self) (Metrics.serialize_local_metrics self w)
    (Metrics._namespace self).

(** The object after a successful broadcast. *)
Definition timestamped (env : send_env) (self : Metrics.t) : Metrics.t :=
  Metrics.with_previous_send_metrics self
    (BaseM.mk (BaseM.field (Metrics.previous_send_metrics self))
       (BaseM.help_text (Metrics.previous_send_metrics self))
       (current_time env) false).

(** The world after a successful broadcast, the lock still held. *)
Definition published (cfg : settings) (env : send_env) (self : Metrics.t) (w : world)
  : world :=
  Redis.run
    (Redis.emit
       (Redis.set w (Metrics.instance_key cfg self (Metrics.instance_name self))
          (Metrics.serialize_local_metrics self w))
       (broadcast_payload self w))
    [HSET (BaseM.field (Metrics.previous_send_metrics self)) (current_time env)].

(** The world as the [finally] clause leaves it. *)
Definition released (cfg : settings) (env : send_env) (self : Metrics.t) (w : world)
  : world :=
  let w' := Redis.happen w (Metrics.lock_name cfg self) (lock_fate env) in
  match Redis.release w' (Metrics.lock_name cfg self) (lock_token env) with
  | Ok w'' => w''
  | Raise exc => Redis.log w' (warning_lock_release exc)
  end.

(** What a flush adds to the metrics about itself, once they are stored:
    [sent] tells whether [send_metrics] returned. *)
Definition self_observed (env : flush_env) (sent : bool) (field : string) (m : metric)
  : metric :=
  if decide (field = "subsystem_metrics_pipe_execute_seconds") then
    Metric.inc m (perf_counter_2 env - perf_counter_1 env)
  else if decide (field = "subsystem_metrics_pipe_execute_calls") then
    Metric.inc m 1
  else if decide (field = "subsystem_metrics_send_metrics_seconds") then
    (if sent then Metric.inc m (perf_counter_4 env - perf_counter_3 env) else m)
  else m.

(** *** The reader *)

(** The snapshot stored for a node, if it is there and not empty. *)
Definition snapshot_of (cfg : settings) (self : Metrics.t) (conn : world)
    (instance : string) : option json :=
  match Redis.get conn (Metrics.instance_key cfg self instance) with
  | Some (BJson document) => Some document
  | Some BEmpty => None
  | None => None
  end.

(** The test a filter applies to a name: an empty filter lets everything
    through. *)
Definition passes (filter : list string) (name : string) : bool :=
  (length filter =? 0)%nat || str_in name filter.


(** *** A node of a cluster, for the examples *)

Definition example_settings : settings :=
  mk_settings "awx_metrics" 2 20 "awx-1" false.

Definition example_METRICSLIST : list metric :=
  [MSetInt (BaseM.__init__ "task_manager_tasks_started" "Number of tasks started");
   MInt (BaseM.__init__ "task_manager__schedule_calls"
           "Number of calls to _schedule, after lock is acquired");
   MHistogram (HistogramM.__init__ "callback_receiver_batch_events_insert_db"
                 "Number of events batch inserted into database" [10; 20; 50])].

(** The namespace object of a process started at time 100. *)
Definition example_namespace : Metrics.t :=
  Metrics.__init__ example_settings example_METRICSLIST 100 "dispatcher" false None true.

Definition empty_world : world := mk_world ∅ ∅ ∅ [] [].

(** A call at time [t] in which the transport works and the lock is kept. *)
Definition quiet_send (t : Z) : send_env :=
  mk_send_env "token" t (fun _ => Ok tt) lock_kept.

Definition quiet_flush (t : Z) : flush_env :=
  mk_flush_env 0 3 5 9 t (quiet_send t).

(** The process sets a gauge to 7 and flushes at time 130, which broadcasts
    its snapshot; it sets the gauge to 9 and flushes at time 135, within the
    broadcast interval. *)
Definition stale_snapshot_run : Metrics.M unit :=
  Metrics.set example_settings (quiet_flush 120) "task_manager_tasks_started" 7;;
  Metrics.pipe_execute example_settings (quiet_flush 130);;
  Metrics.set example_settings (quiet_flush 132) "task_manager_tasks_started" 9;;
  Metrics.pipe_execute example_settings (quiet_flush 135).

Definition stale_snapshot_state : Metrics.state :=
  (stale_snapshot_run (Metrics.mk_state example_namespace empty_world)).2.

(** *** Notions used by the further properties *)

(** The fields of the hash a metric reads on [decode] and writes on
    [store_value]. *)
Definition hash_fields (m : metric) : list string :=
  match m with
  | MHistogram h =>
      (BaseM.field <$> odict.values (HistogramM.buckets_to_keys h))
      ++ [BaseM.field (HistogramM.sum h); BaseM.field (HistogramM.inf h)]
  | _ => [Metric.field m]
  end.


(** What an accumulator still has to send. *)
Definition pending (b : BaseM.t) : Z :=
  if BaseM.metric_has_changed b then BaseM.current_value b else 0.

(** [observe] called on each value in turn. *)
Fixpoint observe_all (h : HistogramM.t) (values : list Z) : result HistogramM.t :=
  match values with
  | [] => Ok h
  | value :: rest => h' ← HistogramM.observe h value; observe_all h' rest
  end.


(** The field of the hash a command writes. *)
Definition cmd_field (c : cmd) : string :=
  match c with
  | HSET f _ | HINCRBY f _ | HINCRBYFLOAT f _ => f
  end.

(** The commands [store_value] buffers for a metric. *)
Definition written (m : metric) : list cmd :=
  match Metric.store_value m with
  | Ok (_, c) => c
  | Raise _ => []
  end.

(** No two metrics of the namespace share a field of the hash, and none
    uses the field of the broadcast timestamp. *)
Definition fields_apart (self : Metrics.t) : bool :=
  bool_decide (NoDup (flat_map hash_fields (odict.values (Metrics.METRICS self))
                      ++ [BaseM.field (Metrics.previous_send_metrics self)])).

(** The counters a histogram is made of: one per boundary, the sum and the
    total. *)
Definition sub_counters (h : HistogramM.t) : list BaseM.t :=
  odict.values (HistogramM.buckets_to_keys h) ++ [HistogramM.sum h; HistogramM.inf h].

(** A histogram as the constructor builds it from distinct boundaries, and
    as [observe] and [store_value] keep it. *)
Definition histogram_ok (h : HistogramM.t) : Prop :=
  histogram_keyed h /\
  NoDup (HistogramM.buckets h) /\
  NoDup (BaseM.field <$> sub_counters h) /\
  Forall clean_zero (sub_counters h).

(** The number of values at or below a boundary. *)
Definition count_le (b : Z) (values : list Z) : Z :=
  Z.of_nat (length (filter (fun v => v <= b) values)).

(** *** The namespaces of the two services *)

(** The settings the two subclasses and [metrics] read. *)
Record service_settings := mk_service_settings {
  METRICS_SERVICE_DISPATCHER : string;
  METRICS_SERVICE_CALLBACK_RECEIVER : string;
  SUBSYSTEM_METRICS_BATCH_INSERT_BUCKETS : list Z;
}.

Module DispatcherMetrics.
Definition METRICSLIST : list metric :=
  [MSetFloat (BaseM.__init__ "task_manager_get_tasks_seconds"
                "Time spent in loading tasks from db");
   MSetFloat (BaseM.__init__ "task_manager_start_task_seconds" "Time spent starting task");
   MSetFloat (BaseM.__init__ "task_manager_process_running_tasks_seconds"
                "Time spent processing running tasks");
   MSetFloat (BaseM.__init__ "task_manager_process_pending_tasks_seconds"
                "Time spent processing pending tasks");
   MSetFloat (BaseM.__init__ "task_manager__schedule_seconds"
                "Time spent in running the entire _schedule");
   MInt (BaseM.__init__ "task_manager__schedule_calls"
           "Number of calls to _schedule, after lock is acquired");
   MSetFloat (BaseM.__init__ "task_manager_recorded_timestamp"
                "Unix timestamp when metrics were last recorded");
   MSetInt (BaseM.__init__ "task_manager_tasks_started" "Number of tasks started");
   MSetInt (BaseM.__init__ "task_manager_running_processed"
              "Number of running tasks processed");
   MSetInt (BaseM.__init__ "task_manager_pending_processed"
              "Number of pending tasks processed");
   MSetInt (BaseM.__init__ "task_manager_tasks_blocked"
              "Number of tasks blocked from running");
   MSetFloat (BaseM.__init__ "task_manager_commit_seconds"
                "Time spent in db transaction, including on_commit calls");
   MSetFloat (BaseM.__init__ "dependency_manager_get_tasks_seconds"
                "Time spent loading pending tasks from db");
   MSetFloat (BaseM.__init__ "dependency_manager_generate_dependencies_seconds"
                "Time spent generating dependencies for pending tasks");
   MSetFloat (BaseM.__init__ "dependency_manager__schedule_seconds"
                "Time spent in running the entire _schedule");
   MInt (BaseM.__init__ "dependency_manager__schedule_calls"
           "Number of calls to _schedule, after lock is acquired");
   MSetFloat (BaseM.__init__ "dependency_manager_recorded_timestamp"
                "Unix timestamp when metrics were last recorded");
   MSetInt (BaseM.__init__ "dependency_manager_pending_processed"
              "Number of pending tasks processed");
   MSetFloat (BaseM.__init__ "workflow_manager__schedule_seconds"
                "Time spent in running the entire _schedule");
   MInt (BaseM.__init__ "workflow_manager__schedule_calls"
           "Number of calls to _schedule, after lock is acquired");
   MSetFloat (BaseM.__init__ "workflow_manager_recorded_timestamp"
                "Unix timestamp when metrics were last recorded");
   MSetFloat (BaseM.__init__ "workflow_manager_spawn_workflow_graph_jobs_seconds"
                "Time spent spawning workflow tasks");
   MSetFloat (BaseM.__init__ "workflow_manager_get_tasks_seconds"
                "Time spent loading workflow tasks from db");
   MSetInt (BaseM.__init__ "dispatcher_pool_scale_up_events"
              "Number of times local dispatcher scaled up a worker since startup");
   MSetInt (BaseM.__init__ "dispatcher_pool_active_task_count"
              "Number of active tasks in the worker pool when last task was submitted");
   MSetInt (BaseM.__init__ "dispatcher_pool_max_worker_count"
              "Highest number of workers in worker pool in last collection interval, about 20s");
   MSetFloat (BaseM.__init__ "dispatcher_availability"
                "Fraction of time (in last collection interval) dispatcher was able to receive messages")].

Definition __init__ (cfg : settings) (svc : service_settings) (now : Z)
    (auto_pipe_execute : bool) (instance_name : option string)
    (metrics_have_changed : bool) : Metrics.t :=
  Metrics.__init__ cfg METRICSLIST now (METRICS_SERVICE_DISPATCHER svc)
    auto_pipe_execute instance_name metrics_have_changed.
End DispatcherMetrics.

Module CallbackReceiverMetrics.
Definition METRICSLIST (svc : service_settings) : list metric :=
  [MSetInt (BaseM.__init__ "callback_receiver_events_queue_size_redis"
              "Current number of events in redis queue");
   MInt (BaseM.__init__ "callback_receiver_events_popped_redis"
           "Number of events popped from redis");
   MInt (BaseM.__init__ "callback_receiver_events_in_memory"
           "Current number of events in memory (in transfer from redis to db)");
   MInt (BaseM.__init__ "callback_receiver_batch_events_errors"
           "Number of times batch insertion failed");
   MFloat (BaseM.__init__ "callback_receiver_events_insert_db_seconds"
             "Total time spent saving events to database");
   MInt (BaseM.__init__ "callback_receiver_events_insert_db"
           "Number of events batch inserted into database");
   MInt (BaseM.__init__ "callback_receiver_events_broadcast"
           "Number of events broadcast to other control plane nodes");
   MHistogram (HistogramM.__init__ "callback_receiver_batch_events_insert_db"
                 "Number of events batch inserted into database"
                 (SUBSYSTEM_METRICS_BATCH_INSERT_BUCKETS svc));
   MSetFloat (BaseM.__init__ "callback_receiver_event_processing_avg_seconds"
                "Average processing time per event per callback receiver batch")].

Definition __init__ (cfg : settings) (svc : service_settings) (now : Z)
    (auto_pipe_execute : bool) (instance_name : option string)
    (metrics_have_changed : bool) : Metrics.t :=
  Metrics.__init__ cfg (METRICSLIST svc) now (METRICS_SERVICE_CALLBACK_RECEIVER svc)
    auto_pipe_execute instance_name metrics_have_changed.
End CallbackReceiverMetrics.

(** The loop of [metrics]: [output_text += m.generate_metrics(request)]. *)
Fixpoint metrics_loop (cfg : settings) (ms : list Metrics.t) (conn : world)
    (request : request) (output_text : string) : result string :=
  match ms with
  | [] => Ok output_text
  | m :: rest =>
      text ← Metrics.generate_metrics cfg m conn request;
      metrics_loop cfg rest conn request (output_text +:+ text)
  end.

(** [metrics(request)], named [metrics_] here because [metrics] is a field
    of the payload: both objects are built with the default arguments, at
    times [now1] and [now2], before the loop starts. *)
Definition metrics_ (cfg : settings) (svc : service_settings) (now1 now2 : Z)
    (conn : world) (request : request) : result string :=
  metrics_loop cfg
    [DispatcherMetrics.__init__ cfg svc now1 false None true;
     CallbackReceiverMetrics.__init__ cfg svc now2 false None true]
    conn request "".

(** Settings of the two services, for the examples. *)
Definition example_services : service_settings :=
  mk_service_settings "dispatcher" "callback_receiver" [10; 50; 150; 350; 650; 2000].

(** * Properties *)

(** ** Ordered dictionaries *)

Section OdictFacts.
Context {K V : Type} `{EqDecision K}.
Implicit Types (d : list (K * V)) (k : K) (v : V).

Lemma odict_get_set_eq d k v : odict.get (odict.set d k v) k = Some v.
Proof.
  induction d as [|[k' v'] d IH]; simpl.
  - by rewrite decide_True.
  - destruct (decide (k' = k)) as [->|Hne]; simpl.
    + by rewrite decide_True.
    + by rewrite decide_False.
Qed.

Lemma odict_get_set_ne d k k' v :
  k ≠ k' -> odict.get (odict.set d k v) k' = odict.get d k'.
Proof.
  intros Hne. induction d as [|[k0 v0] d IH]; simpl.
  - by rewrite decide_False.
  - destruct (decide (k0 = k)) as [->|Hne0]; simpl.
    + by rewrite !decide_False.
    + destruct (decide (k0 = k')); [done | apply IH].
Qed.

Lemma odict_get_set d k k' v :
  odict.get (odict.set d k v) k' =
  if decide (k = k') then Some v else odict.get d k'.
Proof.
  destruct (decide (k = k')) as [->|Hne].
  - apply odict_get_set_eq.
  - by apply odict_get_set_ne.
Qed.

Lemma odict_keys_set_present d k v :
  is_Some (odict.get d k) -> odict.keys (odict.set d k v) = odict.keys d.
Proof.
  unfold odict.keys. induction d as [|[k' v'] d IH]; simpl.
  - intros [? ?]; discriminate.
  - destruct (decide (k' = k)) as [->|Hne]; simpl; [done |].
    intros Hs. f_equal. by apply IH.
Qed.

Lemma odict_keys_set_absent d k v :
  odict.get d k = None -> odict.keys (odict.set d k v) = odict.keys d ++ [k].
Proof.
  unfold odict.keys. induction d as [|[k' v'] d IH]; simpl; [done |].
  destruct (decide (k' = k)) as [->|Hne]; simpl; [done |].
  intros Hs. f_equal. by apply IH.
Qed.

Lemma odict_get_Some_keys d k v : odict.get d k = Some v -> k ∈ odict.keys d.
Proof.
  unfold odict.keys. induction d as [|[k' v'] d IH]; simpl; [done |].
  destruct (decide (k' = k)) as [->|Hne].
  - intros _. apply list_elem_of_here.
  - intros Hg. apply list_elem_of_further. by apply IH.
Qed.

Lemma odict_keys_get d k : k ∈ odict.keys d -> is_Some (odict.get d k).
Proof.
  unfold odict.keys. induction d as [|[k' v'] d IH]; simpl.
  - intros Hin. by apply elem_of_nil in Hin.
  - destruct (decide (k' = k)) as [->|Hne]; [by eauto |].
    intros Hin. apply elem_of_cons in Hin as [Heq | Hin]; [congruence | by apply IH].
Qed.

Lemma odict_get_None_keys d k : odict.get d k = None -> k ∉ odict.keys d.
Proof.
  intros Hg Hin. apply odict_keys_get in Hin as [v Hv]. congruence.
Qed.

End OdictFacts.

(** ** Histograms *)

Lemma first_bucket_Some value buckets b :
  StronglySorted Z.lt buckets ->
  first_bucket value buckets = Some b ->
  b ∈ buckets /\ value <= b /\ forall b', b' ∈ buckets -> b' < b -> b' < value.
Proof.
  unfold first_bucket. induction 1 as [|x xs Hs IH Hall]; simpl; [done |].
  destruct (Z.leb_spec value x) as [Hle | Hgt].
  - intros [= <-]. split; [apply list_elem_of_here |]. split; [done |].
    intros b' Hin Hlt. apply elem_of_cons in Hin as [-> | Hin]; [lia |].
    rewrite List.Forall_forall in Hall. apply list_elem_of_In, Hall in Hin. lia.
  - intros Hf. destruct (IH Hf) as (Hin & Hle & Hmin).
    split; [by apply list_elem_of_further |]. split; [done |].
    intros b' Hin' Hlt. apply elem_of_cons in Hin' as [-> | Hin']; [lia | by apply Hmin].
Qed.

Lemma first_bucket_None value buckets :
  first_bucket value buckets = None -> forall b, b ∈ buckets -> b < value.
Proof.
  unfold first_bucket. intros Hf b Hin.
  apply list_elem_of_In in Hin. apply (List.find_none _ _ Hf) in Hin. simpl in Hin. lia.
Qed.

Lemma observe_loop_spec value bs d :
  (forall b, b ∈ bs -> is_Some (odict.get d b)) ->
  exists d',
    HistogramM.observe_loop value bs d = Ok d' /\
    odict.keys d' = odict.keys d /\
    forall b,
      odict.get d' b =
      (fun m => if decide (first_bucket value bs = Some b) then BaseM.inc m 1 else m)
        <$> odict.get d b.
Proof.
  unfold first_bucket.
  induction bs as [|x xs IH]; simpl; intros Hpre.
  - exists d. split; [done |]. split; [done |].
    intros b. by destruct (odict.get d b).
  - destruct (Z.leb_spec value x) as [Hle | Hgt].
    + destruct (Hpre x) as [m Hm]; [apply list_elem_of_here |].
      unfold odict.subscript. rewrite Hm. simpl.
      eexists. split; [done |]. split.
      * apply odict_keys_set_present. by eauto.
      * intros b. rewrite odict_get_set.
        destruct (decide (x = b)) as [<- | Hne].
        -- rewrite Hm. simpl. by rewrite decide_True.
        -- destruct (odict.get d b); simpl; [| done].
           rewrite decide_False; [done | congruence].
    + apply IH. intros b Hin. apply Hpre. by apply list_elem_of_further.
Qed.

Lemma histogram_init_keys_from field (bs : list Z) (d : list (Z * BaseM.t)) :
  NoDup bs ->
  (forall b, b ∈ bs -> odict.get d b = None) ->
  odict.keys (foldl (fun d b => odict.set d b (HistogramM.bucket_key field b)) d bs)
  = odict.keys d ++ bs.
Proof.
  intros Hnd. revert d. induction Hnd as [|x xs Hx Hnd IH]; simpl; intros d Hfresh.
  - by rewrite app_nil_r.
  - rewrite IH.
    + rewrite odict_keys_set_absent; [by rewrite <- app_assoc |].
      apply Hfresh, list_elem_of_here.
    + intros b Hin. rewrite odict_get_set_ne.
      * apply Hfresh. by apply list_elem_of_further.
      * intros ->. contradiction.
Qed.

(** A histogram built by the constructor from distinct boundaries is keyed
    by them. *)
Lemma histogram_init_keyed field help_text buckets :
  NoDup buckets -> histogram_keyed (HistogramM.__init__ field help_text buckets).
Proof.
  intros Hnd. unfold histogram_keyed, HistogramM.__init__. simpl.
  by rewrite histogram_init_keys_from.
Qed.

Lemma ascending_NoDup (bs : list Z) : StronglySorted Z.lt bs -> NoDup bs.
Proof.
  induction 1 as [|x xs Hs IH Hall]; constructor; [| done].
  intros Hin. rewrite List.Forall_forall in Hall.
  apply list_elem_of_In, Hall in Hin. lia.
Qed.

(** C2.  With ascending boundaries, [observe(v)] adds 1 to the sub-counter
    of the first boundary [b] with [v <= b] and to no other bucket; it always
    adds 1 to the total counter and [v] to the sum counter, also when [v] is
    above every boundary.  For boundaries 10, 20, 50, observing 5, 15 and 999
    and storing into an empty hash decodes to counts 1, 1, 0, total 3 and sum
    1019. *)
Theorem histogram_observe_first_bucket :
  (forall (h : HistogramM.t) (value : Z),
     histogram_keyed h ->
     StronglySorted Z.lt (HistogramM.buckets h) ->
     exists h',
       HistogramM.observe h value = Ok h' /\
       (forall b, b ∈ HistogramM.buckets h ->
          bucket_count h' b =
          (fun c => if decide (first_bucket value (HistogramM.buckets h) = Some b)
                    then c + 1 else c) <$> bucket_count h b) /\
       BaseM.current_value (HistogramM.inf h') = BaseM.current_value (HistogramM.inf h) + 1 /\
       BaseM.current_value (HistogramM.sum h') = BaseM.current_value (HistogramM.sum h) + value /\
       match first_bucket value (HistogramM.buckets h) with
       | Some b =>
           b ∈ HistogramM.buckets h /\ value <= b /\
           forall b', b' ∈ HistogramM.buckets h -> b' < b -> b' < value
       | None => forall b, b ∈ HistogramM.buckets h -> b < value
       end /\
       HistogramM.buckets h' = HistogramM.buckets h /\
       histogram_keyed h') /\
  (h1 ← HistogramM.observe
          (HistogramM.__init__ "callback_receiver_batch_events_insert_db"
             "Number of events batch inserted into database" [10; 20; 50]) 5;
   h2 ← HistogramM.observe h1 15;
   h3 ← HistogramM.observe h2 999;
   '(h4, c) ← HistogramM.store_value h3;
   Ok (HistogramM.decode (run_cmds ∅ c) h4))
  = Ok (JDict [("counts", JList [JNum 1; JNum 1; JNum 0]);
               ("sum", JNum 1019); ("inf", JNum 3)]).
Proof.
  split; [| by vm_compute].
  intros h value Hkeyed Hsorted.
  destruct (observe_loop_spec value (HistogramM.buckets h) (HistogramM.buckets_to_keys h))
    as (d' & Hloop & Hkeys & Hget).
  { intros b Hin. apply odict_keys_get. by rewrite Hkeyed. }
  unfold HistogramM.observe. rewrite Hloop. simpl.
  eexists. split; [done |]. simpl.
  split.
  { intros b _. unfold bucket_count. simpl. rewrite Hget.
    destruct (odict.get (HistogramM.buckets_to_keys h) b); simpl; [| done].
    by destruct (decide (first_bucket value (HistogramM.buckets h) = Some b)). }
  split; [done |]. split; [done |]. split.
  { destruct (first_bucket value (HistogramM.buckets h)) as [b|] eqn:Hf.
    - by apply first_bucket_Some.
    - by apply first_bucket_None. }
  split; [done |].
  unfold histogram_keyed. simpl. by rewrite Hkeys.
Qed.

Lemma histogram_observe_first_bucket_witness :
  let h := HistogramM.__init__ "h" "" [10; 20; 50] in
  histogram_keyed h /\
  StronglySorted Z.lt (HistogramM.buckets h) /\
  exists h',
    HistogramM.observe h 15 = Ok h' /\
    bucket_count h' 20 = Some 1 /\ bucket_count h' 10 = Some 0.
Proof.
  simpl. split; [reflexivity |]. split.
  { repeat constructor; lia. }
  destruct (proj1 histogram_observe_first_bucket (HistogramM.__init__ "h" "" [10; 20; 50]) 15)
    as (h' & Hobs & _).
  - reflexivity.
  - repeat constructor; lia.
  - exists h'. split; [exact Hobs |].
    vm_compute in Hobs. injection Hobs as <-. split; reflexivity.
Defined.

(** ** Merging a metric into the hash *)


Lemma additive_store_value_on (m : metric) (conn : gmap string Z) :
  Metric.is_additive m = true ->
  BaseM.metric_has_changed (Metric.base m) = true ->
  store_value_on conn m =
  Ok (Metric.with_base m
        (BaseM.mk (Metric.field m) (BaseM.help_text (Metric.base m)) 0 false),
      hincr conn (Metric.field m) (Metric.get m)).
Proof.
  destruct m as [b | b | b | b | h]; simpl; try discriminate; intros _ Hdirty;
    unfold store_value_on, Metric.store_value, FloatM.store_value, IntM.store_value;
    rewrite Hdirty; reflexivity.
Qed.



(** ** The store loop of a flush *)

Lemma bind_run {A B} (c : Metrics.M A) (k : A -> Metrics.M B) (s : Metrics.state) :
  (c ≫= k) s =
  match c s with
  | (Ok a, s') => k a s'
  | (Raise e, s') => (Raise e, s')
  end.
Proof. reflexivity. Qed.

Lemma odict_mem_set {K V} `{EqDecision K} (d : list (K * V)) k k' v :
  odict.mem d k' = true -> odict.mem (odict.set d k v) k' = true.
Proof.
  unfold odict.mem. rewrite odict_get_set.
  destruct (decide (k = k')); [done |]. by destruct (odict.get d k').
Qed.

Lemma histogram_store_loop_ok (bs : list Z) (d : list (Z * BaseM.t)) (acc : list cmd) :
  forallb (odict.mem d) bs = true ->
  exists d' acc',
    HistogramM.store_loop bs d acc = Ok (d', acc') /\
    forall b, odict.mem d b = true -> odict.mem d' b = true.
Proof.
  revert d acc. induction bs as [|x xs IH]; simpl; intros d acc Hall.
  - by eauto.
  - apply andb_true_iff in Hall as [Hx Hxs].
    unfold odict.subscript. unfold odict.mem in Hx.
    destruct (odict.get d x) as [m|] eqn:Hm; [| done]. simpl.
    destruct (IntM.store_value m) as [m' c] eqn:Hst.
    destruct (IH (odict.set d x m') (acc ++ c)) as (d' & acc' & Hloop & Hmem).
    { apply forallb_forall. intros b Hb. apply odict_mem_set.
      by eapply forallb_forall in Hxs. }
    exists d', acc'. split; [done |].
    intros b Hb. by apply Hmem, odict_mem_set.
Qed.

Lemma metric_store_value_ok (m : metric) :
  metric_wf m = true ->
  exists m' c, Metric.store_value m = Ok (m', c) /\ metric_wf m' = true.
Proof.
  destruct m as [b | b | b | b | h]; simpl; intros Hwf.
  - destruct (FloatM.store_value b); by eauto.
  - destruct (IntM.store_value b); by eauto.
  - destruct (SetIntM.store_value b); by eauto.
  - destruct (SetFloatM.store_value b); by eauto.
  - unfold HistogramM.store_value.
    destruct (histogram_store_loop_ok (HistogramM.buckets h)
                (HistogramM.buckets_to_keys h) []) as (d' & acc' & Hloop & Hmem);
      [done |].
    rewrite Hloop. simpl.
    destruct (IntM.store_value (HistogramM.sum h)), (IntM.store_value (HistogramM.inf h)).
    simpl. do 2 eexists. split; [done |]. simpl.
    unfold histogram_wf in *. simpl.
    apply forallb_forall. intros b Hb. apply Hmem.
    by eapply forallb_forall in Hwf.
Qed.

Lemma stored_wf (m : metric) : metric_wf m = true -> metric_wf (stored m) = true.
Proof.
  intros Hwf. unfold stored.
  destruct (metric_store_value_ok m Hwf) as (m' & c & -> & Hwf'). done.
Qed.

Lemma odict_values_set_wf (d : list (string * metric)) k m :
  forallb metric_wf (odict.values d) = true ->
  metric_wf m = true ->
  forallb metric_wf (odict.values (odict.set d k m)) = true.
Proof.
  unfold odict.values. induction d as [|[k' m'] d IH]; simpl; intros Hd Hm.
  - by rewrite Hm.
  - apply andb_true_iff in Hd as [Hm' Hd].
    destruct (decide (k' = k)); simpl.
    + apply andb_true_iff. by split.
    + apply andb_true_iff. split; [done | by apply IH].
Qed.

Lemma odict_values_get_wf (d : list (string * metric)) k m :
  forallb metric_wf (odict.values d) = true ->
  odict.get d k = Some m -> metric_wf m = true.
Proof.
  unfold odict.values. induction d as [|[k' m'] d IH]; simpl; [done |].
  intros Hd. apply andb_true_iff in Hd as [Hm' Hd].
  destruct (decide (k' = k)); [by intros [= <-] | by apply IH].
Qed.

(** ** Running the methods *)

Ltac run_step :=
  rewrite ?bind_run;
  unfold Metrics.update, Metrics.on_self, Metrics.on_conn, Metrics.lift,
    Metrics.get_state, Metrics.lookup;
  simpl.

Ltac run := repeat (progress run_step).

Lemma store_values_spec (ks : list string) (s : Metrics.state) :
  NoDup ks ->
  (forall k, k ∈ ks -> k ∈ odict.keys (Metrics.METRICS (Metrics.self s))) ->
  forallb metric_wf (odict.values (Metrics.METRICS (Metrics.self s))) = true ->
  exists d' cs,
    Metrics.store_values ks s
    = (Ok tt,
       Metrics.mk_state
         (Metrics.with_pipe (Metrics.with_METRICS (Metrics.self s) d')
            (Metrics.pipe (Metrics.self s) ++ cs))
         (Metrics.conn s)) /\
    odict.keys d' = odict.keys (Metrics.METRICS (Metrics.self s)) /\
    forallb metric_wf (odict.values d') = true /\
    forall k,
      odict.get d' k =
      if decide (k ∈ ks) then stored <$> odict.get (Metrics.METRICS (Metrics.self s)) k
      else odict.get (Metrics.METRICS (Metrics.self s)) k.
Proof.
  intros Hnd. revert s. induction Hnd as [|k ks Hk Hnd IH]; intros s Hin Hwf.
  - exists (Metrics.METRICS (Metrics.self s)), []. split.
    + destruct s as [[] w]. simpl. by rewrite app_nil_r.
    + split; [done |]. split; [done |]. intros k. by rewrite decide_False by apply not_elem_of_nil.
  - destruct (odict_keys_get (Metrics.METRICS (Metrics.self s)) k) as [m Hm].
    { apply Hin, list_elem_of_here. }
    pose proof (odict_values_get_wf _ _ _ Hwf Hm) as Hmwf.
    destruct (metric_store_value_ok m Hmwf) as (m' & c & Hst & Hwf').
    simpl. run. unfold odict.subscript. rewrite Hm. run. rewrite Hst. run.
    match goal with
    | |- context [Metrics.store_values ks ?x] =>
        destruct (IH x) as (d' & cs & Hrun & Hkeys & Hwfd & Hget)
    end.
    { simpl. intros k0 Hk0. rewrite odict_keys_set_present by eauto.
      by apply Hin, list_elem_of_further. }
    { simpl. by apply odict_values_set_wf. }
    rewrite Hrun. simpl in *.
    exists d', (c ++ cs). split.
    { destruct s as [[] w]. simpl. by rewrite app_assoc. }
    split. { rewrite Hkeys. apply odict_keys_set_present. by eauto. }
    split; [done |].
    intros k0. rewrite Hget, odict_get_set.
    destruct (decide (k = k0)) as [<- | Hne].
    + rewrite decide_False by done. rewrite decide_True by apply list_elem_of_here.
      rewrite Hm. simpl. unfold stored. by rewrite Hst.
    + destruct (decide (k0 ∈ ks)) as [Hin0 | Hnin0].
      * by rewrite decide_True by by apply list_elem_of_further.
      * rewrite decide_False; [done |].
        intros Hc. apply elem_of_cons in Hc as [-> | Hc]; done.
Qed.


(** ** The broadcast *)

Section Broadcast.
Context (cfg : settings) (env : send_env).
Implicit Types (s : Metrics.state) (self : Metrics.t) (w : world).

Lemma send_metrics_contended s :
  is_Some (locks (Metrics.conn s) !! Metrics.lock_name cfg (Metrics.self s)) ->
  Metrics.send_metrics cfg env s = (Ok tt, s).
Proof.
  intros [t Ht]. unfold Metrics.send_metrics. run.
  unfold Redis.acquire. rewrite Ht. run. by destruct s.
Qed.

Lemma send_metrics_acquired s :
  locks (Metrics.conn s) !! Metrics.lock_name cfg (Metrics.self s) = None ->
  Metrics.send_metrics cfg env s =
  Metrics.try_finally (Metrics.send_metrics_body cfg env)
    (Metrics.send_metrics_release cfg env)
    (Metrics.mk_state (Metrics.self s)
       (Redis.acquire (Metrics.conn s) (Metrics.lock_name cfg (Metrics.self s))
          (lock_token env)).2).
Proof.
  intros Hfree. unfold Metrics.send_metrics. run.
  unfold Redis.acquire. rewrite Hfree. run. reflexivity.
Qed.

Lemma send_metrics_release_run self w :
  Metrics.send_metrics_release cfg env (Metrics.mk_state self w) =
  (Ok tt, Metrics.mk_state self (released cfg env self w)).
Proof.
  unfold Metrics.send_metrics_release, Metrics.try_except, released. run.
  destruct (Redis.release _ _ _); run; reflexivity.
Qed.

Lemma send_metrics_body_skip self w :
  broadcast_due env self w = false ->
  Metrics.send_metrics_body cfg env (Metrics.mk_state self w)
  = (Ok tt, Metrics.mk_state self w).
Proof.
  intros Hdue. unfold Metrics.send_metrics_body. run.
  unfold broadcast_due in Hdue. rewrite Hdue. reflexivity.
Qed.

Lemma send_metrics_body_raise self w e :
  broadcast_due env self w = true ->
  emit_channel_notification env (broadcast_payload self w) = Raise e ->
  Metrics.send_metrics_body cfg env (Metrics.mk_state self w)
  = (Raise e,
     Metrics.mk_state self
       (Redis.set w (Metrics.instance_key cfg self (Metrics.instance_name self))
          (Metrics.serialize_local_metrics self w))).
Proof.
  intros Hdue Hemit. unfold Metrics.send_metrics_body. run.
  unfold broadcast_due in Hdue. rewrite Hdue. run.
  unfold broadcast_payload in Hemit. rewrite Hemit. reflexivity.
Qed.

Lemma send_metrics_body_publish self w :
  broadcast_due env self w = true ->
  emit_channel_notification env (broadcast_payload self w) = Ok tt ->
  Metrics.send_metrics_body cfg env (Metrics.mk_state self w)
  = (Ok tt, Metrics.mk_state (timestamped env self) (published cfg env self w)).
Proof.
  intros Hdue Hemit. unfold Metrics.send_metrics_body. run.
  unfold broadcast_due in Hdue. rewrite Hdue. run.
  unfold broadcast_payload in Hemit. rewrite Hemit. run. reflexivity.
Qed.
End Broadcast.

Section BroadcastCases.
Context (cfg : settings) (env : send_env).
Implicit Types (s : Metrics.state) (self : Metrics.t) (w : world).

Lemma send_metrics_cases self w :
  locks w !! Metrics.lock_name cfg self = None ->
  Metrics.send_metrics cfg env (Metrics.mk_state self w) =
  if broadcast_due env self (locked cfg env self w) then
    match emit_channel_notification env (broadcast_payload self (locked cfg env self w)) with
    | Ok _ =>
        (Ok tt,
         Metrics.mk_state (timestamped env self)
           (released cfg env self (published cfg env self (locked cfg env self w))))
    | Raise e =>
        (Raise e,
         Metrics.mk_state self
           (released cfg env self
              (Redis.set (locked cfg env self w)
                 (Metrics.instance_key cfg self (Metrics.instance_name self))
                 (Metrics.serialize_local_metrics self (locked cfg env self w)))))
    end
  else (Ok tt, Metrics.mk_state self (released cfg env self (locked cfg env self w))).
Proof.
  intros Hfree. rewrite send_metrics_acquired by done. simpl.
  unfold Redis.acquire. rewrite Hfree. simpl. fold (locked cfg env self w).
  unfold Metrics.try_finally.
  destruct (broadcast_due env self (locked cfg env self w)) eqn:Hdue.
  - destruct (emit_channel_notification env (broadcast_payload self (locked cfg env self w)))
      as [[]|e] eqn:Hemit.
    + rewrite send_metrics_body_publish by done.
      by rewrite send_metrics_release_run.
    + rewrite (send_metrics_body_raise _ _ _ _ e) by done.
      by rewrite send_metrics_release_run.
  - rewrite send_metrics_body_skip by done.
    by rewrite send_metrics_release_run.
Qed.

(** What the [finally] clause does to a world in which the lock is ours. *)
Lemma released_spec self w :
  locks w !! Metrics.lock_name cfg self = Some (lock_token env) ->
  hash (released cfg env self w) = hash w /\
  strings (released cfg env self w) = strings w /\
  channel (released cfg env self w) = channel w /\
  match lock_fate env with
  | lock_kept =>
      locks (released cfg env self w) !! Metrics.lock_name cfg self = None /\
      logs (released cfg env self w) = logs w
  | lock_lost =>
      locks (released cfg env self w) !! Metrics.lock_name cfg self = None /\
      logs (released cfg env self w) = logs w ++ [warning_lock_release LockNotOwnedError]
  | lock_reassigned t =>
      if decide (t = lock_token env) then
        locks (released cfg env self w) !! Metrics.lock_name cfg self = None /\
        logs (released cfg env self w) = logs w
      else
        locks (released cfg env self w) !! Metrics.lock_name cfg self = Some t /\
        logs (released cfg env self w) = logs w ++ [warning_lock_release LockNotOwnedError]
  end.
Proof.
  intros Hheld. unfold released, Redis.release.
  destruct (lock_fate env) as [| | t]; simpl.
  - rewrite decide_True by done. simpl. by rewrite lookup_delete_eq.
  - rewrite decide_False by (rewrite lookup_delete_eq; done). simpl.
    by rewrite lookup_delete_eq.
  - rewrite lookup_insert_eq. destruct (decide (t = lock_token env)) as [-> | Hne].
    + rewrite decide_True by done. simpl. by rewrite lookup_delete_eq.
    + rewrite decide_False by congruence. simpl. by rewrite lookup_insert_eq.
Qed.
End BroadcastCases.

Lemma published_frame cfg env self w :
  locks (published cfg env self w) = locks w /\
  logs (published cfg env self w) = logs w /\
  channel (published cfg env self w) = channel w ++ [broadcast_payload self w] /\
  hash (published cfg env self w)
  = <[BaseM.field (Metrics.previous_send_metrics self) := current_time env]> (hash w) /\
  strings (published cfg env self w)
  = <[Metrics.instance_key cfg self (Metrics.instance_name self) :=
        Metrics.serialize_local_metrics self w]> (strings w).
Proof. done. Qed.

(** C7.  A lock that is held makes [send_metrics] return at once, without
    error and without any effect.  Whatever happens to the lock, an exception
    out of [send_metrics] is one the transport raised.  When the lock was
    taken, the [finally] clause releases it on every path; a release that
    fails is logged as a warning and nothing else. *)
Theorem send_metrics_lock_discipline (cfg : settings) (env : send_env)
    (s : Metrics.state) :
  let name := Metrics.lock_name cfg (Metrics.self s) in
  let r := Metrics.send_metrics cfg env s in
  (is_Some (locks (Metrics.conn s) !! name) -> r = (Ok tt, s)) /\
  (r.1 = Ok tt \/
   exists p e, emit_channel_notification env p = Raise e /\ r.1 = Raise e) /\
  (locks (Metrics.conn s) !! name = None ->
   match lock_fate env with
   | lock_kept =>
       locks (Metrics.conn r.2) !! name = None /\
       logs (Metrics.conn r.2) = logs (Metrics.conn s)
   | lock_lost =>
       locks (Metrics.conn r.2) !! name = None /\
       logs (Metrics.conn r.2)
       = logs (Metrics.conn s) ++ [warning_lock_release LockNotOwnedError]
   | lock_reassigned t =>
       if decide (t = lock_token env) then
         locks (Metrics.conn r.2) !! name = None /\
         logs (Metrics.conn r.2) = logs (Metrics.conn s)
       else
         locks (Metrics.conn r.2) !! name = Some t /\
         logs (Metrics.conn r.2)
         = logs (Metrics.conn s) ++ [warning_lock_release LockNotOwnedError]
   end).
Proof.
  destruct s as [self w]. simpl.
  destruct (locks w !! Metrics.lock_name cfg self) as [t|] eqn:Hlock.
  - rewrite send_metrics_contended by (simpl; rewrite Hlock; eauto).
    split; [done |]. split; [by left | done].
  - split; [by intros [? ?] |].
    rewrite send_metrics_cases by done.
    set (w1 := locked cfg env self w).
    assert (Hheld : locks w1 !! Metrics.lock_name cfg self = Some (lock_token env))
      by (unfold w1, locked; simpl; apply lookup_insert_eq).
    destruct (broadcast_due env self w1).
    + destruct (emit_channel_notification env (broadcast_payload self w1)) as [[]|e] eqn:Hemit.
      * split; [by left |]. intros _. simpl.
        destruct (released_spec cfg env self (published cfg env self w1)) as (_ & _ & _ & Hrel);
          [done |].
        exact Hrel.
      * split; [right; by eauto |]. intros _. simpl.
        destruct (released_spec cfg env self
                    (Redis.set w1 (Metrics.instance_key cfg self (Metrics.instance_name self))
                       (Metrics.serialize_local_metrics self w1))) as (_ & _ & _ & Hrel);
          [done |].
        exact Hrel.
    + split; [by left |]. intros _. simpl.
      destruct (released_spec cfg env self w1) as (_ & _ & _ & Hrel); [done |].
      exact Hrel.
Qed.

Lemma broadcast_due_timestamp env self w :
  BaseM.field (Metrics.previous_send_metrics self) = "send_metrics_time" ->
  broadcast_due env self w
  = (current_time env - default 0 (hash w !! "send_metrics_time")
     >? Metrics.send_metrics_interval self).
Proof.
  intros Hfield. unfold broadcast_due, SetFloatM.decode, BaseM.decode, SetFloatM.decode_value.
  rewrite Hfield. by destruct (hash w !! "send_metrics_time").
Qed.

(** What reaches the channel in one call. *)
Lemma send_metrics_channel cfg env self w :
  channel (Metrics.conn (Metrics.send_metrics cfg env (Metrics.mk_state self w)).2)
  = if bool_decide (locks w !! Metrics.lock_name cfg self = None)
       && broadcast_due env self w
       && is_ok (emit_channel_notification env (broadcast_payload self w))
    then channel w ++ [broadcast_payload self w]
    else channel w.
Proof.
  destruct (locks w !! Metrics.lock_name cfg self) as [t|] eqn:Hlock.
  - rewrite send_metrics_contended by (simpl; rewrite Hlock; eauto).
    by rewrite bool_decide_eq_false_2.
  - rewrite bool_decide_eq_true_2 by done. rewrite send_metrics_cases by done.
    set (w1 := locked cfg env self w).
    assert (Hheld : locks w1 !! Metrics.lock_name cfg self = Some (lock_token env))
      by (unfold w1, locked; simpl; apply lookup_insert_eq).
    change (broadcast_due env self w1) with (broadcast_due env self w).
    change (broadcast_payload self w1) with (broadcast_payload self w).
    destruct (broadcast_due env self w); simpl.
    + destruct (emit_channel_notification env (broadcast_payload self w)) as [[]|e]; simpl.
      * by destruct (released_spec cfg env self (published cfg env self w1)) as (_ & _ & -> & _).
      * by destruct (released_spec cfg env self
                       (Redis.set w1 (Metrics.instance_key cfg self (Metrics.instance_name self))
                          (Metrics.serialize_local_metrics self w1))) as (_ & _ & -> & _).
    + by destruct (released_spec cfg env self w1) as (_ & _ & -> & _).
Qed.

(** A call that does not get past the lock and the interval test stores
    nothing. *)
Lemma send_metrics_skipped cfg env self w :
  bool_decide (locks w !! Metrics.lock_name cfg self = None) && broadcast_due env self w = false ->
  let r := Metrics.send_metrics cfg env (Metrics.mk_state self w) in
  r.1 = Ok tt /\ Metrics.self r.2 = self /\
  hash (Metrics.conn r.2) = hash w /\ strings (Metrics.conn r.2) = strings w.
Proof.
  destruct (locks w !! Metrics.lock_name cfg self) as [t|] eqn:Hlock.
  - intros _. by rewrite send_metrics_contended by (simpl; rewrite Hlock; eauto).
  - rewrite bool_decide_eq_true_2 by done. simpl. intros Hdue.
    rewrite send_metrics_cases by done.
    set (w1 := locked cfg env self w).
    change (broadcast_due env self w1) with (broadcast_due env self w). rewrite Hdue. simpl.
    destruct (released_spec cfg env self w1) as (-> & -> & _); [apply lookup_insert_eq | done].
Qed.

(** A call that broadcasts: the timestamp is in the hash when the [try]
    block ends, the lock still ours, and the [finally] clause runs after. *)
Lemma send_metrics_broadcast cfg env self w :
  locks w !! Metrics.lock_name cfg self = None ->
  broadcast_due env self w = true ->
  emit_channel_notification env (broadcast_payload self w) = Ok tt ->
  let w1 := (Redis.acquire w (Metrics.lock_name cfg self) (lock_token env)).2 in
  let r := Metrics.send_metrics cfg env (Metrics.mk_state self w) in
  exists sb,
    Metrics.send_metrics_body cfg env (Metrics.mk_state self w1) = (Ok tt, sb) /\
    hash (Metrics.conn sb) !! BaseM.field (Metrics.previous_send_metrics self)
    = Some (current_time env) /\
    locks (Metrics.conn sb) !! Metrics.lock_name cfg self = Some (lock_token env) /\
    r = Metrics.send_metrics_release cfg env sb /\
    r.1 = Ok tt /\
    Metrics.self r.2 = timestamped env self /\
    hash (Metrics.conn r.2)
    = <[BaseM.field (Metrics.previous_send_metrics self) := current_time env]> (hash w) /\
    strings (Metrics.conn r.2)
    = <[Metrics.instance_key cfg self (Metrics.instance_name self) :=
          Metrics.serialize_local_metrics self w]> (strings w).
Proof.
  intros Hfree Hdue Hemit. simpl.
  unfold Redis.acquire. rewrite Hfree. simpl.
  set (w1 := locked cfg env self w).
  assert (Hheld : locks w1 !! Metrics.lock_name cfg self = Some (lock_token env))
    by (unfold w1, locked; simpl; apply lookup_insert_eq).
  exists (Metrics.mk_state (timestamped env self) (published cfg env self w1)).
  split; [by apply send_metrics_body_publish |].
  split; [apply lookup_insert_eq |].
  split; [done |].
  rewrite send_metrics_cases by done. fold w1.
  change (broadcast_due env self w1) with (broadcast_due env self w).
  change (broadcast_payload self w1) with (broadcast_payload self w).
  rewrite Hdue, Hemit, send_metrics_release_run. simpl.
  change (Metrics.lock_name cfg (timestamped env self)) with (Metrics.lock_name cfg self).
  split; [done |]. split; [done |]. split; [done |].
  by destruct (released_spec cfg env self (published cfg env self w1)) as (-> & -> & _).
Qed.

(** C6.  [send_metrics] publishes exactly when it gets the lock, the time
    since the timestamp read from the hash exceeds the broadcast interval and
    the transport accepts the payload; otherwise nothing reaches the channel,
    and a call stopped by the lock or by the interval stores nothing.  A call
    that publishes has stored the snapshot and written its own time into the
    hash before the [finally] clause releases the lock.  Hence, as long as
    that timestamp stands in the hash, no call made within one interval of a
    publishing call publishes again, from whichever process it comes. *)
Theorem send_metrics_interval_gate (cfg : settings) (env : send_env)
    (self : Metrics.t) (w : world) :
  BaseM.field (Metrics.previous_send_metrics self) = "send_metrics_time" ->
  let name := Metrics.lock_name cfg self in
  let r := Metrics.send_metrics cfg env (Metrics.mk_state self w) in
  let elapsed := current_time env - default 0 (hash w !! "send_metrics_time") in
  let go :=
    bool_decide (locks w !! name = None) && (elapsed >? Metrics.send_metrics_interval self) in
  let p := broadcast_payload self w in
  (channel (Metrics.conn r.2)
   = if go && is_ok (emit_channel_notification env p) then channel w ++ [p] else channel w) /\
  (go = false ->
   r.1 = Ok tt /\ hash (Metrics.conn r.2) = hash w /\ strings (Metrics.conn r.2) = strings w) /\
  (go = true -> emit_channel_notification env p = Ok tt ->
   r.1 = Ok tt /\
   (exists sb,
      Metrics.send_metrics_body cfg env
        (Metrics.mk_state self (Redis.acquire w name (lock_token env)).2) = (Ok tt, sb) /\
      hash (Metrics.conn sb) !! "send_metrics_time" = Some (current_time env) /\
      locks (Metrics.conn sb) !! name = Some (lock_token env) /\
      r = Metrics.send_metrics_release cfg env sb) /\
   hash (Metrics.conn r.2) !! "send_metrics_time" = Some (current_time env) /\
   strings (Metrics.conn r.2) !! Metrics.instance_key cfg self (Metrics.instance_name self)
   = Some (Metrics.serialize_local_metrics self w)) /\
  (go && is_ok (emit_channel_notification env p) = true ->
   forall (env2 : send_env) (self2 : Metrics.t) (w2 : world),
     BaseM.field (Metrics.previous_send_metrics self2) = "send_metrics_time" ->
     hash w2 !! "send_metrics_time" = hash (Metrics.conn r.2) !! "send_metrics_time" ->
     current_time env2 - current_time env <= Metrics.send_metrics_interval self2 ->
     channel (Metrics.conn (Metrics.send_metrics cfg env2 (Metrics.mk_state self2 w2)).2)
     = channel w2).
Proof.
  intros Hfield. simpl.
  rewrite <- (broadcast_due_timestamp env self w Hfield).
  split; [apply send_metrics_channel |].
  split; [intros Hgo; by destruct (send_metrics_skipped cfg env self w Hgo) as (? & _ & ? & ?) |].
  assert (Hpub :
    bool_decide (locks w !! Metrics.lock_name cfg self = None) && broadcast_due env self w = true ->
    emit_channel_notification env (broadcast_payload self w) = Ok tt ->
    exists sb,
      Metrics.send_metrics_body cfg env
        (Metrics.mk_state self
           (Redis.acquire w (Metrics.lock_name cfg self) (lock_token env)).2) = (Ok tt, sb) /\
      hash (Metrics.conn sb) !! "send_metrics_time" = Some (current_time env) /\
      locks (Metrics.conn sb) !! Metrics.lock_name cfg self = Some (lock_token env) /\
      Metrics.send_metrics cfg env (Metrics.mk_state self w)
      = Metrics.send_metrics_release cfg env sb /\
      (Metrics.send_metrics cfg env (Metrics.mk_state self w)).1 = Ok tt /\
      hash (Metrics.conn (Metrics.send_metrics cfg env (Metrics.mk_state self w)).2)
      = <["send_metrics_time" := current_time env]> (hash w) /\
      strings (Metrics.conn (Metrics.send_metrics cfg env (Metrics.mk_state self w)).2)
      = <[Metrics.instance_key cfg self (Metrics.instance_name self) :=
            Metrics.serialize_local_metrics self w]> (strings w)).
  { intros Hgo Hemit. apply andb_true_iff in Hgo as [Hfree Hdue].
    apply bool_decide_eq_true_1 in Hfree.
    destruct (send_metrics_broadcast cfg env self w Hfree Hdue Hemit)
      as (sb & Hbody & Hts & Hheld & Hrun & Hok & _ & Hhash & Hstr).
    rewrite Hfield in Hts, Hhash. exists sb. by repeat split. }
  split.
  - intros Hgo Hemit.
    destruct (Hpub Hgo Hemit) as (sb & Hbody & Hts & Hheld & Hrun & Hok & Hhash & Hstr).
    split; [done |]. split; [by exists sb |].
    rewrite Hhash, Hstr. by rewrite !lookup_insert_eq.
  - intros Hgo env2 self2 w2 Hfield2 Hsame Hclose.
    apply andb_true_iff in Hgo as [Hgo Hemit].
    destruct (emit_channel_notification env (broadcast_payload self w)) as [[]|] eqn:He;
      [| done].
    destruct (Hpub Hgo eq_refl) as (sb & _ & _ & _ & _ & _ & Hhash & _).
    rewrite Hhash, lookup_insert_eq in Hsame.
    rewrite send_metrics_channel.
    rewrite (broadcast_due_timestamp env2 self2 _ Hfield2), Hsame. simpl.
    replace (current_time env2 - current_time env >? Metrics.send_metrics_interval self2)
      with false by (symmetry; rewrite Z.gtb_ltb; apply Z.ltb_ge; lia).
    by rewrite andb_false_r.
Qed.

(** ** The flush *)

Lemma send_metrics_self cfg env self w :
  exists p,
    Metrics.self (Metrics.send_metrics cfg env (Metrics.mk_state self w)).2
    = Metrics.with_previous_send_metrics self p.
Proof.
  destruct (locks w !! Metrics.lock_name cfg self) as [t|] eqn:Hlock.
  - rewrite send_metrics_contended by (simpl; rewrite Hlock; eauto).
    exists (Metrics.previous_send_metrics self). by destruct self.
  - rewrite send_metrics_cases by done.
    destruct (broadcast_due _ _ _); [destruct (emit_channel_notification _ _) as [[]|e] |]; simpl.
    + by eexists.
    + exists (Metrics.previous_send_metrics self). by destruct self.
    + exists (Metrics.previous_send_metrics self). by destruct self.
Qed.

Lemma send_metrics_result cfg env s :
  (Metrics.send_metrics cfg env s).1 = Ok tt \/
  exists p e,
    emit_channel_notification env p = Raise e /\
    (Metrics.send_metrics cfg env s).1 = Raise e.
Proof.
  destruct s as [self w].
  destruct (locks w !! Metrics.lock_name cfg self) as [t|] eqn:Hlock.
  - rewrite send_metrics_contended by (simpl; rewrite Hlock; eauto). by left.
  - rewrite send_metrics_cases by done.
    destruct (broadcast_due _ _ _);
      [destruct (emit_channel_notification _ _) as [[]|e] eqn:Hemit |]; simpl.
    + by left.
    + right. by eauto.
    + by left.
Qed.

Lemma inc_direct_run field value self w m :
  odict.get (Metrics.METRICS self) field = Some m ->
  Metrics.inc_direct field value (Metrics.mk_state self w)
  = (Ok tt,
     Metrics.mk_state
       (Metrics.with_METRICS self
          (odict.set (Metrics.METRICS self) field (Metric.inc m value))) w).
Proof.
  intros Hm. unfold Metrics.inc_direct. run. unfold odict.subscript. rewrite Hm. by run.
Qed.

Lemma execute_run self w :
  Metrics.execute (Metrics.mk_state self w)
  = (Ok tt, Metrics.mk_state (Metrics.with_pipe self []) (Redis.run w (Metrics.pipe self))).
Proof. unfold Metrics.execute. by run. Qed.

Lemma pipe_execute_clean cfg env s :
  Metrics.metrics_have_changed (Metrics.self s) = false ->
  Metrics.pipe_execute cfg env s = (Ok tt, s).
Proof.
  intros Hclean. unfold Metrics.pipe_execute. run. by rewrite Hclean.
Qed.

Lemma namespace_wf_inv self :
  namespace_wf self = true ->
  NoDup (odict.keys (Metrics.METRICS self)) /\
  forallb field_matches (Metrics.METRICS self) = true /\
  forallb metric_wf (odict.values (Metrics.METRICS self)) = true /\
  self_metric_ok (Metrics.METRICS self) "subsystem_metrics_pipe_execute_seconds" = true /\
  self_metric_ok (Metrics.METRICS self) "subsystem_metrics_pipe_execute_calls" = true /\
  self_metric_ok (Metrics.METRICS self) "subsystem_metrics_send_metrics_seconds" = true /\
  BaseM.field (Metrics.previous_send_metrics self) = "send_metrics_time".
Proof.
  unfold namespace_wf. rewrite !andb_true_iff, !bool_decide_eq_true. tauto.
Qed.

Lemma self_metric_ok_inv d field :
  self_metric_ok d field = true ->
  exists m,
    odict.get d field = Some m /\ Metric.is_additive m = true /\
    clean_zero (Metric.base m).
Proof.
  unfold self_metric_ok. destruct (odict.get d field) as [m|]; [| done].
  rewrite andb_true_iff. intros [Hadd Hclean]. exists m. split; [done |]. split; [done |].
  unfold clean_zerob in Hclean. unfold clean_zero. intros Hflag.
  rewrite Hflag in Hclean. simpl in Hclean. lia.
Qed.

(** An additive metric is empty and clean once stored. *)
Lemma stored_additive m :
  Metric.is_additive m = true -> clean_zero (Metric.base m) ->
  Metric.is_additive (stored m) = true /\
  Metric.field (stored m) = Metric.field m /\
  Metric.get (stored m) = 0 /\
  BaseM.metric_has_changed (Metric.base (stored m)) = false.
Proof.
  unfold stored, clean_zero.
  destruct m as [b | b | b | b | h]; simpl; try discriminate; intros _ Hclean;
    unfold FloatM.store_value, IntM.store_value;
    destruct (BaseM.metric_has_changed b) eqn:Hflag; simpl; auto.
Qed.

(** A gauge keeps its value when stored. *)
Lemma stored_gauge m :
  Metric.is_gauge m = true ->
  Metric.is_gauge (stored m) = true /\
  Metric.get (stored m) = Metric.get m /\
  BaseM.metric_has_changed (Metric.base (stored m)) = false.
Proof.
  unfold stored.
  destruct m as [b | b | b | b | h]; simpl; try discriminate; intros _;
    unfold SetFloatM.store_value, SetIntM.store_value;
    destruct (BaseM.metric_has_changed b) eqn:Hflag; simpl; auto.
Qed.

Lemma pipe_execute_dirty cfg env self w :
  namespace_wf self = true ->
  Metrics.metrics_have_changed self = true ->
  let r := Metrics.pipe_execute cfg env (Metrics.mk_state self w) in
  (r.1 = Ok tt \/
   exists p e, emit_channel_notification (send env) p = Raise e /\ r.1 = Raise e) /\
  Metrics.metrics_have_changed (Metrics.self r.2) = false /\
  Metrics.last_pipe_execute (Metrics.self r.2) = time_after_execute env /\
  Metrics.pipe_execute_interval (Metrics.self r.2) = Metrics.pipe_execute_interval self /\
  Metrics.auto_pipe_execute (Metrics.self r.2) = Metrics.auto_pipe_execute self /\
  forall k,
    odict.get (Metrics.METRICS (Metrics.self r.2)) k
    = self_observed env (is_ok r.1) k <$> (stored <$> odict.get (Metrics.METRICS self) k).
Proof.
  intros Hwf Hdirty.
  destruct (namespace_wf_inv self Hwf) as (Hnd & _ & Hall & H1 & H2 & H3 & _).
  destruct (self_metric_ok_inv _ _ H1) as (m1 & Hm1 & _).
  destruct (self_metric_ok_inv _ _ H2) as (m2 & Hm2 & _).
  destruct (self_metric_ok_inv _ _ H3) as (m3 & Hm3 & _).
  destruct (store_values_spec (odict.keys (Metrics.METRICS self)) (Metrics.mk_state self w))
    as (d' & cs & Hrun & Hkeys & Hwfd & Hget); [done | done | done |].
  assert (Hget' : forall k, odict.get d' k = stored <$> odict.get (Metrics.METRICS self) k).
  { intros k. rewrite Hget. simpl. destruct (decide (k ∈ odict.keys (Metrics.METRICS self))) as [|Hn].
    - done.
    - destruct (odict.get (Metrics.METRICS self) k) eqn:Hk; [| done].
      apply odict_get_Some_keys in Hk. contradiction. }
  simpl in Hrun.
  unfold Metrics.pipe_execute. rewrite bind_run. unfold Metrics.get_state. simpl.
  rewrite Hdirty. rewrite bind_run, Hrun. rewrite bind_run, execute_run.
  do 2 (rewrite bind_run; unfold Metrics.on_self at 1; simpl).
  rewrite bind_run. erewrite inc_direct_run by (simpl; rewrite Hget', Hm1; reflexivity).
  rewrite bind_run. erewrite inc_direct_run
    by (simpl; rewrite odict_get_set_ne by done; rewrite Hget', Hm2; reflexivity).
  rewrite bind_run.
  match goal with
  | |- context [Metrics.send_metrics cfg (send env) (Metrics.mk_state ?a ?b)] =>
      destruct (send_metrics_self cfg (send env) a b) as (p & Hself);
      pose proof (send_metrics_result cfg (send env) (Metrics.mk_state a b)) as Hres;
      destruct (Metrics.send_metrics cfg (send env) (Metrics.mk_state a b)) as [res [self' w']]
  end.
  simpl in Hself, Hres. subst self'.
  destruct res as [[]|e].
  - erewrite inc_direct_run
      by (simpl; rewrite !odict_get_set_ne by done; rewrite Hget', Hm3; reflexivity).
    simpl. split; [by left |]. repeat (split; [done |]).
    intros k. unfold self_observed. rewrite !odict_get_set.
    repeat case_decide; subst; simpl; try done.
    + by rewrite Hm3.
    + by rewrite Hm2.
    + by rewrite Hm1.
    + rewrite Hget'. by destruct (odict.get (Metrics.METRICS self) k).
  - simpl. split.
    { right. destruct Hres as [? | (p0 & e0 & Hp & He)]; [done |]. exists p0, e0. by rewrite He. }
    repeat (split; [done |]).
    intros k. unfold self_observed. rewrite !odict_get_set.
    repeat case_decide; subst; simpl; try done.
    + by rewrite Hm2.
    + by rewrite Hm1.
    + by rewrite Hget', Hm3.
    + rewrite Hget'. by destruct (odict.get (Metrics.METRICS self) k).
Qed.

(** ** Mutations through the namespace, without auto-commit *)

Lemma set_run cfg env field value self w m :
  Metrics.auto_pipe_execute self = false ->
  odict.get (Metrics.METRICS self) field = Some m ->
  Metrics.set cfg env field value (Metrics.mk_state self w)
  = (Ok tt,
     Metrics.mk_state
       (Metrics.with_changed
          (Metrics.with_METRICS self
             (odict.set (Metrics.METRICS self) field (Metric.set m value))) true) w).
Proof.
  intros Hauto Hm. unfold Metrics.set, Metrics.auto_flush. run.
  unfold odict.subscript. rewrite Hm. run. by rewrite Hauto.
Qed.

Lemma inc_run cfg env field value self w m :
  Metrics.auto_pipe_execute self = false ->
  odict.get (Metrics.METRICS self) field = Some m ->
  value <> 0 ->
  Metrics.inc cfg env field value (Metrics.mk_state self w)
  = (Ok tt,
     Metrics.mk_state
       (Metrics.with_changed
          (Metrics.with_METRICS self
             (odict.set (Metrics.METRICS self) field (Metric.inc m value))) true) w).
Proof.
  intros Hauto Hm Hv. unfold Metrics.inc, Metrics.auto_flush.
  rewrite decide_True by done. run.
  unfold odict.subscript. rewrite Hm. run. by rewrite Hauto.
Qed.

Lemma inc_zero_run cfg env field s : Metrics.inc cfg env field 0 s = (Ok tt, s).
Proof. unfold Metrics.inc. by rewrite decide_False by (intros H; by apply H). Qed.

Lemma observe_run cfg env field value self w m m' :
  Metrics.auto_pipe_execute self = false ->
  odict.get (Metrics.METRICS self) field = Some m ->
  Metric.observe m value = Ok m' ->
  Metrics.observe cfg env field value (Metrics.mk_state self w)
  = (Ok tt,
     Metrics.mk_state
       (Metrics.with_changed
          (Metrics.with_METRICS self (odict.set (Metrics.METRICS self) field m')) true) w).
Proof.
  intros Hauto Hm Hobs. unfold Metrics.observe, Metrics.auto_flush. run.
  unfold odict.subscript. rewrite Hm. run. rewrite Hobs. run. by rewrite Hauto.
Qed.

Lemma should_pipe_execute_true self now :
  Metrics.should_pipe_execute self now = true <->
  Metrics.metrics_have_changed self = true /\
  now - Metrics.last_pipe_execute self > Metrics.pipe_execute_interval self.
Proof.
  unfold Metrics.should_pipe_execute.
  destruct (Metrics.metrics_have_changed self); simpl.
  - destruct (Z.gtb_spec (now - Metrics.last_pipe_execute self)
                (Metrics.pipe_execute_interval self)); split; try done.
    + intros _. split; [done | lia].
    + intros [_ ?]. lia.
  - split; [done | by intros [? _]].
Qed.

Lemma histogram_observe_ok (h : HistogramM.t) (value : Z) :
  histogram_wf h = true -> exists h', HistogramM.observe h value = Ok h'.
Proof.
  intros Hwf.
  destruct (observe_loop_spec value (HistogramM.buckets h) (HistogramM.buckets_to_keys h))
    as (d' & Hloop & _).
  { intros b Hin. unfold histogram_wf in Hwf.
    apply list_elem_of_In in Hin. eapply forallb_forall in Hwf; [| exact Hin].
    unfold odict.mem in Hwf. destruct (odict.get _ b); [by eauto | done]. }
  unfold HistogramM.observe. rewrite Hloop. by eauto.
Qed.

Lemma stored_histogram (h : HistogramM.t) :
  exists h', stored (MHistogram h) = MHistogram h'.
Proof.
  unfold stored. simpl. destruct (HistogramM.store_value h) as [[h' c]|e]; by eauto.
Qed.

Lemma not_additive_not_self_metric d field k m :
  self_metric_ok d field = true ->
  odict.get d k = Some m -> Metric.is_additive m = false -> k <> field.
Proof.
  unfold self_metric_ok. intros Hok Hm Hna ->. rewrite Hm in Hok.
  apply andb_true_iff in Hok as [Ha _]. congruence.
Qed.

(** C5.  [should_pipe_execute] is true exactly when the namespace is dirty
    and the time since the last flush exceeds the flush interval.  After a
    flush it is false at any time, as long as nothing is written.  After a
    [set], an [inc] of a non-zero value or an [observe], it is true as soon
    as the interval has elapsed since the last flush (without auto-commit). *)
Theorem should_pipe_execute_dirty_and_elapsed (cfg : settings) (env : flush_env)
    (s : Metrics.state) (now : Z) :
  namespace_wf (Metrics.self s) = true ->
  (Metrics.should_pipe_execute (Metrics.self s) now = true <->
   Metrics.metrics_have_changed (Metrics.self s) = true /\
   now - Metrics.last_pipe_execute (Metrics.self s)
   > Metrics.pipe_execute_interval (Metrics.self s)) /\
  (let flushed := (Metrics.pipe_execute cfg env s).2 in
   Metrics.should_pipe_execute (Metrics.self flushed) now = false /\
   (Metrics.metrics_have_changed (Metrics.self s) = true ->
    Metrics.last_pipe_execute (Metrics.self flushed) = time_after_execute env) /\
   (Metrics.auto_pipe_execute (Metrics.self s) = false ->
    forall field value env',
      is_Some (odict.get (Metrics.METRICS (Metrics.self s)) field) ->
      let after_set := Metrics.set cfg env' field value flushed in
      let after_inc := Metrics.inc cfg env' field value flushed in
      after_set.1 = Ok tt /\
      (Metrics.should_pipe_execute (Metrics.self after_set.2) now = true <->
       now - Metrics.last_pipe_execute (Metrics.self flushed)
       > Metrics.pipe_execute_interval (Metrics.self s)) /\
      after_inc.1 = Ok tt /\
      (value <> 0 ->
       (Metrics.should_pipe_execute (Metrics.self after_inc.2) now = true <->
        now - Metrics.last_pipe_execute (Metrics.self flushed)
        > Metrics.pipe_execute_interval (Metrics.self s))) /\
      (forall h,
         odict.get (Metrics.METRICS (Metrics.self s)) field = Some (MHistogram h) ->
         let after_observe := Metrics.observe cfg env' field value flushed in
         after_observe.1 = Ok tt /\
         (Metrics.should_pipe_execute (Metrics.self after_observe.2) now = true <->
          now - Metrics.last_pipe_execute (Metrics.self flushed)
          > Metrics.pipe_execute_interval (Metrics.self s))))).
Proof.
  intros Hwf. split; [apply should_pipe_execute_true |].
  destruct s as [self w]. simpl in *.
  destruct (namespace_wf_inv self Hwf) as (_ & _ & Hall & H1 & H2 & H3 & _).
  assert (Hmutations : forall self' w',
    Metrics.auto_pipe_execute self' = false ->
    Metrics.pipe_execute_interval self' = Metrics.pipe_execute_interval self ->
    (forall k m, odict.get (Metrics.METRICS self) k = Some m ->
       exists m', odict.get (Metrics.METRICS self') k = Some m' /\
                  (forall h, m = MHistogram h ->
                     exists h', m' = MHistogram h' /\ histogram_wf h' = true)) ->
    forall field value env',
      is_Some (odict.get (Metrics.METRICS self) field) ->
      (Metrics.set cfg env' field value (Metrics.mk_state self' w')).1 = Ok tt /\
      (Metrics.should_pipe_execute
         (Metrics.self (Metrics.set cfg env' field value (Metrics.mk_state self' w')).2) now
       = true <->
       now - Metrics.last_pipe_execute self' > Metrics.pipe_execute_interval self) /\
      (Metrics.inc cfg env' field value (Metrics.mk_state self' w')).1 = Ok tt /\
      (value <> 0 ->
       (Metrics.should_pipe_execute
          (Metrics.self (Metrics.inc cfg env' field value (Metrics.mk_state self' w')).2) now
        = true <->
        now - Metrics.last_pipe_execute self' > Metrics.pipe_execute_interval self)) /\
      (forall h,
         odict.get (Metrics.METRICS self) field = Some (MHistogram h) ->
         (Metrics.observe cfg env' field value (Metrics.mk_state self' w')).1 = Ok tt /\
         (Metrics.should_pipe_execute
            (Metrics.self (Metrics.observe cfg env' field value (Metrics.mk_state self' w')).2)
            now = true <->
          now - Metrics.last_pipe_execute self' > Metrics.pipe_execute_interval self))).
  { intros self' w' Hnoauto Hint Hsame field value env' [m Hm].
    destruct (Hsame field m Hm) as (m' & Hm' & Hhist).
    rewrite (set_run cfg env' field value self' w' m') by done. simpl.
    split; [done |]. split.
    { rewrite should_pipe_execute_true. simpl. rewrite Hint. tauto. }
    split; [| split].
    - destruct (decide (value = 0)) as [-> | Hv]; [by rewrite inc_zero_run |].
      by rewrite (inc_run cfg env' field value self' w' m').
    - intros Hv. rewrite (inc_run cfg env' field value self' w' m') by done. simpl.
      rewrite should_pipe_execute_true. simpl. rewrite Hint. tauto.
    - intros h Hh. rewrite Hm in Hh. injection Hh as ->.
      destruct (Hhist h eq_refl) as (h' & -> & Hwfh).
      destruct (histogram_observe_ok h' value Hwfh) as (h'' & Hobs).
      rewrite (observe_run cfg env' field value self' w' (MHistogram h') (MHistogram h''))
        by (try done; simpl; by rewrite Hobs).
      simpl. split; [done |].
      rewrite should_pipe_execute_true. simpl. rewrite Hint. tauto. }
  destruct (Metrics.metrics_have_changed self) eqn:Hdirty.
  - destruct (pipe_execute_dirty cfg env self w Hwf Hdirty)
      as (_ & Hflag & Hlast & Hint & Hauto & Hget).
    destruct (Metrics.pipe_execute cfg env (Metrics.mk_state self w)) as [res [self' w']].
    simpl in *. split.
    { unfold Metrics.should_pipe_execute. by rewrite Hflag. }
    split; [done |].
    intros Hnoauto. apply Hmutations; [congruence | done |].
    intros k m Hm. rewrite Hget, Hm. simpl. eexists. split; [done |].
    intros h ->.
    pose proof (not_additive_not_self_metric _ _ _ _ H1 Hm eq_refl) as Hn1.
    pose proof (not_additive_not_self_metric _ _ _ _ H2 Hm eq_refl) as Hn2.
    pose proof (not_additive_not_self_metric _ _ _ _ H3 Hm eq_refl) as Hn3.
    unfold self_observed. rewrite !decide_False by done.
    destruct (stored_histogram h) as (h' & Hst). exists h'. split; [done |].
    pose proof (stored_wf (MHistogram h) (odict_values_get_wf _ _ _ Hall Hm)) as Hw.
    by rewrite Hst in Hw.
  - rewrite pipe_execute_clean by done. simpl. split.
    { unfold Metrics.should_pipe_execute. by rewrite Hdirty. }
    split; [done |].
    intros Hnoauto. apply Hmutations; [done | done |].
    intros k m Hm. exists m. split; [done |]. intros h ->. exists h. split; [done |].
    exact (odict_values_get_wf _ _ _ Hall Hm).
Qed.

(** ** The invariant of a namespace *)

Lemma field_matches_set (d : list (string * metric)) k m :
  forallb field_matches d = true ->
  Metric.field m = k ->
  forallb field_matches (odict.set d k m) = true.
Proof.
  intros Hd Hm. induction d as [|[k' m'] d IH]; simpl in *.
  - unfold field_matches. simpl. by rewrite bool_decide_eq_true_2.
  - apply andb_true_iff in Hd as [Hk Hd].
    destruct (decide (k' = k)) as [-> | Hne]; simpl; apply andb_true_iff; split; try done.
    + unfold field_matches. simpl. by rewrite bool_decide_eq_true_2.
    + by apply IH.
Qed.

Lemma field_matches_get (d : list (string * metric)) k m :
  forallb field_matches d = true ->
  odict.get d k = Some m -> Metric.field m = k.
Proof.
  intros Hd. induction d as [|[k' m'] d IH]; simpl in *; [done |].
  apply andb_true_iff in Hd as [Hk Hd].
  destruct (decide (k' = k)) as [-> | Hne]; [| by apply IH].
  intros [= <-]. unfold field_matches in Hk. by apply bool_decide_eq_true in Hk.
Qed.

Lemma self_metric_ok_set d field k m m' :
  self_metric_ok d field = true ->
  odict.get d k = Some m ->
  (Metric.is_additive m = true ->
   Metric.is_additive m' = true /\ clean_zerob (Metric.base m') = true) ->
  self_metric_ok (odict.set d k m') field = true.
Proof.
  unfold self_metric_ok. intros Hok Hm Hadd. rewrite odict_get_set.
  destruct (decide (k = field)) as [-> | Hne]; [| done].
  rewrite Hm in Hok. apply andb_true_iff in Hok as [Ha _].
  destruct (Hadd Ha) as [-> ->]. done.
Qed.

Lemma namespace_wf_update self field m m' b :
  namespace_wf self = true ->
  odict.get (Metrics.METRICS self) field = Some m ->
  Metric.field m' = Metric.field m ->
  metric_wf m' = true ->
  (Metric.is_additive m = true ->
   Metric.is_additive m' = true /\ clean_zerob (Metric.base m') = true) ->
  namespace_wf
    (Metrics.with_changed
       (Metrics.with_METRICS self (odict.set (Metrics.METRICS self) field m')) b) = true.
Proof.
  intros Hwf Hm Hfield Hmwf Hadd.
  destruct (namespace_wf_inv self Hwf) as (Hnd & Hfm & Hall & H1 & H2 & H3 & Hts).
  unfold namespace_wf. simpl.
  rewrite odict_keys_set_present by eauto.
  rewrite bool_decide_eq_true_2 by done.
  rewrite field_matches_set;
    [| done | rewrite Hfield; by eapply field_matches_get].
  rewrite odict_values_set_wf by done.
  rewrite !(self_metric_ok_set _ _ field m m') by done.
  by rewrite bool_decide_eq_true_2.
Qed.

Lemma gauge_not_self_metric d field k g :
  self_metric_ok d field = true ->
  odict.get d k = Some g -> Metric.is_gauge g = true -> k <> field.
Proof.
  unfold self_metric_ok. intros Hok Hg Hgauge ->. rewrite Hg in Hok.
  apply andb_true_iff in Hok as [Ha _]. by destruct g.
Qed.

(** C9.  [store_value] leaves the value of a gauge in its accumulator, and
    empties the accumulator of an additive metric; both come out clean.  So,
    through a namespace, [get] still returns the value last [set] on a gauge
    after the flush that stored it. *)
Theorem store_value_keeps_gauge_resets_additive (m : metric) :
  (Metric.is_gauge m = true ->
   exists m' c,
     Metric.store_value m = Ok (m', c) /\
     Metric.get m' = Metric.get m /\
     BaseM.metric_has_changed (Metric.base m') = false) /\
  (Metric.is_additive m = true -> clean_zero (Metric.base m) ->
   exists m' c,
     Metric.store_value m = Ok (m', c) /\
     Metric.get m' = 0 /\
     BaseM.metric_has_changed (Metric.base m') = false) /\
  (forall (cfg : settings) (env env' : flush_env) (self : Metrics.t) (w : world)
          (field : string) (value : Z),
     namespace_wf self = true ->
     Metrics.auto_pipe_execute self = false ->
     odict.get (Metrics.METRICS self) field = Some m ->
     Metric.is_gauge m = true ->
     let after_set := Metrics.set cfg env' field value (Metrics.mk_state self w) in
     let flushed := (Metrics.pipe_execute cfg env after_set.2).2 in
     after_set.1 = Ok tt /\
     Metrics.metrics_have_changed (Metrics.self flushed) = false /\
     Metrics.get (Metrics.self flushed) field = Ok value).
Proof.
  split; [| split].
  - intros Hg. destruct (stored_gauge m Hg) as (_ & Hget & Hflag).
    unfold stored in *.
    destruct (metric_store_value_ok m) as (m' & c & Hst & _); [by destruct m |].
    rewrite Hst in *. by eauto.
  - intros Ha Hclean. destruct (stored_additive m Ha Hclean) as (_ & _ & Hget & Hflag).
    unfold stored in *.
    destruct (metric_store_value_ok m) as (m' & c & Hst & _); [by destruct m |].
    rewrite Hst in *. by eauto.
  - intros cfg env env' self w field value Hwf Hauto Hm Hg. simpl.
    rewrite (set_run cfg env' field value self w m) by done. simpl.
    split; [done |].
    destruct (namespace_wf_inv self Hwf) as (_ & _ & _ & H1 & H2 & H3 & _).
    pose proof (gauge_not_self_metric _ _ _ _ H1 Hm Hg) as Hn1.
    pose proof (gauge_not_self_metric _ _ _ _ H2 Hm Hg) as Hn2.
    pose proof (gauge_not_self_metric _ _ _ _ H3 Hm Hg) as Hn3.
    match goal with
    | |- context [Metrics.pipe_execute cfg env (Metrics.mk_state ?a ?b)] =>
        destruct (pipe_execute_dirty cfg env a b) as (_ & Hflag & _ & _ & _ & Hget)
    end.
    { apply (namespace_wf_update self field m); try done.
      - by destruct m.
      - by destruct m.
      - by destruct m. }
    { done. }
    simpl in Hflag, Hget. split; [done |].
    unfold Metrics.get, odict.subscript. rewrite Hget. simpl.
    rewrite odict_get_set_eq. simpl.
    unfold self_observed. rewrite !decide_False by done. simpl.
    destruct (stored_gauge (Metric.set m value)) as (_ & -> & _); by destruct m.
Qed.

(** An additive metric that was stored and then incremented by [value]
    holds exactly [value], is dirty, and sends [value] on its next
    [store_value]. *)
Lemma stored_then_inc d field m value :
  forallb field_matches d = true ->
  odict.get d field = Some m ->
  Metric.is_additive m = true ->
  clean_zero (Metric.base m) ->
  Metric.get (Metric.inc (stored m) value) = value /\
  BaseM.metric_has_changed (Metric.base (Metric.inc (stored m) value)) = true /\
  forall conn, exists m',
    store_value_on conn (Metric.inc (stored m) value) = Ok (m', hincr conn field value) /\
    Metric.get m' = 0.
Proof.
  intros Hfm Hm Hadd Hclean.
  destruct (stored_additive m Hadd Hclean) as (Hadd' & Hfield & Hget & Hflag).
  pose proof (field_matches_get d field m Hfm Hm) as Hname.
  assert (Hval : Metric.get (Metric.inc (stored m) value) = value).
  { unfold Metric.get, BaseM.get in *. destruct (stored m); simpl in *; lia. }
  split; [done |]. split; [by destruct (stored m) |].
  intros conn.
  assert (Hf : Metric.field (Metric.inc (stored m) value) = field).
  { rewrite <- Hname, <- Hfield. by destruct (stored m). }
  rewrite additive_store_value_on, Hval, Hf.
  - eexists. split; [reflexivity |]. by destruct (stored m).
  - by destruct (stored m).
  - by destruct (stored m).
Qed.

(** C10.  A flush that completes leaves the namespace clean while the three
    metrics about the flush hold the values it has just recorded, each dirty
    and still to be sent, since they are incremented on the metric objects
    after the flag is cleared.  A further flush is a no-op as long as nothing
    else marks the namespace dirty; the next store loop that runs sends them. *)
Theorem flush_leaves_self_metrics_pending (cfg : settings) (env : flush_env)
    (self : Metrics.t) (w : world) :
  namespace_wf self = true ->
  Metrics.metrics_have_changed self = true ->
  (forall p, emit_channel_notification (send env) p = Ok tt) ->
  perf_counter_1 env < perf_counter_2 env ->
  perf_counter_3 env < perf_counter_4 env ->
  let r := Metrics.pipe_execute cfg env (Metrics.mk_state self w) in
  r.1 = Ok tt /\
  Metrics.metrics_have_changed (Metrics.self r.2) = false /\
  (exists seconds calls send_seconds,
     odict.get (Metrics.METRICS (Metrics.self r.2)) "subsystem_metrics_pipe_execute_seconds"
     = Some seconds /\
     odict.get (Metrics.METRICS (Metrics.self r.2)) "subsystem_metrics_pipe_execute_calls"
     = Some calls /\
     odict.get (Metrics.METRICS (Metrics.self r.2)) "subsystem_metrics_send_metrics_seconds"
     = Some send_seconds /\
     Metric.get seconds = perf_counter_2 env - perf_counter_1 env /\
     Metric.get calls = 1 /\
     Metric.get send_seconds = perf_counter_4 env - perf_counter_3 env /\
     Metric.get seconds <> 0 /\ Metric.get calls <> 0 /\ Metric.get send_seconds <> 0 /\
     BaseM.metric_has_changed (Metric.base seconds) = true /\
     BaseM.metric_has_changed (Metric.base calls) = true /\
     BaseM.metric_has_changed (Metric.base send_seconds) = true /\
     forall conn,
       (exists m', store_value_on conn seconds
                   = Ok (m', hincr conn "subsystem_metrics_pipe_execute_seconds"
                               (perf_counter_2 env - perf_counter_1 env))) /\
       (exists m', store_value_on conn calls
                   = Ok (m', hincr conn "subsystem_metrics_pipe_execute_calls" 1)) /\
       (exists m', store_value_on conn send_seconds
                   = Ok (m', hincr conn "subsystem_metrics_send_metrics_seconds"
                               (perf_counter_4 env - perf_counter_3 env)))) /\
  (forall env' now,
     Metrics.should_pipe_execute (Metrics.self r.2) now = false /\
     Metrics.pipe_execute cfg env' r.2 = (Ok tt, r.2)).
Proof.
  intros Hwf Hdirty Hemit Hd1 Hd2.
  destruct (namespace_wf_inv self Hwf) as (_ & Hfm & _ & H1 & H2 & H3 & _).
  destruct (self_metric_ok_inv _ _ H1) as (a1 & Ha1 & Hadd1 & Hc1).
  destruct (self_metric_ok_inv _ _ H2) as (a2 & Ha2 & Hadd2 & Hc2).
  destruct (self_metric_ok_inv _ _ H3) as (a3 & Ha3 & Hadd3 & Hc3).
  destruct (pipe_execute_dirty cfg env self w Hwf Hdirty)
    as (Hres & Hflag & _ & _ & _ & Hget).
  simpl.
  destruct (Metrics.pipe_execute cfg env (Metrics.mk_state self w)) as [res s'].
  simpl in *.
  assert (Hok : res = Ok tt).
  { destruct Hres as [? | (p & e & Hp & _)]; [done |]. rewrite Hemit in Hp. done. }
  subst res. split; [done |]. split; [done |]. split.
  - destruct (stored_then_inc _ _ _ (perf_counter_2 env - perf_counter_1 env) Hfm Ha1 Hadd1 Hc1)
      as (Hv1 & Hf1 & Hs1).
    destruct (stored_then_inc _ _ _ 1 Hfm Ha2 Hadd2 Hc2) as (Hv2 & Hf2 & Hs2).
    destruct (stored_then_inc _ _ _ (perf_counter_4 env - perf_counter_3 env) Hfm Ha3 Hadd3 Hc3)
      as (Hv3 & Hf3 & Hs3).
    eexists _, _, _.
    split; [rewrite Hget, Ha1; reflexivity |].
    split; [rewrite Hget, Ha2; reflexivity |].
    split; [rewrite Hget, Ha3; reflexivity |].
    unfold self_observed. simpl.
    rewrite Hv1, Hv2, Hv3.
    repeat (split; [first [done | lia] |]).
    intros conn.
    destruct (Hs1 conn) as (x1 & Hx1 & _), (Hs2 conn) as (x2 & Hx2 & _),
      (Hs3 conn) as (x3 & Hx3 & _).
    split; [by exists x1 |]. split; [by exists x2 | by exists x3].
  - intros env' now. split.
    + unfold Metrics.should_pipe_execute. by rewrite Hflag.
    + by apply pipe_execute_clean.
Qed.

(** ** Strings *)

Lemma string_app_nil (r : string) : EmptyString +:+ r = r.
Proof. reflexivity. Qed.

Lemma string_app_cons (x : Ascii.ascii) (a r : string) :
  String x a +:+ r = String x (a +:+ r).
Proof. reflexivity. Qed.

Lemma string_app_assoc (a b c : string) : (a +:+ b) +:+ c = a +:+ (b +:+ c).
Proof.
  induction a as [|x a IH]; [done |].
  rewrite !string_app_cons. by f_equal.
Qed.

Lemma prefix_app (a r : string) : String.prefix a (a +:+ r) = true.
Proof.
  induction a as [|x a IH].
  - rewrite string_app_nil. by destruct r.
  - rewrite string_app_cons. simpl.
    destruct (Ascii.ascii_dec x x); [done | contradiction].
Qed.

Lemma prefix_split (a b : string) :
  String.prefix a b = true -> exists r, b = a +:+ r.
Proof.
  revert b. induction a as [|x a IH]; intros b.
  - intros _. by exists b.
  - destruct b as [|y b]; simpl; [done |].
    destruct (Ascii.ascii_dec x y) as [-> | Hne]; [| done].
    intros Hp. destruct (IH b Hp) as [r ->]. by exists r.
Qed.

Lemma split_go_cons sep skip cur c s :
  split_go sep skip cur (String c s) =
  match skip with
  | S k => split_go sep k cur s
  | O =>
      if String.prefix sep (String c s) then
        cur :: split_go sep (String.length sep - 1) EmptyString s
      else split_go sep O (cur +:+ String c EmptyString) s
  end.
Proof. reflexivity. Qed.

Lemma split_go_nonempty sep skip cur s : split_go sep skip cur s <> [].
Proof.
  revert skip cur. induction s as [|c s IH]; intros skip cur.
  - simpl. by intros [=].
  - rewrite split_go_cons. destruct skip; [| apply IH].
    destruct (String.prefix sep (String c s)); [by intros [=] | apply IH].
Qed.

Lemma split_go_match sep c s cur :
  String.prefix sep (String c s) = true ->
  (2 <= length (split_go sep 0 cur (String c s)))%nat.
Proof.
  intros Hp. rewrite split_go_cons, Hp.
  pose proof (split_go_nonempty sep (String.length sep - 1) EmptyString s).
  destruct (split_go sep (String.length sep - 1) EmptyString s); [done | simpl; lia].
Qed.

Lemma split_go_occurs sep p r cur :
  sep <> EmptyString ->
  (2 <= length (split_go sep 0 cur (p +:+ sep +:+ r)))%nat.
Proof.
  intros Hsep. revert cur. induction p as [|c p IH]; intros cur.
  - rewrite string_app_nil. destruct sep as [|x sep]; [done |].
    rewrite string_app_cons. apply split_go_match.
    rewrite <- string_app_cons. apply prefix_app.
  - rewrite string_app_cons.
    destruct (String.prefix sep (String c (p +:+ sep +:+ r))) eqn:Hp.
    + by apply split_go_match.
    + rewrite split_go_cons, Hp. apply IH.
Qed.

(** Every key found by the scan has a name after [_instance_]. *)
Lemma scanned_names_ok cfg self conn :
  exists names,
    Metrics.scanned_names (Redis.scan_iter conn (Metrics.instance_prefix cfg self)) = Ok names.
Proof.
  unfold Redis.scan_iter.
  induction ((map_to_list (strings conn)).*1) as [|k ks IH]; simpl; [by eauto |].
  destruct (String.prefix (Metrics.instance_prefix cfg self) k) eqn:Hp; [| done].
  simpl. destruct IH as [names ->].
  apply prefix_split in Hp as [r ->].
  pose proof (split_go_occurs "_instance_"
                (SUBSYSTEM_METRICS_REDIS_KEY_PREFIX cfg +:+ "-" +:+ Metrics._namespace self)
                r EmptyString) as Hlen.
  unfold Metrics.instance_prefix, split.
  rewrite !string_app_assoc in *.
  destruct (split_go "_instance_" 0 "" _) as [|a [|b l]] eqn:Hs; simpl in *;
    [specialize (Hlen ltac:(done)); lia | specialize (Hlen ltac:(done)); lia |].
  by eauto.
Qed.

Lemma insert_sorted_elem x y l : x ∈ insert_sorted y l <-> x = y \/ x ∈ l.
Proof.
  induction l as [|z l IH]; simpl.
  - rewrite list_elem_of_singleton. split; [by left | by intros [|?%elem_of_nil]].
  - destruct (String.leb y z).
    + by rewrite elem_of_cons.
    + rewrite !elem_of_cons, IH. tauto.
Qed.

Lemma sort_elem x l : x ∈ sort l <-> x ∈ l.
Proof.
  unfold sort. induction l as [|y l IH]; simpl; [done |].
  by rewrite insert_sorted_elem, elem_of_cons, IH.
Qed.

(** ** The snapshot reader *)

Section Reader.
Context (cfg : settings) (self : Metrics.t) (conn : world).

Lemma load_instance_unfold filter data instance :
  Metrics.load_instance cfg self conn filter data instance
  = if passes filter instance then
      match snapshot_of cfg self conn instance with
      | Some document => odict.set data instance document
      | None => data
      end
    else data.
Proof.
  unfold Metrics.load_instance, passes, snapshot_of.
  destruct (_ || _); [| done].
  by destruct (Redis.get conn _) as [[|]|].
Qed.

(** The entry the loading loop leaves for a name. *)
Lemma load_get filter names data name :
  odict.get (foldl (Metrics.load_instance cfg self conn filter) data names) name
  = if bool_decide (name ∈ names) && passes filter name then
      match snapshot_of cfg self conn name with
      | Some document => Some document
      | None => odict.get data name
      end
    else odict.get data name.
Proof.
  revert data. induction names as [|n names IH]; intros data; simpl; [done |].
  rewrite IH, load_instance_unfold.
  destruct (decide (n = name)) as [-> | Hne].
  - rewrite (bool_decide_eq_true_2 (name ∈ name :: names)) by apply list_elem_of_here.
    simpl. destruct (passes filter name); simpl.
    + destruct (snapshot_of cfg self conn name) as [j|].
      * rewrite odict_get_set_eq. by destruct (bool_decide _).
      * by destruct (bool_decide _).
    + by rewrite andb_false_r.
  - assert (Hin : bool_decide (name ∈ n :: names) = bool_decide (name ∈ names)).
    { apply bool_decide_ext. rewrite elem_of_cons. split; [| by right].
      intros [-> | ?]; [contradiction | done]. }
    rewrite Hin.
    destruct (passes filter n); [destruct (snapshot_of cfg self conn n) |]; try done.
    by rewrite odict_get_set_ne.
Qed.


Lemma load_other_metrics_ok request :
  exists names,
    Metrics.instance_names cfg self conn = Ok names /\
    Metrics.instance_name self ∈ names /\
    Metrics.load_other_metrics cfg self conn request
    = Ok (foldl (Metrics.load_instance cfg self conn (node request)) [] names).
Proof.
  unfold Metrics.load_other_metrics, Metrics.instance_names.
  destruct (scanned_names_ok cfg self conn) as [names ->].
  exists (sort ([Metrics.instance_name self] ++ names)).
  split; [done |]. split; [| done].
  apply sort_elem, list_elem_of_here.
Qed.
End Reader.



(** ** Filters *)

Lemma load_nothing cfg self conn filter names data :
  (forall name, passes filter name = true -> snapshot_of cfg self conn name = None) ->
  foldl (Metrics.load_instance cfg self conn filter) data names = data.
Proof.
  intros Hnone. revert data. induction names as [|n names IH]; intros data; simpl; [done |].
  rewrite IH, load_instance_unfold.
  destruct (passes filter n) eqn:Hp; [| done]. by rewrite Hnone.
Qed.



(** ** A snapshot that lacks a field *)

Lemma base_to_prometheus_skips (b : BaseM.t) before instance d after out :
  odict.get d (BaseM.field b) = None ->
  BaseM.to_prometheus_loop b (before ++ (instance, JDict d) :: after) out
  = BaseM.to_prometheus_loop b (before ++ after) out.
Proof.
  intros Hmiss. revert out. induction before as [|[i j] before IH]; intros out; simpl.
  - unfold odict.mem. by rewrite Hmiss.
  - destruct (json_contains j (BaseM.field b)) as [[|]|e]; simpl; try done.
    destruct (json_subscript j (BaseM.field b)); simpl; [apply IH | done].
Qed.

Lemma histogram_instance_raises (h : HistogramM.t) instance d out :
  odict.get d (BaseM.field (HistogramM.base h)) = None ->
  HistogramM.to_prometheus_instance h instance (JDict d) out
  = Raise (KeyError (BaseM.field (HistogramM.base h))).
Proof.
  intros Hmiss. unfold HistogramM.to_prometheus_instance.
  destruct (HistogramM.buckets h) as [|b0 bs]; simpl;
    unfold odict.subscript; by rewrite Hmiss.
Qed.

Lemma histogram_to_prometheus_raises (h : HistogramM.t) before instance d after out :
  odict.get d (BaseM.field (HistogramM.base h)) = None ->
  exists e,
    HistogramM.to_prometheus_loop h (before ++ (instance, JDict d) :: after) out = Raise e.
Proof.
  intros Hmiss. revert out. induction before as [|[i j] before IH]; intros out; simpl.
  - rewrite histogram_instance_raises by done. by eauto.
  - destruct (HistogramM.to_prometheus_instance h i j out); simpl; [apply IH | by eauto].
Qed.

(** C3, on the code.  A node whose snapshot lacks the field of a metric is
    passed over by the rendering of a scalar metric and by the collector,
    which logs it; the rendering of a histogram raises on it. *)
Theorem missing_field_is_skipped_except_by_histograms
    (before after : list (string * json)) (instance : string)
    (d : list (string * json)) (m : metric) :
  odict.get d (Metric.field m) = None ->
  ((forall h, m <> MHistogram h) ->
   Metric.to_prometheus m (before ++ (instance, JDict d) :: after)
   = Metric.to_prometheus m (before ++ after)) /\
  (forall namespace data key rest r,
     CustomToPrometheusMetricsCollector.collect_loop namespace data (Some (JDict d))
       ((key, m) :: rest) r
     = CustomToPrometheusMetricsCollector.collect_loop namespace data (Some (JDict d)) rest
         (CustomToPrometheusMetricsCollector.mk_run
            (CustomToPrometheusMetricsCollector.yielded r)
            (CustomToPrometheusMetricsCollector.logged r
             ++ [debug_metric_not_found namespace (Metric.field m) data])
            (CustomToPrometheusMetricsCollector.outcome r))) /\
  (forall h, m = MHistogram h ->
     exists e,
       Metric.to_prometheus m (before ++ (instance, JDict d) :: after) = Raise e).
Proof.
  intros Hmiss. split; [| split].
  - intros Hscalar.
    destruct m as [b | b | b | b | h]; try (by apply base_to_prometheus_skips).
    by destruct (Hscalar h).
  - intros namespace data key rest r. simpl. by rewrite Hmiss.
  - intros h ->. simpl. by apply histogram_to_prometheus_raises.
Qed.

Lemma missing_field_is_skipped_except_by_histograms_witness :
  let old_node := [("awx-2", JDict [("task_manager_tasks_started", JNum 3)])] in
  let histogram :=
    HistogramM.__init__ "callback_receiver_batch_events_insert_db"
      "Number of events batch inserted into database" [10; 20; 50] in
  odict.get [("task_manager_tasks_started", JNum 3)] (Metric.field (MHistogram histogram)) = None /\
  HistogramM.to_prometheus histogram old_node
  = Raise (KeyError "callback_receiver_batch_events_insert_db") /\
  exists e, Metric.to_prometheus (MHistogram histogram) old_node = Raise e.
Proof.
  simpl. split; [reflexivity |]. split; [by vm_compute |].
  apply (proj2 (proj2 (missing_field_is_skipped_except_by_histograms [] [] "awx-2"
                         [("task_manager_tasks_started", JNum 3)]
                         (MHistogram
                            (HistogramM.__init__ "callback_receiver_batch_events_insert_db"
                               "Number of events batch inserted into database" [10; 20; 50]))
                         eq_refl))
           _ eq_refl).
Defined.

(** ** The constructors establish the invariants *)

Lemma odict_NoDup_set {V} (d : list (string * V)) k v :
  NoDup (odict.keys d) -> NoDup (odict.keys (odict.set d k v)).
Proof.
  intros Hnd. destruct (odict.get d k) as [v0|] eqn:Hk.
  - rewrite odict_keys_set_present by eauto. done.
  - rewrite odict_keys_set_absent by done.
    apply NoDup_app. split; [done |]. split; [| apply NoDup_singleton].
    intros x Hx Hx'. apply list_elem_of_singleton in Hx' as ->.
    by apply odict_get_None_keys in Hk.
Qed.

Lemma histogram_init_mem field (bs : list Z) (d : list (Z * BaseM.t)) b :
  b ∈ bs \/ odict.mem d b = true ->
  odict.mem (foldl (fun d b => odict.set d b (HistogramM.bucket_key field b)) d bs) b = true.
Proof.
  revert d. induction bs as [|x bs IH]; intros d; simpl.
  - intros [Hin | Hm]; [by apply elem_of_nil in Hin | done].
  - intros [Hin | Hm]; apply IH.
    + apply elem_of_cons in Hin as [-> | Hin]; [right | by left].
      unfold odict.mem. by rewrite odict_get_set_eq.
    + right. by apply odict_mem_set.
Qed.

(** A histogram built by the constructor has a sub-counter for each of its
    boundaries, whatever they are. *)
Lemma histogram_init_wf field help_text buckets :
  histogram_wf (HistogramM.__init__ field help_text buckets) = true.
Proof.
  unfold histogram_wf, HistogramM.__init__. simpl.
  apply forallb_forall. intros b Hin. apply histogram_init_mem. left.
  by apply list_elem_of_In.
Qed.

Lemma register_invariant (ms : list metric) (d : list (string * metric)) :
  forallb metric_wf ms = true ->
  NoDup (odict.keys d) ->
  forallb field_matches d = true ->
  forallb metric_wf (odict.values d) = true ->
  let d' := foldl (fun d m => odict.set d (Metric.field m) m) d ms in
  NoDup (odict.keys d') /\
  forallb field_matches d' = true /\
  forallb metric_wf (odict.values d') = true.
Proof.
  revert d. induction ms as [|m ms IH]; intros d Hms Hnd Hfm Hwf; simpl in *; [done |].
  apply andb_true_iff in Hms as [Hm Hms].
  apply IH; [done | | |].
  - by apply odict_NoDup_set.
  - by apply field_matches_set.
  - by apply odict_values_set_wf.
Qed.

(** The namespace built by the constructor satisfies the invariant, for
    every list of well-formed metrics the subclass registers. *)
Lemma init_namespace_wf cfg METRICSLIST now namespace auto instance_name changed :
  forallb metric_wf METRICSLIST = true ->
  namespace_wf
    (Metrics.__init__ cfg METRICSLIST now namespace auto instance_name changed) = true.
Proof.
  intros Hms.
  destruct (register_invariant (METRICSLIST ++ Metrics._METRICSLIST) [])
    as (Hnd & Hfm & Hwf); try done.
  { rewrite forallb_app, Hms. done. }
  { constructor. }
  unfold namespace_wf, Metrics.__init__. cbn [Metrics.METRICS Metrics.previous_send_metrics].
  rewrite bool_decide_eq_true_2 by done. rewrite Hfm, Hwf. simpl.
  rewrite foldl_app. unfold Metrics._METRICSLIST. cbn [foldl].
  unfold self_metric_ok.
  rewrite !odict_get_set. simpl. done.
Qed.

(** ** The statements at work on the example node *)

Lemma example_namespace_wf : namespace_wf example_namespace = true.
Proof. apply init_namespace_wf. by vm_compute. Qed.

Lemma should_pipe_execute_dirty_and_elapsed_witness :
  namespace_wf example_namespace = true /\
  Metrics.should_pipe_execute
    (Metrics.self
       (Metrics.pipe_execute example_settings (quiet_flush 130)
          (Metrics.mk_state example_namespace empty_world)).2) 140 = false.
Proof.
  split; [exact example_namespace_wf |].
  pose proof (should_pipe_execute_dirty_and_elapsed example_settings (quiet_flush 130)
                (Metrics.mk_state example_namespace empty_world) 140 example_namespace_wf)
    as H.
  cbv zeta in H. destruct H as (_ & Hflushed & _). exact Hflushed.
Defined.

Lemma send_metrics_interval_gate_witness :
  BaseM.field (Metrics.previous_send_metrics example_namespace) = "send_metrics_time" /\
  channel
    (Metrics.conn
       (Metrics.send_metrics example_settings (quiet_send 130)
          (Metrics.mk_state example_namespace empty_world)).2)
  = [broadcast_payload example_namespace empty_world].
Proof.
  split; [reflexivity |].
  pose proof (send_metrics_interval_gate example_settings (quiet_send 130)
                example_namespace empty_world eq_refl) as H.
  cbv zeta in H. destruct H as (Hchannel & _). rewrite Hchannel. reflexivity.
Defined.

Lemma send_metrics_lock_discipline_witness :
  let held :=
    mk_world ∅ ∅ {[Metrics.lock_name example_settings example_namespace := "other"]} [] [] in
  is_Some (locks held !! Metrics.lock_name example_settings example_namespace) /\
  Metrics.send_metrics example_settings (quiet_send 130)
    (Metrics.mk_state example_namespace held)
  = (Ok tt, Metrics.mk_state example_namespace held).
Proof.
  simpl.
  assert (Hheld : is_Some
            (locks (mk_world ∅ ∅
                      {[Metrics.lock_name example_settings example_namespace := "other"]} [] [])
               !! Metrics.lock_name example_settings example_namespace)).
  { exists "other". apply lookup_singleton_eq. }
  split; [exact Hheld |].
  apply (send_metrics_lock_discipline example_settings (quiet_send 130)
           (Metrics.mk_state example_namespace
              (mk_world ∅ ∅
                 {[Metrics.lock_name example_settings example_namespace := "other"]} [] []))).
  exact Hheld.
Defined.

Lemma store_value_keeps_gauge_resets_additive_witness :
  let gauge := MSetInt (BaseM.set (BaseM.__init__ "task_manager_tasks_started" "") 7) in
  Metric.is_gauge gauge = true /\
  exists m' c,
    Metric.store_value gauge = Ok (m', c) /\
    Metric.get m' = Metric.get gauge /\
    BaseM.metric_has_changed (Metric.base m') = false.
Proof.
  simpl. split; [reflexivity |].
  apply (store_value_keeps_gauge_resets_additive
           (MSetInt (BaseM.set (BaseM.__init__ "task_manager_tasks_started" "") 7))).
  reflexivity.
Defined.

Lemma flush_leaves_self_metrics_pending_witness :
  namespace_wf example_namespace = true /\
  Metrics.metrics_have_changed example_namespace = true /\
  (Metrics.pipe_execute example_settings (quiet_flush 130)
     (Metrics.mk_state example_namespace empty_world)).1 = Ok tt /\
  hash (Metrics.conn
          (Metrics.pipe_execute example_settings (quiet_flush 130)
             (Metrics.mk_state example_namespace empty_world)).2)
  !! "subsystem_metrics_pipe_execute_calls" = None /\
  hash (Metrics.conn stale_snapshot_state) !! "subsystem_metrics_pipe_execute_calls" = Some 1.
Proof.
  split; [by vm_compute |]. split; [reflexivity |]. split.
  - apply (flush_leaves_self_metrics_pending example_settings (quiet_flush 130)
             example_namespace empty_world); try done; by vm_compute.
  - split; by vm_compute.
Defined.




(** * Further properties *)

(** ** Reset *)

Lemma run_cmds_snoc h cs c : run_cmds h (cs ++ [c]) = run_cmd (run_cmds h cs) c.
Proof. unfold run_cmds. by rewrite foldl_app. Qed.

Lemma run_cmds_app h cs1 cs2 : run_cmds h (cs1 ++ cs2) = run_cmds (run_cmds h cs1) cs2.
Proof. unfold run_cmds. by rewrite foldl_app. Qed.


Lemma base_reset_cmds (b : BaseM.t) :
  (BaseM.reset_value b).2 = [HSET (BaseM.field b) 0] /\
  BaseM.field (BaseM.reset_value b).1 = BaseM.field b /\
  BaseM.current_value (BaseM.reset_value b).1 = 0.
Proof. done. Qed.




Lemma strings_foldl_delete (w : world) (ks : list string) (k : string) :
  strings (foldl Redis.delete w ks) !! k
  = if decide (k ∈ ks) then None else strings w !! k.
Proof.
  revert w. induction ks as [|k0 ks IH]; intros w; cbn [foldl].
  - by rewrite decide_False by apply not_elem_of_nil.
  - rewrite IH. cbn [Redis.delete strings].
    destruct (decide (k ∈ ks)) as [Hin | Hnin].
    + by rewrite decide_True by by apply list_elem_of_further.
    + destruct (decide (k0 = k)) as [-> | Hne].
      * rewrite decide_True by apply list_elem_of_here. apply lookup_delete_eq.
      * rewrite lookup_delete_ne by done. rewrite decide_False; [done |].
        intros Hc. apply elem_of_cons in Hc as [-> | Hc]; done.
Qed.

Lemma foldl_delete_frame (w : world) (ks : list string) :
  hash (foldl Redis.delete w ks) = hash w /\
  channel (foldl Redis.delete w ks) = channel w /\
  logs (foldl Redis.delete w ks) = logs w /\
  forall k, locks (foldl Redis.delete w ks) !! k
            = if decide (k ∈ ks) then None else locks w !! k.
Proof.
  revert w. induction ks as [|k0 ks IH]; intros w; cbn [foldl].
  - split_and!; try done.
  - destruct (IH (Redis.delete w k0)) as (-> & -> & -> & Hl). split_and!; try done.
    intros k. rewrite Hl. cbn [Redis.delete locks].
    destruct (decide (k ∈ ks)) as [Hin | Hnin].
    + by rewrite decide_True by by apply list_elem_of_further.
    + destruct (decide (k0 = k)) as [-> | Hne].
      * rewrite decide_True by apply list_elem_of_here. apply lookup_delete_eq.
      * rewrite lookup_delete_ne by done. rewrite decide_False; [done |].
        intros Hc. apply elem_of_cons in Hc as [-> | Hc]; done.
Qed.

Lemma scan_iter_elem (w : world) (prefix k : string) :
  k ∈ Redis.scan_iter w prefix <->
  is_Some (strings w !! k) /\ String.prefix prefix k = true.
Proof.
  unfold Redis.scan_iter. rewrite list_elem_of_In, List.filter_In, <- list_elem_of_In.
  rewrite list_elem_of_fmap. split.
  - intros [([k' v] & -> & Hkv) Hp]. apply elem_of_map_to_list in Hkv. by eauto.
  - intros [[v Hv] Hp]. split; [| done]. exists (k, v). split; [done |].
    by apply elem_of_map_to_list.
Qed.


Lemma reset_values_run cfg self w :
  let w2 := Redis.delete (Redis.run w (Metrics.reset_loop (Metrics.METRICS self)).2)
              (SUBSYSTEM_METRICS_REDIS_KEY_PREFIX cfg +:+ "_lock") in
  Metrics.reset_values cfg (Metrics.mk_state self w)
  = (Ok tt,
     Metrics.mk_state
       (Metrics.with_changed
          (Metrics.with_METRICS self (Metrics.reset_loop (Metrics.METRICS self)).1) true)
       (foldl Redis.delete w2 (Redis.scan_iter w2 (Metrics.instance_prefix cfg self)))).
Proof.
  unfold Metrics.reset_values. run.
  destruct (Metrics.reset_loop (Metrics.METRICS self)) as [d c]. by run.
Qed.

Lemma prefix_app_both (a x y : string) :
  String.prefix (a +:+ x) (a +:+ y) = String.prefix x y.
Proof.
  induction a as [|c a IH]; [done |].
  rewrite !string_app_cons. simpl.
  destruct (Ascii.ascii_dec c c); [done | contradiction].
Qed.

Lemma lock_name_not_snapshot cfg self :
  String.prefix (Metrics.instance_prefix cfg self) (Metrics.lock_name cfg self) = false /\
  Metrics.lock_name cfg self <> SUBSYSTEM_METRICS_REDIS_KEY_PREFIX cfg +:+ "_lock".
Proof.
  unfold Metrics.instance_prefix, Metrics.lock_name. split.
  - by rewrite !prefix_app_both.
  - intros H. by apply String.app_inj in H.
Qed.



(** X2.  [reset_values] deletes the key [root_key + "_lock"], which is not
    the lock [send_metrics] takes: the broadcast lock of the namespace is as
    it was, so a lock held before the reset still makes [send_metrics] return
    at once after it.  Keys outside the namespace's snapshots are untouched. *)
Theorem reset_values_keeps_broadcast_lock (cfg : settings) (s : Metrics.state) :
  let r := Metrics.reset_values cfg s in
  let name := Metrics.lock_name cfg (Metrics.self s) in
  locks (Metrics.conn r.2) !! name = locks (Metrics.conn s) !! name /\
  (forall key,
     String.prefix (Metrics.instance_prefix cfg (Metrics.self s)) key = false ->
     key <> SUBSYSTEM_METRICS_REDIS_KEY_PREFIX cfg +:+ "_lock" ->
     strings (Metrics.conn r.2) !! key = strings (Metrics.conn s) !! key) /\
  (is_Some (locks (Metrics.conn s) !! name) ->
   forall env, Metrics.send_metrics cfg env r.2 = (Ok tt, r.2)).
Proof.
  destruct s as [self w]. cbv zeta. rewrite reset_values_run. simpl.
  set (w2 := Redis.delete (Redis.run w (Metrics.reset_loop (Metrics.METRICS self)).2)
               (SUBSYSTEM_METRICS_REDIS_KEY_PREFIX cfg +:+ "_lock")).
  destruct (lock_name_not_snapshot cfg self) as [Hprefix Hne].
  destruct (foldl_delete_frame w2 (Redis.scan_iter w2 (Metrics.instance_prefix cfg self)))
    as (_ & _ & _ & Hlocks).
  assert (Hlock : locks (foldl Redis.delete w2
                           (Redis.scan_iter w2 (Metrics.instance_prefix cfg self)))
                    !! Metrics.lock_name cfg self
                  = locks w !! Metrics.lock_name cfg self).
  { rewrite Hlocks. rewrite decide_False.
    - unfold w2. simpl. by rewrite lookup_delete_ne.
    - intros [_ Hp]%scan_iter_elem. congruence. }
  split; [done |]. split.
  - intros key Hp Hk. rewrite strings_foldl_delete. rewrite decide_False.
    + unfold w2. simpl. by rewrite lookup_delete_ne.
    + intros [_ Hp']%scan_iter_elem. congruence.
  - intros Hheld env. apply send_metrics_contended. simpl.
    change (Metrics.lock_name cfg
              (Metrics.with_changed
                 (Metrics.with_METRICS self (Metrics.reset_loop (Metrics.METRICS self)).1)
                 true))
      with (Metrics.lock_name cfg self).
    by rewrite Hlock.
Qed.

Lemma reset_values_keeps_broadcast_lock_witness :
  let held :=
    Redis.with_locks empty_world
      {[Metrics.lock_name example_settings example_namespace := "other"]} in
  let r := Metrics.reset_values example_settings (Metrics.mk_state example_namespace held) in
  Metrics.send_metrics example_settings (quiet_send 130) r.2 = (Ok tt, r.2).
Proof.
  cbn zeta.
  pose proof (reset_values_keeps_broadcast_lock example_settings
                (Metrics.mk_state example_namespace
                   (Redis.with_locks empty_world
                      {[Metrics.lock_name example_settings example_namespace := "other"]})))
    as H.
  cbn zeta in H. destruct H as (_ & _ & H). apply H.
  exists "other". apply lookup_singleton_eq.
Defined.

(** ** Unknown fields *)

(** X3.  [set], [observe], [get], [decode] and an [inc] of a non-zero value
    raise [KeyError] on a field that is not registered, and leave the object
    and the store as they were (the namespace is not marked dirty); an [inc]
    of 0 returns without looking the field up.  [observe] on a registered
    metric that is not a histogram raises [AttributeError], again without any
    effect. *)
Theorem unknown_field_fails_fast (cfg : settings) (env : flush_env)
    (s : Metrics.state) (field : string) (value : Z) :
  (odict.get (Metrics.METRICS (Metrics.self s)) field = None ->
   Metrics.set cfg env field value s = (Raise (KeyError field), s) /\
   (value <> 0 -> Metrics.inc cfg env field value s = (Raise (KeyError field), s)) /\
   Metrics.inc cfg env field 0 s = (Ok tt, s) /\
   Metrics.observe cfg env field value s = (Raise (KeyError field), s) /\
   Metrics.get (Metrics.self s) field = Raise (KeyError field) /\
   Metrics.decode (Metrics.self s) (Metrics.conn s) field = Raise (KeyError field)) /\
  (forall m,
     odict.get (Metrics.METRICS (Metrics.self s)) field = Some m ->
     (forall h, m <> MHistogram h) ->
     Metrics.observe cfg env field value s = (Raise AttributeError, s)).
Proof.
  split.
  - intros Hnone. split_and!.
    + unfold Metrics.set. run. unfold odict.subscript. by rewrite Hnone.
    + intros Hv. unfold Metrics.inc. rewrite decide_True by done. run.
      unfold odict.subscript. by rewrite Hnone.
    + apply inc_zero_run.
    + unfold Metrics.observe. run. unfold odict.subscript. by rewrite Hnone.
    + unfold Metrics.get, odict.subscript. by rewrite Hnone.
    + unfold Metrics.decode, odict.subscript. by rewrite Hnone.
  - intros m Hm Hscalar. unfold Metrics.observe. run.
    unfold odict.subscript. rewrite Hm. run.
    destruct m as [b | b | b | b | h]; try done. by destruct (Hscalar h).
Qed.

Lemma unknown_field_fails_fast_witness :
  odict.get (Metrics.METRICS example_namespace) "no_such_metric" = None /\
  Metrics.set example_settings (quiet_flush 130) "no_such_metric" 1
    (Metrics.mk_state example_namespace empty_world)
  = (Raise (KeyError "no_such_metric"), Metrics.mk_state example_namespace empty_world) /\
  Metrics.observe example_settings (quiet_flush 130) "task_manager_tasks_started" 1
    (Metrics.mk_state example_namespace empty_world)
  = (Raise AttributeError, Metrics.mk_state example_namespace empty_world).
Proof.
  pose proof (unknown_field_fails_fast example_settings (quiet_flush 130)
                (Metrics.mk_state example_namespace empty_world) "no_such_metric" 1) as H1.
  pose proof (unknown_field_fails_fast example_settings (quiet_flush 130)
                (Metrics.mk_state example_namespace empty_world)
                "task_manager_tasks_started" 1) as H2.
  destruct H1 as [H1 _]. destruct H2 as [_ H2].
  split; [reflexivity |]. split.
  - apply H1. reflexivity.
  - apply (H2 (MSetInt (BaseM.__init__ "task_manager_tasks_started" "Number of tasks started"))).
    + reflexivity.
    + intros h. discriminate.
Defined.

(** ** The constructor *)





(** ** Histograms over many observations *)

Lemma histogram_observe_step (h : HistogramM.t) (value : Z) :
  histogram_keyed h ->
  exists h',
    HistogramM.observe h value = Ok h' /\
    (forall b,
       bucket_count h' b =
       (fun c => if decide (first_bucket value (HistogramM.buckets h) = Some b)
                 then c + 1 else c) <$> bucket_count h b) /\
    BaseM.current_value (HistogramM.inf h') = BaseM.current_value (HistogramM.inf h) + 1 /\
    BaseM.current_value (HistogramM.sum h') = BaseM.current_value (HistogramM.sum h) + value /\
    HistogramM.buckets h' = HistogramM.buckets h /\
    histogram_keyed h'.
Proof.
  intros Hkeyed.
  destruct (observe_loop_spec value (HistogramM.buckets h) (HistogramM.buckets_to_keys h))
    as (d' & Hloop & Hkeys & Hget).
  { intros b Hin. apply odict_keys_get. by rewrite Hkeyed. }
  unfold HistogramM.observe. rewrite Hloop. simpl.
  eexists. split; [done |]. simpl. split_and!; try done.
  - intros b. unfold bucket_count. simpl. rewrite Hget.
    destruct (odict.get (HistogramM.buckets_to_keys h) b); simpl; [| done].
    by destruct (decide (first_bucket value (HistogramM.buckets h) = Some b)).
  - unfold histogram_keyed. simpl. by rewrite Hkeys.
Qed.

Lemma observe_all_spec (h : HistogramM.t) (values : list Z) :
  histogram_keyed h ->
  exists h',
    observe_all h values = Ok h' /\
    (forall b,
       bucket_count h' b =
       (fun c => c + Z.of_nat (length (filter
                    (fun v => first_bucket v (HistogramM.buckets h) = Some b) values)))
         <$> bucket_count h b) /\
    BaseM.current_value (HistogramM.inf h')
    = BaseM.current_value (HistogramM.inf h) + Z.of_nat (length values) /\
    BaseM.current_value (HistogramM.sum h')
    = BaseM.current_value (HistogramM.sum h) + foldr Z.add 0 values /\
    HistogramM.buckets h' = HistogramM.buckets h /\
    histogram_keyed h'.
Proof.
  revert h. induction values as [|v values IH]; intros h Hkeyed.
  - exists h. simpl. split_and!; try done; try lia.
    intros b. destruct (bucket_count h b); simpl; [f_equal; lia | done].
  - destruct (histogram_observe_step h v Hkeyed) as (h1 & Hobs & Hc1 & Hi1 & Hs1 & Hb1 & Hk1).
    destruct (IH h1 Hk1) as (h' & Hall & Hc & Hi & Hs & Hb & Hk).
    exists h'. cbn [observe_all]. rewrite Hobs. simpl. split_and!; try done.
    + intros b. rewrite Hc, Hc1, Hb1. rewrite filter_cons.
      destruct (bucket_count h b); simpl; [| done]. f_equal.
      destruct (decide (first_bucket v (HistogramM.buckets h) = Some b)); simpl; lia.
    + rewrite Hi, Hi1. simpl. lia.
    + rewrite Hs, Hs1. simpl. lia.
    + congruence.
Qed.

(** X5.  A histogram keeps exact counts over any run of observations: each
    sub-counter grows by the number of observed values whose first boundary
    it is, the total by the number of values, the sum by their sum. *)
Theorem observe_all_counts (h : HistogramM.t) (values : list Z) :
  histogram_keyed h ->
  exists h',
    observe_all h values = Ok h' /\
    (forall b,
       bucket_count h' b =
       (fun c => c + Z.of_nat (length (filter
                    (fun v => first_bucket v (HistogramM.buckets h) = Some b) values)))
         <$> bucket_count h b) /\
    BaseM.current_value (HistogramM.inf h')
    = BaseM.current_value (HistogramM.inf h) + Z.of_nat (length values) /\
    BaseM.current_value (HistogramM.sum h')
    = BaseM.current_value (HistogramM.sum h) + foldr Z.add 0 values /\
    HistogramM.buckets h' = HistogramM.buckets h /\
    histogram_keyed h'.
Proof.
  revert h. induction values as [|v values IH]; intros h Hkeyed.
  - exists h. simpl. split_and!; try done; try lia.
    intros b. destruct (bucket_count h b); simpl; [f_equal; lia | done].
  - destruct (histogram_observe_step h v Hkeyed) as (h1 & Hobs & Hc1 & Hi1 & Hs1 & Hb1 & Hk1).
    destruct (IH h1 Hk1) as (h' & Hall & Hc & Hi & Hs & Hb & Hk).
    exists h'. cbn [observe_all]. rewrite Hobs. simpl. split_and!; try done.
    + intros b. rewrite Hc, Hc1, Hb1. rewrite filter_cons.
      destruct (bucket_count h b); simpl; [| done]. f_equal.
      destruct (decide (first_bucket v (HistogramM.buckets h) = Some b)); simpl; lia.
    + rewrite Hi, Hi1. simpl. lia.
    + rewrite Hs, Hs1. simpl. lia.
    + congruence.
Qed.

Lemma observe_all_counts_witness :
  let h := HistogramM.__init__ "h" "" [10; 20; 50] in
  histogram_keyed h /\
  exists h',
    observe_all h [5; 15; 999; 20; 7] = Ok h' /\
    bucket_count h' 10 = Some 2 /\ bucket_count h' 20 = Some 2 /\
    bucket_count h' 50 = Some 0 /\
    BaseM.current_value (HistogramM.inf h') = 5 /\
    BaseM.current_value (HistogramM.sum h') = 1046.
Proof.
  simpl. split; [reflexivity |].
  destruct (observe_all_counts (HistogramM.__init__ "h" "" [10; 20; 50]) [5; 15; 999; 20; 7])
    as (h' & Hall & Hc & Hi & Hs & _); [reflexivity |].
  exists h'. split; [exact Hall |].
  rewrite !Hc, Hi, Hs. by vm_compute.
Defined.

(** ** Snapshots *)

Lemma load_local_fold (hash_ : gmap string Z) (d acc : list (string * json))
    (ms : list (string * metric)) (k : string) :
  NoDup (odict.keys ms) ->
  odict.get
    (foldl (fun data fm => odict.set data fm.1 (Metric.decode hash_ fm.2)) acc ms) k
  = match odict.get ms k with
    | Some m => Some (Metric.decode hash_ m)
    | None => odict.get acc k
    end.
Proof.
  clear d. revert acc. induction ms as [|[k0 m0] ms IH]; intros acc Hnd; simpl; [done |].
  unfold odict.keys in Hnd. simpl in Hnd. apply NoDup_cons in Hnd as [Hk0 Hnd].
  rewrite IH by done. rewrite odict_get_set.
  destruct (decide (k0 = k)) as [-> | Hne]; [| done].
  destruct (odict.get ms k) eqn:Hk; [| done].
  apply odict_get_Some_keys in Hk. contradiction.
Qed.

Lemma load_local_keys (hash_ : gmap string Z) (acc : list (string * json))
    (ms : list (string * metric)) :
  NoDup (odict.keys acc ++ odict.keys ms) ->
  odict.keys (foldl (fun data fm => odict.set data fm.1 (Metric.decode hash_ fm.2)) acc ms)
  = odict.keys acc ++ odict.keys ms.
Proof.
  revert acc. induction ms as [|[k0 m0] ms IH]; intros acc Hnd; simpl.
  - unfold odict.keys. simpl. by rewrite app_nil_r.
  - assert (Hfresh : odict.get acc k0 = None).
    { destruct (odict.get acc k0) eqn:Hk; [| done].
      apply odict_get_Some_keys in Hk. apply NoDup_app in Hnd as (_ & Hdis & _).
      exfalso. apply (Hdis k0 Hk). apply list_elem_of_here. }
    rewrite IH.
    + rewrite odict_keys_set_absent by done. unfold odict.keys. simpl. by rewrite <- app_assoc.
    + rewrite odict_keys_set_absent by done. unfold odict.keys in *. simpl in *.
      by rewrite <- app_assoc.
Qed.

(** The snapshot has one entry per registered metric, in the order of the
    registry, and each entry is the decode of its metric. *)
Lemma load_local_metrics_spec (self : Metrics.t) (w : world) :
  NoDup (odict.keys (Metrics.METRICS self)) ->
  odict.keys (Metrics.load_local_metrics self w) = odict.keys (Metrics.METRICS self) /\
  forall k,
    odict.get (Metrics.load_local_metrics self w) k
    = Metric.decode (hash w) <$> odict.get (Metrics.METRICS self) k.
Proof.
  intros Hnd. unfold Metrics.load_local_metrics. split.
  - by rewrite load_local_keys.
  - intros k. rewrite (load_local_fold (hash w) []) by done.
    by destruct (odict.get (Metrics.METRICS self) k).
Qed.

(** X6.  What a broadcast stores is what the reader returns for this node:
    after a call of [send_metrics] that publishes, the entry of this node in
    [load_other_metrics] is the dictionary that has, for every registered
    metric and in the order of the registry, its decode from the hash as it
    was when the call read it. *)
Theorem broadcast_then_read (cfg : settings) (env : send_env) (self : Metrics.t)
    (w : world) (request : request) :
  NoDup (odict.keys (Metrics.METRICS self)) ->
  locks w !! Metrics.lock_name cfg self = None ->
  broadcast_due env self w = true ->
  emit_channel_notification env (broadcast_payload self w) = Ok tt ->
  passes (node request) (Metrics.instance_name self) = true ->
  let r := Metrics.send_metrics cfg env (Metrics.mk_state self w) in
  exists data snapshot,
    Metrics.load_other_metrics cfg (Metrics.self r.2) (Metrics.conn r.2) request = Ok data /\
    odict.get data (Metrics.instance_name self) = Some (JDict snapshot) /\
    odict.keys snapshot = odict.keys (Metrics.METRICS self) /\
    forall field m,
      odict.get (Metrics.METRICS self) field = Some m ->
      json_subscript (JDict snapshot) field = Ok (Metric.decode (hash w) m).
Proof.
  intros Hnd Hfree Hdue Hemit Hpass. simpl.
  destruct (send_metrics_broadcast cfg env self w Hfree Hdue Hemit)
    as (_ & _ & _ & _ & _ & _ & Hself & _ & Hstrings).
  simpl in Hself, Hstrings.
  destruct (Metrics.send_metrics cfg env (Metrics.mk_state self w)) as [res [self' w']].
  simpl in *. subst self'.
  destruct (load_other_metrics_ok cfg (timestamped env self) w' request)
    as (names & _ & Hown & ->).
  destruct (load_local_metrics_spec self w Hnd) as [Hkeys Hget].
  exists (foldl (Metrics.load_instance cfg (timestamped env self) w' (node request)) [] names),
    (Metrics.load_local_metrics self w).
  split; [done |]. split.
  - rewrite load_get. change (Metrics.instance_name (timestamped env self))
      with (Metrics.instance_name self) in Hown.
    rewrite bool_decide_eq_true_2 by done. rewrite Hpass. simpl.
    unfold snapshot_of, Redis.get.
    change (Metrics.instance_key cfg (timestamped env self) (Metrics.instance_name self))
      with (Metrics.instance_key cfg self (Metrics.instance_name self)).
    by rewrite Hstrings, lookup_insert_eq.
  - split; [done |]. intros field m Hm. simpl. unfold odict.subscript.
    by rewrite Hget, Hm.
Qed.

Lemma broadcast_then_read_witness :
  exists data snapshot,
    Metrics.load_other_metrics example_settings
      (Metrics.self (Metrics.send_metrics example_settings (quiet_send 130)
                       (Metrics.mk_state example_namespace empty_world)).2)
      (Metrics.conn (Metrics.send_metrics example_settings (quiet_send 130)
                       (Metrics.mk_state example_namespace empty_world)).2)
      (mk_request [] []) = Ok data /\
    odict.get data (Metrics.instance_name example_namespace) = Some (JDict snapshot) /\
    odict.keys snapshot = odict.keys (Metrics.METRICS example_namespace).
Proof.
  destruct (broadcast_then_read example_settings (quiet_send 130) example_namespace
              empty_world (mk_request [] []))
    as (data & snapshot & Hload & Hown & Hkeys & _);
    try reflexivity.
  { apply (bool_decide_unpack _). by vm_compute. }
  exists data, snapshot. by split_and!.
Defined.

(** ** Rendering snapshots of the same version *)

Lemma py_sum_from_decoded (g : Z * BaseM.t -> Z) (l : list (Z * BaseM.t)) (acc : Z) :
  py_sum_from acc ((fun kv => JNum (g kv)) <$> l) = Ok (acc + foldr Z.add 0 (g <$> l)).
Proof.
  revert acc. induction l as [|kv l IH]; intros acc; simpl.
  - f_equal. apply eq_sym, Z.add_0_r.
  - rewrite IH. f_equal. apply eq_sym, Z.add_assoc.
Qed.

Lemma odict_elem_get {K V} `{EqDecision K} (d : list (K * V)) (k : K) (v : V) :
  NoDup (odict.keys d) -> (k, v) ∈ d -> odict.get d k = Some v.
Proof.
  induction d as [|[k0 v0] d IH]; intros Hnd Hin; [by apply elem_of_nil in Hin |].
  unfold odict.keys in Hnd. simpl in Hnd. apply NoDup_cons in Hnd as [Hk0 Hnd].
  simpl. apply elem_of_cons in Hin as [Heq | Hin].
  - injection Heq as -> ->. by rewrite decide_True.
  - rewrite decide_False; [by apply IH |].
    intros ->. apply Hk0. apply list_elem_of_fmap. by exists (k, v).
Qed.

(** A histogram renders the decode of its own fields without raising. *)
Lemma histogram_buckets_decoded (h : HistogramM.t) (instance : string)
    (snapshot : list (string * json)) (hash_ : gmap string Z) (bs : list Z) (i : nat)
    (out : string) :
  odict.get snapshot (BaseM.field (HistogramM.base h)) = Some (HistogramM.decode hash_ h) ->
  exists text,
    HistogramM.to_prometheus_buckets h instance (JDict snapshot) i bs out = Ok text.
Proof.
  intros Hentry. revert i out. induction bs as [|b bs IH]; intros i out; simpl.
  - by exists out.
  - unfold odict.subscript. rewrite Hentry. simpl.
    unfold py_sum. rewrite <- fmap_take, py_sum_from_decoded. simpl. apply IH.
Qed.

Lemma histogram_instance_decoded (h : HistogramM.t) (instance : string)
    (snapshot : list (string * json)) (hash_ : gmap string Z) (out : string) :
  odict.get snapshot (BaseM.field (HistogramM.base h)) = Some (HistogramM.decode hash_ h) ->
  exists text, HistogramM.to_prometheus_instance h instance (JDict snapshot) out = Ok text.
Proof.
  intros Hentry. unfold HistogramM.to_prometheus_instance.
  destruct (histogram_buckets_decoded h instance snapshot hash_ (HistogramM.buckets h) 0 out
              Hentry) as [text ->].
  simpl. unfold odict.subscript. rewrite Hentry. simpl. by eexists.
Qed.

Lemma metric_renders_own_snapshots (self : Metrics.t) (m : metric)
    (data : list (string * json)) :
  NoDup (odict.keys (Metrics.METRICS self)) ->
  odict.get (Metrics.METRICS self) (Metric.field m) = Some m ->
  Forall (fun nj => exists w, nj.2 = JDict (Metrics.load_local_metrics self w)) data ->
  exists text, Metric.to_prometheus m data = Ok text.
Proof.
  intros Hnd Hm Hdata.
  assert (Hentry : forall w,
    odict.get (Metrics.load_local_metrics self w) (Metric.field m)
    = Some (Metric.decode (hash w) m)).
  { intros w. destruct (load_local_metrics_spec self w Hnd) as [_ Hget].
    by rewrite Hget, Hm. }
  assert (Hscalar : forall out,
    exists text, BaseM.to_prometheus_loop (Metric.base m) data out = Ok text).
  { induction Hdata as [|[n j] data [w Hj] _ IH]; intros out; simpl.
    - by exists out.
    - simpl in Hj. subst j. simpl. unfold odict.mem, odict.subscript.
      change (BaseM.field (Metric.base m)) with (Metric.field m).
      rewrite Hentry. simpl. apply IH. }
  destruct m as [b|b|b|b|h];
    try (unfold Metric.to_prometheus, BaseM.to_prometheus; apply Hscalar).
  clear Hscalar. simpl. unfold HistogramM.to_prometheus.
  generalize (BaseM.header (HistogramM.base h) "histogram").
  induction Hdata as [|[n j] data [w Hj] _ IH]; intros out; simpl.
  - by exists out.
  - simpl in Hj. subst j.
    destruct (histogram_instance_decoded h n (Metrics.load_local_metrics self w) (hash w) out
                (Hentry w)) as [text ->].
    simpl. apply IH.
Qed.

Lemma generate_loop_own_snapshots (self : Metrics.t) (filter : list string)
    (data : list (string * json)) (metrics : list (string * metric)) (out : string) :
  NoDup (odict.keys (Metrics.METRICS self)) ->
  forallb field_matches (Metrics.METRICS self) = true ->
  metrics ⊆ Metrics.METRICS self ->
  Forall (fun nj => exists w, nj.2 = JDict (Metrics.load_local_metrics self w)) data ->
  exists text, Metrics.generate_loop filter data metrics out = Ok text.
Proof.
  intros Hnd Hfm Hsub Hdata. revert out.
  induction metrics as [|[field m] metrics IH]; intros out; simpl.
  - by exists out.
  - assert (Hin : (field, m) ∈ Metrics.METRICS self) by (apply Hsub, list_elem_of_here).
    assert (Hrest : metrics ⊆ Metrics.METRICS self).
    { intros x Hx. apply Hsub. by apply list_elem_of_further. }
    destruct (_ || _); [| by apply IH].
    assert (Hfield : Metric.field m = field).
    { rewrite forallb_forall in Hfm. apply list_elem_of_In in Hin.
      apply Hfm in Hin. by apply bool_decide_eq_true in Hin. }
    destruct (metric_renders_own_snapshots self m data Hnd) as [text ->]; [| done |].
    + rewrite Hfield. by apply odict_elem_get.
    + simpl. by apply IH.
Qed.

Lemma load_instance_Forall (cfg : settings) (self : Metrics.t) (conn : world)
    (P : json -> Prop) (filter names : list string) (data : list (string * json)) :
  (forall name j, snapshot_of cfg self conn name = Some j -> P j) ->
  Forall (fun nj => P nj.2) data ->
  Forall (fun nj => P nj.2) (foldl (Metrics.load_instance cfg self conn filter) data names).
Proof.
  intros Hsnap. revert data. induction names as [|n names IH]; intros data Hdata; simpl; [done |].
  apply IH. rewrite load_instance_unfold.
  destruct (passes filter n); [| done].
  destruct (snapshot_of cfg self conn n) as [j|] eqn:Hj; [| done].
  specialize (Hsnap n j Hj). clear Hj IH.
  induction data as [|[k v] data IHd]; simpl.
  - by constructor.
  - apply Forall_cons in Hdata as [Hv Hdata]. destruct (decide (k = n)).
    + by constructor.
    + constructor; [done | by apply IHd].
Qed.

Lemma generate_metrics_same_version_spec (cfg : settings) (self : Metrics.t)
    (conn : world) (request : request) :
  namespace_wf self = true ->
  (forall name j, snapshot_of cfg self conn name = Some j ->
     exists w, j = JDict (Metrics.load_local_metrics self w)) ->
  exists text, Metrics.generate_metrics cfg self conn request = Ok text.
Proof.
  intros Hwf Hsnap.
  destruct (namespace_wf_inv self Hwf) as (Hnd & Hfm & _).
  unfold Metrics.generate_metrics.
  destruct (load_other_metrics_ok cfg self conn request) as (names & _ & _ & ->). simpl.
  pose proof (load_instance_Forall cfg self conn
                (fun j => exists w, j = JDict (Metrics.load_local_metrics self w))
                (node request) names [] Hsnap (Forall_nil_2 _)) as Hdata.
  destruct (foldl _ [] names) as [|nj data] eqn:Hd; [by eexists |].
  by apply (generate_loop_own_snapshots self).
Qed.



(** ** The collector *)

Lemma family_of_decode (hash_ : gmap string Z) (m : metric) :
  json_truthy (Metric.decode hash_ m) = true ->
  exists f, CustomToPrometheusMetricsCollector.family m (Metric.decode hash_ m) = Ok f.
Proof. intros _. destruct m; simpl; by eexists. Qed.

Lemma collect_loop_own_snapshot (namespace : string) (data snapshot : list (string * json))
    (hash_ : gmap string Z) (metrics : list (string * metric))
    (r : CustomToPrometheusMetricsCollector.run) :
  (forall k m, (k, m) ∈ metrics ->
     odict.get snapshot (Metric.field m) = Some (Metric.decode hash_ m)) ->
  let r' := CustomToPrometheusMetricsCollector.collect_loop namespace data
              (Some (JDict snapshot)) metrics r in
  CustomToPrometheusMetricsCollector.outcome r' = CustomToPrometheusMetricsCollector.outcome r /\
  (length (CustomToPrometheusMetricsCollector.yielded r')
   + length (CustomToPrometheusMetricsCollector.logged r')
   = length (CustomToPrometheusMetricsCollector.yielded r)
     + length (CustomToPrometheusMetricsCollector.logged r) + length metrics)%nat /\
  forall f,
    f ∈ CustomToPrometheusMetricsCollector.yielded r' <->
    f ∈ CustomToPrometheusMetricsCollector.yielded r \/
    exists k m, (k, m) ∈ metrics /\ json_truthy (Metric.decode hash_ m) = true /\
                CustomToPrometheusMetricsCollector.family m (Metric.decode hash_ m) = Ok f.
Proof.
  revert r. induction metrics as [|[k m] metrics IH]; intros r Hsnap; cbn zeta.
  - simpl. split_and!; [done | lia |]. intros f. split; [by left |].
    intros [Hf | (k & m & Hin & _)]; [done | by apply elem_of_nil in Hin].
  - assert (Hrest : forall k' m', (k', m') ∈ metrics ->
              odict.get snapshot (Metric.field m') = Some (Metric.decode hash_ m')).
    { intros k' m' Hin. apply (Hsnap k'). by apply list_elem_of_further. }
    cbn [CustomToPrometheusMetricsCollector.collect_loop json_get].
    rewrite (Hsnap k m) by apply list_elem_of_here.
    destruct (json_truthy (Metric.decode hash_ m)) eqn:Htruthy.
    + destruct (family_of_decode hash_ m Htruthy) as [f0 Hf0]. rewrite Hf0.
      destruct (IH (CustomToPrometheusMetricsCollector.mk_run
                      (CustomToPrometheusMetricsCollector.yielded r ++ [f0])
                      (CustomToPrometheusMetricsCollector.logged r)
                      (CustomToPrometheusMetricsCollector.outcome r)) Hrest)
        as (Hout & Hlen & Hmem).
      cbn zeta in Hout, Hlen, Hmem. simpl in Hout, Hlen, Hmem.
      split_and!; [done | rewrite Hlen, length_app; simpl; lia |].
      intros f. rewrite Hmem, elem_of_app, list_elem_of_singleton. split.
      * intros [[Hf | ->] | (k' & m' & Hin & Ht & Hfam)].
        -- by left.
        -- right. exists k, m. split_and!; [apply list_elem_of_here | done | done].
        -- right. exists k', m'. split_and!; [by apply list_elem_of_further | done | done].
      * intros [Hf | (k' & m' & Hin & Ht & Hfam)]; [by left; left |].
        apply elem_of_cons in Hin as [Heq | Hin].
        -- injection Heq as -> ->. left; right. congruence.
        -- right. by exists k', m'.
    + destruct (IH (CustomToPrometheusMetricsCollector.mk_run
                      (CustomToPrometheusMetricsCollector.yielded r)
                      (CustomToPrometheusMetricsCollector.logged r ++
                       [debug_metric_not_found namespace (Metric.field m) data])
                      (CustomToPrometheusMetricsCollector.outcome r)) Hrest)
        as (Hout & Hlen & Hmem).
      cbn zeta in Hout, Hlen, Hmem. simpl in Hout, Hlen, Hmem.
      split_and!; [done | rewrite Hlen, length_app; simpl; lia |].
      intros f. rewrite Hmem. split.
      * intros [Hf | (k' & m' & Hin & Ht & Hfam)]; [by left |].
        right. exists k', m'. split_and!; [by apply list_elem_of_further | done | done].
      * intros [Hf | (k' & m' & Hin & Ht & Hfam)]; [by left |].
        apply elem_of_cons in Hin as [Heq | Hin].
        -- injection Heq as -> ->. congruence.
        -- right. by exists k', m'.
Qed.

(** X8.  The collector on a snapshot of this node: when the snapshot stored
    for [CLUSTER_HOST_ID] was serialized by this namespace, the generator
    runs to its end without an exception, every registered metric is either
    yielded or logged as not found, and the families yielded are those of
    the metrics whose decoded entry is truthy.  So a scalar whose value is 0
    is never yielded, and every histogram is. *)
Theorem collect_own_snapshot (cfg : settings) (self : Metrics.t) (conn w : world) :
  namespace_wf self = true ->
  Metrics.instance_name self = CLUSTER_HOST_ID cfg ->
  snapshot_of cfg self conn (CLUSTER_HOST_ID cfg)
  = Some (JDict (Metrics.load_local_metrics self w)) ->
  let r := CustomToPrometheusMetricsCollector.collect cfg self conn in
  CustomToPrometheusMetricsCollector.outcome r = Ok tt /\
  (length (CustomToPrometheusMetricsCollector.yielded r)
   + length (CustomToPrometheusMetricsCollector.logged r)
   = length (Metrics.METRICS self))%nat /\
  (forall f,
     f ∈ CustomToPrometheusMetricsCollector.yielded r <->
     exists k m, (k, m) ∈ Metrics.METRICS self /\
                 json_truthy (Metric.decode (hash w) m) = true /\
                 CustomToPrometheusMetricsCollector.family m (Metric.decode (hash w) m)
                 = Ok f) /\
  (forall name documentation,
     GaugeMetricFamily name documentation (JNum 0)
     ∉ CustomToPrometheusMetricsCollector.yielded r) /\
  (forall k h,
     (k, MHistogram h) ∈ Metrics.METRICS self ->
     HistogramMetricFamily k (BaseM.help_text (HistogramM.base h))
       (zip (pretty <$> HistogramM.buckets h)
          ((fun kv => pretty (IntM.decode (hash w) kv.2)) <$> HistogramM.buckets_to_keys h))
       (JNum (IntM.decode (hash w) (HistogramM.sum h)))
     ∈ CustomToPrometheusMetricsCollector.yielded r).
Proof.
  intros Hwf Hname Hsnap. cbn zeta.
  destruct (namespace_wf_inv self Hwf) as (Hnd & Hfm & _).
  unfold CustomToPrometheusMetricsCollector.collect.
  destruct (load_other_metrics_ok cfg self conn (mk_request [] []))
    as (names & _ & Hown & ->).
  assert (Hhost : odict.get (foldl (Metrics.load_instance cfg self conn
                                      (node (mk_request [] []))) [] names)
                    (CLUSTER_HOST_ID cfg)
                  = Some (JDict (Metrics.load_local_metrics self w))).
  { rewrite load_get, <- Hname. rewrite bool_decide_eq_true_2 by done.
    simpl. by rewrite Hname, Hsnap. }
  destruct (foldl _ [] names) as [|nj data] eqn:Hdata; [done |].
  rewrite Hhost.
  assert (Hfield : forall k m, (k, m) ∈ Metrics.METRICS self -> Metric.field m = k).
  { intros k m Hin. rewrite forallb_forall in Hfm. apply list_elem_of_In in Hin.
    apply Hfm in Hin. by apply bool_decide_eq_true in Hin. }
  destruct (collect_loop_own_snapshot (Metrics._namespace self) (nj :: data)
              (Metrics.load_local_metrics self w) (hash w) (Metrics.METRICS self)
              (CustomToPrometheusMetricsCollector.mk_run [] [] (Ok tt)))
    as (Hout & Hlen & Hmem).
  { intros k m Hin. destruct (load_local_metrics_spec self w Hnd) as [_ Hget].
    rewrite Hget, (Hfield k m Hin). by rewrite (odict_elem_get _ k m Hnd Hin). }
  cbn zeta in Hout, Hlen, Hmem. simpl in Hout, Hlen, Hmem.
  assert (Hmem' : forall f,
    f ∈ CustomToPrometheusMetricsCollector.yielded
          (CustomToPrometheusMetricsCollector.collect_loop (Metrics._namespace self)
             (nj :: data) (Some (JDict (Metrics.load_local_metrics self w)))
             (Metrics.METRICS self) (CustomToPrometheusMetricsCollector.mk_run [] [] (Ok tt)))
    <-> exists k m, (k, m) ∈ Metrics.METRICS self /\
                    json_truthy (Metric.decode (hash w) m) = true /\
                    CustomToPrometheusMetricsCollector.family m (Metric.decode (hash w) m)
                    = Ok f).
  { intros f. rewrite Hmem. split; [| by right].
    intros [Hf | Hf]; [by apply elem_of_nil in Hf | done]. }
  split_and!; [done | done | done | |].
  - intros name documentation Hin. apply Hmem' in Hin as (k & m & _ & Ht & Hfam).
    destruct m as [b|b|b|b|h]; simpl in Ht, Hfam; try (injection Hfam as _ _ Hv);
      try (rewrite Hv in Ht; discriminate Ht).
    discriminate Hfam.
  - intros k h Hin. apply Hmem'. exists k, (MHistogram h).
    split_and!; [done | done |]. simpl. rewrite <- (Hfield k _ Hin).
    do 2 f_equal. by rewrite <- list_fmap_compose.
Qed.

Lemma collect_own_snapshot_witness :
  CustomToPrometheusMetricsCollector.outcome
    (CustomToPrometheusMetricsCollector.collect example_settings example_namespace
       (Redis.set empty_world
          (Metrics.instance_key example_settings example_namespace "awx-1")
          (Metrics.serialize_local_metrics example_namespace empty_world)))
  = Ok tt.
Proof.
  pose proof (collect_own_snapshot example_settings example_namespace
                (Redis.set empty_world
                   (Metrics.instance_key example_settings example_namespace "awx-1")
                   (Metrics.serialize_local_metrics example_namespace empty_world))
                empty_world) as H.
  cbn zeta in H. apply H.
  - by vm_compute.
  - reflexivity.
  - unfold snapshot_of, Redis.get, Redis.set, Metrics.serialize_local_metrics.
    cbn [strings]. by rewrite lookup_insert_eq.
Defined.

(** X9.  The collector without a snapshot of this node.  With no snapshot at
    all it logs one debug record and stops without yielding.  When some node
    has a snapshot but [CLUSTER_HOST_ID] has none (a namespace object that
    runs under another instance name, or that has not broadcast yet),
    [host_metrics] is [None] and the first [host_metrics.get] raises
    [AttributeError]: nothing is yielded and nothing is logged. *)
Theorem collect_without_own_snapshot (cfg : settings) (self : Metrics.t) (conn : world) :
  namespace_wf self = true ->
  snapshot_of cfg self conn (CLUSTER_HOST_ID cfg) = None ->
  ((forall name, snapshot_of cfg self conn name = None) ->
   CustomToPrometheusMetricsCollector.collect cfg self conn
   = CustomToPrometheusMetricsCollector.mk_run []
       [debug_no_metric_data (Metrics._namespace self)] (Ok tt)) /\
  (forall names name j,
     Metrics.instance_names cfg self conn = Ok names ->
     name ∈ names ->
     snapshot_of cfg self conn name = Some j ->
     CustomToPrometheusMetricsCollector.collect cfg self conn
     = CustomToPrometheusMetricsCollector.mk_run [] [] (Raise AttributeError)).
Proof.
  intros Hwf Hhost.
  destruct (namespace_wf_inv self Hwf) as (_ & _ & _ & Hself & _).
  apply self_metric_ok_inv in Hself as (m0 & Hm0 & _).
  unfold CustomToPrometheusMetricsCollector.collect.
  destruct (load_other_metrics_ok cfg self conn (mk_request [] []))
    as (names & Hnames & _ & ->). simpl. split.
  - intros Hnone. by rewrite load_nothing.
  - intros names' name j Hnames' Hin Hj.
    assert (names' = names) as -> by congruence.
    assert (Hname : odict.get (foldl (Metrics.load_instance cfg self conn []) [] names) name
                    = Some j).
    { rewrite load_get, bool_decide_eq_true_2 by done. simpl. by rewrite Hj. }
    assert (Hnohost : odict.get (foldl (Metrics.load_instance cfg self conn []) [] names)
                        (CLUSTER_HOST_ID cfg) = None).
    { rewrite load_get, Hhost. by destruct (_ && _). }
    destruct (foldl _ [] names) as [|nj data]; [done |].
    rewrite Hnohost.
    destruct (Metrics.METRICS self) as [|[k m] metrics]; [done |]. done.
Qed.

Lemma collect_without_own_snapshot_witness :
  CustomToPrometheusMetricsCollector.collect example_settings example_namespace
    (Redis.set empty_world
       (Metrics.instance_key example_settings example_namespace "awx-2")
       (BJson (JDict [("task_manager_tasks_started", JNum 3)])))
  = CustomToPrometheusMetricsCollector.mk_run [] [] (Raise AttributeError).
Proof.
  pose proof (collect_without_own_snapshot example_settings example_namespace
                (Redis.set empty_world
                   (Metrics.instance_key example_settings example_namespace "awx-2")
                   (BJson (JDict [("task_manager_tasks_started", JNum 3)])))) as H.
  destruct H as [_ H]; [by vm_compute | by vm_compute |].
  apply (H ["awx-1"; "awx-2"] "awx-2" (JDict [("task_manager_tasks_started", JNum 3)])).
  - by vm_compute.
  - apply (bool_decide_unpack _). by vm_compute.
  - by vm_compute.
Defined.

(** ** What a flush writes to the hash *)

Lemma run_cmds_frame (h : gmap string Z) (cs : list cmd) (f : string) :
  (forall x, x ∈ cs -> cmd_field x <> f) -> run_cmds h cs !! f = h !! f.
Proof.
  induction cs as [|c cs IH] using rev_ind; intros Hcs; [done |].
  rewrite run_cmds_snoc.
  assert (Hc : cmd_field c <> f).
  { apply Hcs, elem_of_app. right. apply list_elem_of_here. }
  assert (Hrest : run_cmds h cs !! f = h !! f).
  { apply IH. intros x Hx. apply Hcs, elem_of_app. by left. }
  destruct c as [g v | g a | g a]; simpl in *; unfold hincr;
    by rewrite lookup_insert_ne.
Qed.

Lemma odict_values_set_elem {K V} `{EqDecision K} (d : list (K * V)) (k : K) (v x : V) :
  x ∈ odict.values (odict.set d k v) -> x = v \/ x ∈ odict.values d.
Proof.
  unfold odict.values. induction d as [|[k0 v0] d IH]; simpl.
  - intros Hx. apply list_elem_of_singleton in Hx. by left.
  - destruct (decide (k0 = k)); simpl; intros Hx.
    + apply elem_of_cons in Hx as [-> | Hx]; [by left |].
      right. by apply list_elem_of_further.
    + apply elem_of_cons in Hx as [-> | Hx]; [right; apply list_elem_of_here |].
      destruct (IH Hx) as [-> | Hin]; [by left |]. right. by apply list_elem_of_further.
Qed.

Lemma odict_get_values {K V} `{EqDecision K} (d : list (K * V)) (k : K) (v : V) :
  odict.get d k = Some v -> v ∈ odict.values d.
Proof.
  unfold odict.values. induction d as [|[k0 v0] d IH]; simpl; [done |].
  destruct (decide (k0 = k)).
  - intros [= ->]. apply list_elem_of_here.
  - intros Hv. by apply list_elem_of_further, IH.
Qed.

Lemma store_loop_fields (bs : list Z) (d d' : list (Z * BaseM.t)) (out out' : list cmd) :
  HistogramM.store_loop bs d out = Ok (d', out') ->
  forall x, x ∈ out' -> x ∈ out \/ cmd_field x ∈ BaseM.field <$> odict.values d.
Proof.
  revert d out. induction bs as [|b bs IH]; simpl; intros d out Hloop x Hx.
  - injection Hloop as -> ->. by left.
  - unfold odict.subscript in Hloop.
    destruct (odict.get d b) as [m|] eqn:Hm; [| done]. simpl in Hloop.
    pose proof (odict_get_values d b m Hm) as Hmd.
    unfold IntM.store_value in Hloop.
    destruct (BaseM.metric_has_changed m).
    + destruct (IH _ _ Hloop x Hx) as [Hout | Hf].
      * apply elem_of_app in Hout as [Hout | Hc]; [by left |].
        apply list_elem_of_singleton in Hc as ->. right. simpl.
        apply list_elem_of_fmap. by exists m.
      * right. apply list_elem_of_fmap in Hf as (y & -> & Hy).
        apply odict_values_set_elem in Hy as [-> | Hy]; simpl;
          apply list_elem_of_fmap; eauto.
    + rewrite app_nil_r in Hloop.
      destruct (IH _ _ Hloop x Hx) as [Hout | Hf]; [by left |].
      right. apply list_elem_of_fmap in Hf as (y & -> & Hy).
      apply odict_values_set_elem in Hy as [-> | Hy]; apply list_elem_of_fmap; eauto.
Qed.

(** [store_value] writes to the fields of its metric only. *)
Lemma written_fields (m : metric) (x : cmd) :
  x ∈ written m -> cmd_field x ∈ hash_fields m.
Proof.
  unfold written.
  destruct m as [b | b | b | b | h]; simpl;
    try (unfold FloatM.store_value, IntM.store_value, SetFloatM.store_value,
           SetIntM.store_value;
         destruct (BaseM.metric_has_changed b); simpl; intros Hx;
         [apply list_elem_of_singleton in Hx as ->; apply list_elem_of_here
         | by apply elem_of_nil in Hx]).
  unfold HistogramM.store_value.
  destruct (HistogramM.store_loop _ _ _) as [[d' c_b]|e] eqn:Hloop; simpl;
    [| intros Hx; by apply elem_of_nil in Hx].
  unfold IntM.store_value.
  destruct (BaseM.metric_has_changed (HistogramM.sum h)),
    (BaseM.metric_has_changed (HistogramM.inf h)); simpl; intros Hx;
    (apply elem_of_app in Hx as [Hx | Hx];
     [destruct (store_loop_fields _ _ _ _ _ Hloop x Hx) as [Hnil | Hf];
      [by apply elem_of_nil in Hnil | apply elem_of_app; by left]
     | apply elem_of_app; right;
       repeat (apply elem_of_cons in Hx as [-> | Hx]; [by repeat constructor |]);
       by apply elem_of_nil in Hx]).
Qed.

Lemma flat_map_written_fields (d : list (string * metric)) (x : cmd) :
  x ∈ flat_map (fun km => written km.2) d ->
  cmd_field x ∈ flat_map hash_fields (odict.values d).
Proof.
  unfold odict.values. induction d as [|[k m] d IH]; simpl; intros Hx.
  - by apply elem_of_nil in Hx.
  - apply elem_of_app in Hx as [Hx | Hx]; apply elem_of_app.
    + left. by apply written_fields.
    + right. by apply IH.
Qed.

(** Among metrics with separate fields, the commands of a flush act on the
    fields of a metric as the commands of this metric alone. *)
Lemma flush_field (d : list (string * metric)) (h : gmap string Z) (k : string)
    (m : metric) :
  NoDup (flat_map hash_fields (odict.values d)) ->
  (k, m) ∈ d ->
  exists h1,
    (forall g, g ∈ hash_fields m -> h1 !! g = h !! g) /\
    forall f, f ∈ hash_fields m ->
      run_cmds h (flat_map (fun km => written km.2) d) !! f = run_cmds h1 (written m) !! f.
Proof.
  intros Hnd Hin.
  apply list_elem_of_split in Hin as (d1 & d2 & ->).
  unfold odict.values in Hnd. rewrite fmap_app, flat_map_app in Hnd. simpl in Hnd.
  apply NoDup_app in Hnd as (_ & Hd1 & Hnd).
  apply NoDup_app in Hnd as (_ & Hd2 & _).
  rewrite flat_map_app. simpl. rewrite !run_cmds_app.
  exists (run_cmds h (flat_map (fun km => written km.2) d1)). split.
  - intros g Hg. apply run_cmds_frame. intros x Hx Heq.
    apply flat_map_written_fields in Hx. rewrite Heq in Hx. apply (Hd1 _ Hx).
    apply elem_of_app. by left.
  - intros f Hf. apply run_cmds_frame. intros x Hx Heq.
    apply flat_map_written_fields in Hx. rewrite Heq in Hx. by apply (Hd2 _ Hf).
Qed.

Lemma store_values_pipe (ks : list string) (s : Metrics.state) :
  NoDup ks ->
  (forall k, k ∈ ks -> k ∈ odict.keys (Metrics.METRICS (Metrics.self s))) ->
  forallb metric_wf (odict.values (Metrics.METRICS (Metrics.self s))) = true ->
  Metrics.pipe (Metrics.self (Metrics.store_values ks s).2)
  = Metrics.pipe (Metrics.self s)
    ++ flat_map (fun k => from_option written []
                            (odict.get (Metrics.METRICS (Metrics.self s)) k)) ks.
Proof.
  intros Hnd. revert s. induction Hnd as [|k ks Hk Hnd IH]; intros s Hin Hwf.
  - simpl. by rewrite app_nil_r.
  - destruct (odict_keys_get (Metrics.METRICS (Metrics.self s)) k) as [m Hm].
    { apply Hin, list_elem_of_here. }
    pose proof (odict_values_get_wf _ _ _ Hwf Hm) as Hmwf.
    destruct (metric_store_value_ok m Hmwf) as (m' & c & Hst & Hwf').
    cbn [Metrics.store_values flat_map]. run. unfold odict.subscript. rewrite Hm. run.
    rewrite Hst. run.
    match goal with
    | |- context [Metrics.store_values ks ?x] => rewrite (IH x)
    end.
    + simpl. rewrite <- app_assoc. f_equal. f_equal.
      * unfold written. by rewrite Hst.
      * rewrite !flat_map_concat_map. f_equal. apply map_ext_in.
        intros k0 Hk0. rewrite odict_get_set_ne; [done |].
        intros ->. apply Hk. by apply list_elem_of_In.
    + simpl. intros k0 Hk0. rewrite odict_keys_set_present by eauto.
      by apply Hin, list_elem_of_further.
    + simpl. by apply odict_values_set_wf.
Qed.

Lemma flat_map_written_keys (d : list (string * metric)) :
  NoDup (odict.keys d) ->
  flat_map (fun k => from_option written [] (odict.get d k)) (odict.keys d)
  = flat_map (fun km => written km.2) d.
Proof.
  intros Hnd. unfold odict.keys.
  rewrite flat_map_concat_map, flat_map_concat_map. f_equal.
  change (@map string (list cmd)) with (@fmap list _ string (list cmd)).
  change (@map (string * metric) string) with (@fmap list _ (string * metric) string).
  change (@map (string * metric) (list cmd)) with (@fmap list _ (string * metric) (list cmd)).
  rewrite <- list_fmap_compose. apply Forall_fmap_ext_1, Forall_forall.
  intros [k m] Hin. simpl. by rewrite (odict_elem_get d k m Hnd Hin).
Qed.

Lemma send_metrics_hash (cfg : settings) (env : send_env) (s : Metrics.state) (f : string) :
  f <> BaseM.field (Metrics.previous_send_metrics (Metrics.self s)) ->
  hash (Metrics.conn (Metrics.send_metrics cfg env s).2) !! f = hash (Metrics.conn s) !! f.
Proof.
  intros Hf. destruct s as [self w]. simpl in *.
  destruct (locks w !! Metrics.lock_name cfg self) as [t|] eqn:Hlock.
  - by rewrite send_metrics_contended by (simpl; rewrite Hlock; eauto).
  - rewrite send_metrics_cases by done.
    assert (Hrel : forall w0, hash (released cfg env self w0) = hash w0).
    { intros w0. unfold released, Redis.release, Redis.happen.
      destruct (lock_fate env); simpl; by case_decide. }
    destruct (broadcast_due _ _ _);
      [destruct (emit_channel_notification _ _) as [[]|e] |]; simpl; rewrite Hrel.
    + simpl. by rewrite lookup_insert_ne.
    + done.
    + done.
Qed.

Lemma pipe_execute_hash (cfg : settings) (env : flush_env) (self : Metrics.t) (w : world)
    (f : string) :
  namespace_wf self = true ->
  Metrics.metrics_have_changed self = true ->
  f <> "send_metrics_time" ->
  hash (Metrics.conn (Metrics.pipe_execute cfg env (Metrics.mk_state self w)).2) !! f
  = run_cmds (hash w)
      (Metrics.pipe self ++ flat_map (fun km => written km.2) (Metrics.METRICS self)) !! f.
Proof.
  intros Hwf Hdirty Hf.
  destruct (namespace_wf_inv self Hwf) as (Hnd & _ & Hall & H1 & H2 & H3 & Hts).
  destruct (self_metric_ok_inv _ _ H1) as (m1 & Hm1 & _).
  destruct (self_metric_ok_inv _ _ H2) as (m2 & Hm2 & _).
  destruct (self_metric_ok_inv _ _ H3) as (m3 & Hm3 & _).
  destruct (store_values_spec (odict.keys (Metrics.METRICS self)) (Metrics.mk_state self w))
    as (d' & cs & Hrun & Hkeys & Hwfd & Hget); [done | done | done |].
  pose proof (store_values_pipe (odict.keys (Metrics.METRICS self)) (Metrics.mk_state self w)
                Hnd (fun k Hk => Hk) Hall) as Hpipe.
  rewrite Hrun in Hpipe. simpl in Hpipe. apply app_inv_head in Hpipe.
  rewrite flat_map_written_keys in Hpipe by done. subst cs.
  assert (Hget' : forall k, odict.get d' k = stored <$> odict.get (Metrics.METRICS self) k).
  { intros k. rewrite Hget. simpl.
    destruct (decide (k ∈ odict.keys (Metrics.METRICS self))) as [|Hn]; [done |].
    destruct (odict.get (Metrics.METRICS self) k) eqn:Hk; [| done].
    apply odict_get_Some_keys in Hk. contradiction. }
  simpl in Hrun.
  unfold Metrics.pipe_execute. rewrite bind_run. unfold Metrics.get_state. simpl.
  rewrite Hdirty. rewrite bind_run, Hrun. rewrite bind_run, execute_run.
  do 2 (rewrite bind_run; unfold Metrics.on_self at 1; simpl).
  rewrite bind_run. erewrite inc_direct_run by (simpl; rewrite Hget', Hm1; reflexivity).
  rewrite bind_run. erewrite inc_direct_run
    by (simpl; rewrite odict_get_set_ne by done; rewrite Hget', Hm2; reflexivity).
  rewrite bind_run.
  match goal with
  | |- context [Metrics.send_metrics cfg (send env) (Metrics.mk_state ?a ?b)] =>
      destruct (send_metrics_self cfg (send env) a b) as (p & Hself);
      pose proof (send_metrics_hash cfg (send env) (Metrics.mk_state a b) f) as Hhash;
      destruct (Metrics.send_metrics cfg (send env) (Metrics.mk_state a b)) as [res [self' w']]
  end.
  simpl in Hself, Hhash. subst self'. rewrite Hts in Hhash. specialize (Hhash Hf).
  destruct res as [[]|e].
  - erewrite inc_direct_run
      by (simpl; rewrite !odict_get_set_ne by done; rewrite Hget', Hm3; reflexivity).
    simpl. by rewrite Hhash.
  - simpl. by rewrite Hhash.
Qed.

(** ** A broadcast the transport refuses *)

(** X11.  When the transport raises, [send_metrics] has already stored the
    snapshot of this node, but it has written no timestamp and changed
    nothing in the namespace object: the exception leaves the method, the
    hash and the channel are as before, and the broadcast is still due at
    any later time, so the next call that gets the lock tries again. *)
Theorem send_metrics_transport_failure (cfg : settings) (env : send_env)
    (self : Metrics.t) (w : world) (e : exn) :
  locks w !! Metrics.lock_name cfg self = None ->
  broadcast_due env self w = true ->
  emit_channel_notification env (broadcast_payload self w) = Raise e ->
  let r := Metrics.send_metrics cfg env (Metrics.mk_state self w) in
  r.1 = Raise e /\
  Metrics.self r.2 = self /\
  hash (Metrics.conn r.2) = hash w /\
  channel (Metrics.conn r.2) = channel w /\
  strings (Metrics.conn r.2)
  = <[Metrics.instance_key cfg self (Metrics.instance_name self) :=
        Metrics.serialize_local_metrics self w]> (strings w) /\
  forall env2 : send_env,
    current_time env <= current_time env2 ->
    broadcast_due env2 (Metrics.self r.2) (Metrics.conn r.2) = true.
Proof.
  intros Hfree Hdue Hemit. cbn zeta.
  rewrite send_metrics_cases by done.
  set (w1 := locked cfg env self w).
  assert (Hheld : locks w1 !! Metrics.lock_name cfg self = Some (lock_token env))
    by (unfold w1, locked; simpl; apply lookup_insert_eq).
  change (broadcast_due env self w1) with (broadcast_due env self w).
  change (broadcast_payload self w1) with (broadcast_payload self w).
  rewrite Hdue, Hemit. simpl.
  destruct (released_spec cfg env self
              (Redis.set w1 (Metrics.instance_key cfg self (Metrics.instance_name self))
                 (Metrics.serialize_local_metrics self w1))) as (Hh & Hs & Hc & _); [done |].
  split_and!; [done | done | by rewrite Hh | by rewrite Hc | by rewrite Hs |].
  intros env2 Hlater. unfold broadcast_due in *. rewrite Hh. simpl.
  apply Z.gtb_lt. apply Z.gtb_lt in Hdue. lia.
Qed.

Lemma send_metrics_transport_failure_witness :
  (Metrics.send_metrics example_settings
     (mk_send_env "token" 130 (fun _ => Raise TransportError) lock_kept)
     (Metrics.mk_state example_namespace empty_world)).1
  = Raise TransportError.
Proof.
  pose proof (send_metrics_transport_failure example_settings
                (mk_send_env "token" 130 (fun _ => Raise TransportError) lock_kept)
                example_namespace empty_world TransportError) as H.
  cbn zeta in H. apply H; reflexivity.
Defined.

(** ** Storing a histogram *)

Lemma odict_get_app_fresh {K V} `{EqDecision K} (d1 d2 : list (K * V)) (k : K) :
  k ∉ odict.keys d1 -> odict.get (d1 ++ d2) k = odict.get d2 k.
Proof.
  unfold odict.keys. induction d1 as [|[k0 v0] d1 IH]; simpl; intros Hk; [done |].
  apply not_elem_of_cons in Hk as [Hne Hk]. rewrite decide_False by done. by apply IH.
Qed.

Lemma odict_set_app_fresh {K V} `{EqDecision K} (d1 d2 : list (K * V)) (k : K) (v : V) :
  k ∉ odict.keys d1 -> odict.set (d1 ++ d2) k v = d1 ++ odict.set d2 k v.
Proof.
  unfold odict.keys. induction d1 as [|[k0 v0] d1 IH]; simpl; intros Hk; [done |].
  apply not_elem_of_cons in Hk as [Hne Hk]. rewrite decide_False by done.
  f_equal. by apply IH.
Qed.

(** On a dictionary keyed by the boundaries, the loop of [store_value]
    stores every sub-counter once, in order. *)
Lemma store_loop_keyed (pre suf : list (Z * BaseM.t)) (out : list cmd) :
  NoDup (odict.keys pre ++ odict.keys suf) ->
  HistogramM.store_loop (odict.keys suf) (pre ++ suf) out
  = Ok (pre ++ ((fun kv => (kv.1, (IntM.store_value kv.2).1)) <$> suf),
        out ++ flat_map (fun kv => (IntM.store_value kv.2).2) suf).
Proof.
  revert pre out. induction suf as [|[b m] suf IH]; intros pre out Hnd.
  - simpl. by rewrite !app_nil_r.
  - assert (Hfresh : b ∉ odict.keys pre).
    { apply NoDup_app in Hnd as (_ & Hdis & _). intros Hin. apply (Hdis b Hin).
      apply list_elem_of_here. }
    change (odict.keys ((b, m) :: suf)) with (b :: odict.keys suf) in *.
    cbn [HistogramM.store_loop].
    unfold odict.subscript. rewrite odict_get_app_fresh by done.
    cbn [odict.get]. rewrite decide_True by done. cbn [mbind result_bind].
    destruct (IntM.store_value m) as [m' c] eqn:Hst.
    rewrite odict_set_app_fresh by done. cbn [odict.set]. rewrite decide_True by done.
    change (pre ++ (b, m') :: suf) with (pre ++ [(b, m')] ++ suf).
    rewrite app_assoc.
    rewrite IH.
    + simpl. rewrite Hst. simpl. by rewrite <- !app_assoc.
    + unfold odict.keys in *. rewrite fmap_app. simpl. rewrite <- app_assoc. done.
Qed.

Lemma int_store_field (b : BaseM.t) :
  BaseM.field (IntM.store_value b).1 = BaseM.field b.
Proof. unfold IntM.store_value. by destruct (BaseM.metric_has_changed b). Qed.

Lemma int_store_twice (b : BaseM.t) :
  IntM.store_value (IntM.store_value b).1 = ((IntM.store_value b).1, []).
Proof.
  unfold IntM.store_value. by destruct (BaseM.metric_has_changed b) eqn:Hc; simpl; rewrite ?Hc.
Qed.

(** The value of a counter in the hash after its own commands. *)
Lemma int_decode_flushed (b : BaseM.t) (conn h1 : gmap string Z) :
  h1 !! BaseM.field b = conn !! BaseM.field b ->
  IntM.decode_value (run_cmds h1 (written (MInt b)) !! BaseM.field b)
  = IntM.decode conn b + pending b.
Proof.
  intros Hh1. unfold written, IntM.decode, BaseM.decode, pending. simpl.
  unfold IntM.store_value. destruct (BaseM.metric_has_changed b); simpl.
  - unfold hincr. rewrite lookup_insert_eq, Hh1. simpl.
    by destruct (conn !! BaseM.field b).
  - rewrite Hh1. destruct (conn !! BaseM.field b); simpl; lia.
Qed.

(** The sub-counters of a histogram, seen as counters of their own. *)
Lemma histogram_written (h : HistogramM.t) :
  flat_map (fun km : string * metric => written km.2)
    (((fun kv => (BaseM.field kv.2, MInt kv.2)) <$> HistogramM.buckets_to_keys h)
     ++ [(BaseM.field (HistogramM.sum h), MInt (HistogramM.sum h));
         (BaseM.field (HistogramM.inf h), MInt (HistogramM.inf h))])
  = flat_map (fun kv => (IntM.store_value kv.2).2) (HistogramM.buckets_to_keys h)
    ++ (IntM.store_value (HistogramM.sum h)).2 ++ (IntM.store_value (HistogramM.inf h)).2.
Proof.
  assert (Hw : forall b, written (MInt b) = (IntM.store_value b).2).
  { intros b. unfold written. simpl. by destruct (IntM.store_value b). }
  rewrite flat_map_app. f_equal.
  - induction (HistogramM.buckets_to_keys h) as [|kv d IH]; [done |].
    cbn [fmap list_fmap flat_map snd]. f_equal; [apply Hw | apply IH].
  - cbn [flat_map snd]. by rewrite !Hw, app_nil_r.
Qed.

Lemma histogram_sub_fields (h : HistogramM.t) :
  flat_map hash_fields
    (odict.values
       (((fun kv => (BaseM.field kv.2, MInt kv.2)) <$> HistogramM.buckets_to_keys h)
        ++ [(BaseM.field (HistogramM.sum h), MInt (HistogramM.sum h));
            (BaseM.field (HistogramM.inf h), MInt (HistogramM.inf h))]))
  = hash_fields (MHistogram h).
Proof.
  unfold odict.values. rewrite fmap_app, flat_map_app. simpl. f_equal.
  induction (HistogramM.buckets_to_keys h) as [|kv d IH]; [done |].
  cbn [fmap list_fmap flat_map snd hash_fields] in *. unfold Metric.field. simpl.
  f_equal. apply IH.
Qed.

Lemma flat_map_stored_nil (d : list (Z * BaseM.t)) :
  flat_map (fun kv => (IntM.store_value kv.2).2)
    ((fun kv : Z * BaseM.t => (kv.1, (IntM.store_value kv.2).1)) <$> d) = [].
Proof.
  induction d as [|kv d IH]; [done |].
  cbn [fmap list_fmap flat_map snd]. rewrite int_store_twice. simpl. apply IH.
Qed.

Lemma histogram_store_spec (h : HistogramM.t) (conn : gmap string Z) :
  histogram_keyed h ->
  NoDup (HistogramM.buckets h) ->
  NoDup (hash_fields (MHistogram h)) ->
  exists h' c,
    HistogramM.store_value h = Ok (h', c) /\
    HistogramM.decode (run_cmds conn c) h'
    = JDict [("counts",
              JList ((fun kv => JNum (IntM.decode conn kv.2 + pending kv.2))
                       <$> HistogramM.buckets_to_keys h));
             ("sum", JNum (IntM.decode conn (HistogramM.sum h) + pending (HistogramM.sum h)));
             ("inf", JNum (IntM.decode conn (HistogramM.inf h) + pending (HistogramM.inf h)))] /\
    histogram_keyed h' /\
    HistogramM.store_value h' = Ok (h', []) /\
    HistogramM.buckets h' = HistogramM.buckets h /\
    HistogramM.base h' = HistogramM.base h /\
    BaseM.field <$> sub_counters h' = BaseM.field <$> sub_counters h.
Proof.
  intros Hkeyed Hnd Hfields.
  unfold HistogramM.store_value. rewrite <- Hkeyed.
  pose proof (store_loop_keyed [] (HistogramM.buckets_to_keys h) []) as Hloop.
  simpl in Hloop. rewrite Hloop by (by rewrite Hkeyed). clear Hloop. simpl.
  destruct (IntM.store_value (HistogramM.sum h)) as [sum' c_sum] eqn:Hsum.
  destruct (IntM.store_value (HistogramM.inf h)) as [inf' c_inf] eqn:Hinf.
  do 2 eexists. split; [reflexivity |].
  set (d := ((fun kv => (BaseM.field kv.2, MInt kv.2)) <$> HistogramM.buckets_to_keys h)
            ++ [(BaseM.field (HistogramM.sum h), MInt (HistogramM.sum h));
                (BaseM.field (HistogramM.inf h), MInt (HistogramM.inf h))]).
  assert (Hcmds : flat_map (fun kv => (IntM.store_value kv.2).2) (HistogramM.buckets_to_keys h)
                  ++ c_sum ++ c_inf
                  = flat_map (fun km : string * metric => written km.2) d).
  { unfold d. by rewrite histogram_written, Hsum, Hinf. }
  rewrite Hcmds.
  assert (Hsub : forall b : BaseM.t,
    (BaseM.field b, MInt b) ∈ d ->
    IntM.decode (run_cmds conn (flat_map (fun km : string * metric => written km.2) d))
      (IntM.store_value b).1
    = IntM.decode conn b + pending b).
  { intros b Hin.
    destruct (flush_field d conn (BaseM.field b) (MInt b)) as (h1 & Hh1 & Hrun).
    - unfold d. by rewrite histogram_sub_fields.
    - done.
    - unfold IntM.decode at 1, BaseM.decode.
      rewrite int_store_field, Hrun by apply list_elem_of_here.
      apply int_decode_flushed, Hh1, list_elem_of_here. }
  split_and!.
  - unfold HistogramM.decode. simpl.
    replace sum' with (IntM.store_value (HistogramM.sum h)).1 by by rewrite Hsum.
    replace inf' with (IntM.store_value (HistogramM.inf h)).1 by by rewrite Hinf.
    rewrite !Hsub.
    + do 4 f_equal. rewrite <- list_fmap_compose.
      apply Forall_fmap_ext_1, Forall_forall. intros kv Hkv. simpl. f_equal.
      apply Hsub. unfold d. apply elem_of_app. left.
      apply list_elem_of_fmap. by exists kv.
    + unfold d. apply elem_of_app. right. apply list_elem_of_further, list_elem_of_here.
    + unfold d. apply elem_of_app. right. apply list_elem_of_here.
  - unfold histogram_keyed. simpl. unfold odict.keys. rewrite <- list_fmap_compose.
    by apply list_fmap_ext.
  - simpl.
    assert (Hkeys' : odict.keys ((fun kv : Z * BaseM.t => (kv.1, (IntM.store_value kv.2).1))
                                   <$> HistogramM.buckets_to_keys h)
                     = odict.keys (HistogramM.buckets_to_keys h)).
    { unfold odict.keys. rewrite <- list_fmap_compose. by apply list_fmap_ext. }
    rewrite <- Hkeys'.
    pose proof (store_loop_keyed []
                  ((fun kv : Z * BaseM.t => (kv.1, (IntM.store_value kv.2).1))
                     <$> HistogramM.buckets_to_keys h) []) as Hloop.
    simpl in Hloop. rewrite Hloop by (by rewrite Hkeys', Hkeyed). clear Hloop. simpl.
    replace sum' with (IntM.store_value (HistogramM.sum h)).1 by by rewrite Hsum.
    replace inf' with (IntM.store_value (HistogramM.inf h)).1 by by rewrite Hinf.
    rewrite !int_store_twice. simpl. f_equal. f_equal.
    + f_equal. rewrite <- list_fmap_compose. apply list_fmap_ext. intros _ [b m] _. simpl.
      by rewrite int_store_twice.
    + rewrite app_nil_r. apply flat_map_stored_nil.
  - simpl. by rewrite Hkeyed.
  - done.
  - unfold sub_counters, odict.values. simpl. rewrite !fmap_app. simpl.
    replace sum' with (IntM.store_value (HistogramM.sum h)).1 by by rewrite Hsum.
    replace inf' with (IntM.store_value (HistogramM.inf h)).1 by by rewrite Hinf.
    rewrite !int_store_field. f_equal. rewrite <- !list_fmap_compose.
    apply list_fmap_ext. intros _ [b m] _. simpl. apply int_store_field.
Qed.




(** ** The fields of a new histogram *)

Lemma odict_set_absent {K V} `{EqDecision K} (d : list (K * V)) (k : K) (v : V) :
  odict.get d k = None -> odict.set d k v = d ++ [(k, v)].
Proof.
  induction d as [|[k0 v0] d IH]; simpl; [done |].
  destruct (decide (k0 = k)); [done |]. intros Hk. by rewrite IH.
Qed.

Lemma histogram_init_entries_from (field : string) (bs : list Z) (d : list (Z * BaseM.t)) :
  NoDup bs ->
  (forall b, b ∈ bs -> odict.get d b = None) ->
  foldl (fun d b => odict.set d b (HistogramM.bucket_key field b)) d bs
  = d ++ ((fun b => (b, HistogramM.bucket_key field b)) <$> bs).
Proof.
  intros Hnd. revert d. induction Hnd as [|x xs Hx Hnd IH]; simpl; intros d Hfresh.
  - by rewrite app_nil_r.
  - rewrite IH.
    + rewrite odict_set_absent by apply Hfresh, list_elem_of_here.
      by rewrite <- app_assoc.
    + intros b Hin. rewrite odict_get_set_ne.
      * apply Hfresh. by apply list_elem_of_further.
      * intros ->. contradiction.
Qed.

Lemma pretty_N_go_not_letter (x : N) (s : string) (c : Ascii.ascii) (t : string) :
  (forall n, pretty_N_char n <> c) ->
  s <> String c t -> pretty_N_go x s <> String c t.
Proof.
  intros Hc. revert s. induction (N.lt_wf_0 x) as [x _ IH]; intros s Hs.
  assert (x = 0 \/ 0 < x)%N as [-> | Hpos] by lia.
  - by rewrite pretty_N_go_0.
  - rewrite pretty_N_go_step by done. apply IH.
    + by apply N.div_lt.
    + intros [= Heq _]. by apply (Hc (x `mod` 10)%N).
Qed.

(** The decimal form of an integer is neither [sum] nor [inf]. *)
Lemma pretty_Z_not_word (b : Z) : pretty b <> "sum" /\ pretty b <> "inf".
Proof.
  assert (Hs : forall n, pretty_N_char n <> Ascii.ascii_of_nat 115).
  { intros n. unfold pretty_N_char. repeat case_match; vm_compute; discriminate. }
  assert (Hi : forall n, pretty_N_char n <> Ascii.ascii_of_nat 105).
  { intros n. unfold pretty_N_char. repeat case_match; vm_compute; discriminate. }
  destruct b as [|p|p]; [done | | done].
  unfold pretty, pretty_Z, pretty, pretty_positive, pretty, pretty_N.
  rewrite decide_False by done.
  split.
  - by apply (pretty_N_go_not_letter _ _ (Ascii.ascii_of_nat 115) "um").
  - by apply (pretty_N_go_not_letter _ _ (Ascii.ascii_of_nat 105) "nf").
Qed.

Lemma histogram_init_entries (field : string) (bs : list Z) (d : list (Z * BaseM.t)) :
  NoDup (odict.keys d) ->
  Forall (fun kv => kv.2 = HistogramM.bucket_key field kv.1) d ->
  let d' := foldl (fun d b => odict.set d b (HistogramM.bucket_key field b)) d bs in
  NoDup (odict.keys d') /\ Forall (fun kv => kv.2 = HistogramM.bucket_key field kv.1) d'.
Proof.
  revert d. induction bs as [|b bs IH]; intros d Hnd Hall; [done |].
  apply IH.
  - destruct (odict.get d b) as [v0|] eqn:Hk.
    + rewrite odict_keys_set_present by eauto. done.
    + rewrite odict_keys_set_absent by done.
      apply NoDup_app. split; [done |]. split; [| apply NoDup_singleton].
      intros x Hx Hin. apply list_elem_of_singleton in Hin as ->.
      by apply (odict_get_None_keys d b).
  - clear -Hall. induction d as [|[k v] d IHd]; simpl.
    + by repeat constructor.
    + apply Forall_cons in Hall as [Hkv Hall]. destruct (decide (k = b)) as [-> | Hne].
      * by constructor.
      * constructor; [done | by apply IHd].
Qed.

(** The constructor gives every sub-counter of a histogram a field of its
    own in the hash, whatever the list of boundaries. *)
Lemma histogram_init_fields (field help_text : string) (buckets : list Z) :
  NoDup (hash_fields (MHistogram (HistogramM.__init__ field help_text buckets))).
Proof.
  unfold hash_fields, HistogramM.__init__. simpl.
  destruct (histogram_init_entries field buckets []) as [Hnd Hall];
    [constructor | constructor |].
  set (d := foldl (fun d b => odict.set d b (HistogramM.bucket_key field b)) [] buckets) in *.
  assert (Hfields : BaseM.field <$> odict.values d
                    = (fun b => field +:+ "_" +:+ pretty b) <$> odict.keys d).
  { unfold odict.values, odict.keys. rewrite <- !list_fmap_compose.
    apply Forall_fmap_ext_1. eapply Forall_impl; [exact Hall |].
    intros [b m] Hm. simpl in *. by rewrite Hm. }
  rewrite Hfields.
  apply NoDup_app. split_and!.
  - apply NoDup_fmap_2_strong; [| done].
    intros b1 b2 _ _ Heq. simpl in Heq.
    apply (inj (String.app field)) in Heq. apply (inj (String.app "_")) in Heq.
    by apply (inj pretty) in Heq.
  - intros f Hf Hin. apply list_elem_of_fmap in Hf as (b & -> & _). simpl in Hin.
    destruct (pretty_Z_not_word b) as [Hsum Hinf].
    apply elem_of_cons in Hin as [Heq | Hin].
    + apply (inj (String.app field)) in Heq. apply (inj (String.app "_")) in Heq. done.
    + apply list_elem_of_singleton in Hin.
      apply (inj (String.app field)) in Hin. apply (inj (String.app "_")) in Hin. done.
  - apply NoDup_cons. split; [| apply NoDup_singleton].
    intros Hin. apply list_elem_of_singleton in Hin.
    by apply (inj (String.app field)) in Hin.
Qed.

(** ** From observations to the exposition *)

Lemma odict_set_Forall2 {K V} `{EqDecision K} (R : V -> V -> Prop)
    (d : list (K * V)) (k : K) (v v' : V) :
  (forall x, R x x) ->
  odict.get d k = Some v ->
  R v v' ->
  Forall2 (fun kv kv' => kv.1 = kv'.1 /\ R kv.2 kv'.2) d (odict.set d k v').
Proof.
  intros Hrefl. induction d as [|[k0 v0] d IH]; simpl; [done |].
  destruct (decide (k0 = k)) as [-> | Hne].
  - intros [= ->] HR. constructor; [done |].
    apply Forall2_same_length_lookup_2; [done |].
    intros i x y Hx Hy. assert (x = y) as -> by congruence. done.
  - intros Hv HR. constructor; [done | by apply IH].
Qed.

(** [observe] keeps the names of the sub-counters, and a counter it leaves
    clean still holds nothing. *)
Lemma observe_loop_rel (value : Z) (bs : list Z) (d d' : list (Z * BaseM.t)) :
  HistogramM.observe_loop value bs d = Ok d' ->
  Forall2 (fun kv kv' => kv.1 = kv'.1 /\
             (BaseM.field kv'.2 = BaseM.field kv.2 /\ (clean_zero kv.2 -> clean_zero kv'.2)))
    d d'.
Proof.
  assert (Hrefl : Forall2 (fun kv kv' : Z * BaseM.t => kv.1 = kv'.1 /\
             (BaseM.field kv'.2 = BaseM.field kv.2 /\ (clean_zero kv.2 -> clean_zero kv'.2)))
            d d).
  { apply Forall2_same_length_lookup_2; [done |].
    intros i x y Hx Hy. assert (x = y) as -> by congruence. done. }
  induction bs as [|b bs IH]; simpl.
  - by intros [= <-].
  - destruct (value <=? b); [| done].
    unfold odict.subscript. destruct (odict.get d b) as [m|] eqn:Hm; [| done]. simpl.
    intros [= <-].
    apply (odict_set_Forall2
             (fun m m' => BaseM.field m' = BaseM.field m /\ (clean_zero m -> clean_zero m'))
             d b m); [done | done |].
    split; [done |]. intros _. unfold clean_zero. simpl. done.
Qed.

Lemma histogram_init_ok (field help_text : string) (buckets : list Z) :
  NoDup buckets -> histogram_ok (HistogramM.__init__ field help_text buckets).
Proof.
  intros Hnd. split_and!.
  - by apply histogram_init_keyed.
  - done.
  - pose proof (histogram_init_fields field help_text buckets) as Hf.
    unfold hash_fields in Hf. unfold sub_counters. by rewrite fmap_app.
  - unfold sub_counters, HistogramM.__init__. simpl.
    rewrite (histogram_init_entries_from field buckets []) by done. simpl.
    apply Forall_app. split; [| by repeat constructor].
    unfold odict.values. rewrite <- list_fmap_compose.
    apply Forall_fmap, Forall_forall. by intros b _.
Qed.

Lemma histogram_observe_keeps_ok (h h' : HistogramM.t) (value : Z) :
  histogram_ok h ->
  HistogramM.observe h value = Ok h' ->
  histogram_ok h' /\
  HistogramM.base h' = HistogramM.base h /\
  BaseM.field <$> sub_counters h' = BaseM.field <$> sub_counters h.
Proof.
  intros (Hkeyed & Hnd & Hfields & Hclean) Hobs.
  destruct (histogram_observe_step h value Hkeyed) as (h1 & Hobs1 & _ & _ & _ & Hb & Hk).
  assert (h1 = h') as -> by congruence. clear Hobs1.
  unfold HistogramM.observe in Hobs.
  destruct (HistogramM.observe_loop value (HistogramM.buckets h)
              (HistogramM.buckets_to_keys h)) as [d'|e] eqn:Hloop; [| done].
  simpl in Hobs. injection Hobs as <-.
  pose proof (observe_loop_rel _ _ _ _ Hloop) as Hrel.
  assert (Hsame : BaseM.field <$> odict.values d'
                  = BaseM.field <$> odict.values (HistogramM.buckets_to_keys h)).
  { clear -Hrel. unfold odict.values. induction Hrel as [|kv kv' d d' (_ & Hf & _) _ IH]; [done |].
    rewrite !fmap_cons. by rewrite Hf, IH. }
  assert (Hfs : BaseM.field <$> sub_counters
                  (HistogramM.mk (HistogramM.base h) (HistogramM.buckets h) d'
                     (BaseM.inc (HistogramM.inf h) 1) (BaseM.inc (HistogramM.sum h) value))
                = BaseM.field <$> sub_counters h).
  { unfold sub_counters.
    cbn [HistogramM.buckets_to_keys HistogramM.sum HistogramM.inf].
    rewrite !fmap_app, Hsame. done. }
  split; [| done]. split_and!; [done | done | by rewrite Hfs |].
  unfold sub_counters in *. simpl. apply Forall_app in Hclean as [Hclean _].
  apply Forall_app. split; [| by repeat constructor].
  clear -Hrel Hclean. unfold odict.values in *.
  induction Hrel as [|kv kv' d d' (_ & _ & Hc) _ IH]; [done |].
  simpl in *. apply Forall_cons in Hclean as [Hkv Hclean].
  constructor; [by apply Hc | by apply IH].
Qed.

Lemma observe_all_keeps_ok (h h' : HistogramM.t) (values : list Z) :
  histogram_ok h ->
  observe_all h values = Ok h' ->
  histogram_ok h' /\
  HistogramM.base h' = HistogramM.base h /\
  BaseM.field <$> sub_counters h' = BaseM.field <$> sub_counters h.
Proof.
  revert h. induction values as [|v values IH]; intros h Hok; simpl.
  - by intros [= <-].
  - destruct (HistogramM.observe h v) as [h1|e] eqn:Hobs; [| done]. simpl. intros Hall.
    destruct (histogram_observe_keeps_ok h h1 v Hok Hobs) as (Hok1 & Hb1 & Hf1).
    destruct (IH h1 Hok1 Hall) as (Hok' & Hb' & Hf'). split; [done |]. split; congruence.
Qed.

(** *** Cumulative counts *)

Lemma sum_take_add {A} (f g : A -> Z) (l : list A) (n : nat) :
  foldr Z.add 0 (take n ((fun x => f x + g x) <$> l))
  = foldr Z.add 0 (take n (f <$> l)) + foldr Z.add 0 (take n (g <$> l)).
Proof.
  revert n. induction l as [|x l IH]; intros [|n]; try done.
  rewrite !fmap_cons. cbn [take foldr]. rewrite IH. lia.
Qed.

Lemma sum_take_zero {A} (f : A -> Z) (l : list A) (n : nat) :
  (forall x, x ∈ l -> f x = 0) -> foldr Z.add 0 (take n (f <$> l)) = 0.
Proof.
  revert n. induction l as [|x l IH]; intros [|n] Hz; try done.
  rewrite fmap_cons. cbn [take foldr].
  rewrite Hz by apply list_elem_of_here. rewrite IH; [done |].
  intros y Hy. by apply Hz, list_elem_of_further.
Qed.

(** With ascending boundaries a value is counted, among the first buckets
    up to a boundary, exactly when it is at or below this boundary. *)
Lemma cumulative_one (v : Z) (t : option Z) (bs : list Z) :
  StronglySorted Z.lt bs ->
  t = first_bucket v bs ->
  forall i b, bs !! i = Some b ->
    foldr Z.add 0
      (take (S i) ((fun b' => if decide (t = Some b') then 1 else 0) <$> bs))
    = if decide (v <= b) then 1 else 0.
Proof.
  unfold first_bucket.
  induction 1 as [|x xs Hs IH Hall]; intros Ht i b Hb; [done |].
  rewrite List.Forall_forall in Hall. simpl in Ht.
  destruct (Z.leb_spec v x) as [Hle | Hgt].
  - subst t. rewrite fmap_cons. cbn [take foldr]. rewrite decide_True by done.
    rewrite sum_take_zero.
    + rewrite decide_True; [done |].
      destruct i as [|i]; simpl in Hb; [injection Hb as <-; lia |].
      apply list_elem_of_lookup_2, list_elem_of_In, Hall in Hb. lia.
    + intros y Hy. apply list_elem_of_In, Hall in Hy.
      rewrite decide_False; [done |]. intros [= ->]. lia.
  - rewrite fmap_cons. cbn [take foldr].
    assert (Hx : t <> Some x).
    { subst t. intros Hf. apply List.find_some in Hf as [_ Hf]. simpl in Hf. lia. }
    rewrite decide_False by done.
    destruct i as [|i]; simpl in Hb.
    + injection Hb as <-. simpl. rewrite decide_False; [done | lia].
    + rewrite (IH Ht i b Hb). lia.
Qed.

Lemma cumulative_counts (bs values : list Z) (i : nat) (b : Z) :
  StronglySorted Z.lt bs ->
  bs !! i = Some b ->
  foldr Z.add 0
    (take (S i)
       ((fun b' => Z.of_nat (length (filter (fun v => first_bucket v bs = Some b') values)))
          <$> bs))
  = count_le b values.
Proof.
  intros Hs Hb. unfold count_le. induction values as [|v values IH].
  - rewrite sum_take_zero; done.
  - rewrite filter_cons.
    transitivity
      (foldr Z.add 0
         (take (S i)
            ((fun b' =>
                (if decide (first_bucket v bs = Some b') then 1 else 0)
                + Z.of_nat (length (filter (fun v => first_bucket v bs = Some b') values)))
               <$> bs))).
    { f_equal. f_equal. apply list_fmap_ext. intros _ b' _. rewrite filter_cons.
      destruct (decide (first_bucket v bs = Some b')); simpl; lia. }
    rewrite sum_take_add, IH, (cumulative_one v _ bs Hs eq_refl i b Hb).
    destruct (decide (v <= b)); simpl; lia.
Qed.

(** *** The bucket lines *)

Lemma drop_cons_lookup {A} (l suf : list A) (i : nat) (x : A) :
  drop i l = x :: suf -> l !! i = Some x /\ drop (S i) l = suf.
Proof.
  revert i. induction l as [|y l IH]; intros [|i]; simpl; try done.
  - intros [= -> ->]. done.
  - apply IH.
Qed.

(** Each bucket line shows the sum of the stored counts up to its
    boundary. *)
Lemma buckets_render (h : HistogramM.t) (instance : string)
    (snapshot : list (string * json)) (hash_ : gmap string Z) (cum : Z -> Z) :
  odict.get snapshot (BaseM.field (HistogramM.base h)) = Some (HistogramM.decode hash_ h) ->
  (forall i b, HistogramM.buckets h !! i = Some b ->
     foldr Z.add 0 ((fun kv => IntM.decode hash_ kv.2)
                      <$> take (S i) (HistogramM.buckets_to_keys h)) = cum b) ->
  forall suf i out,
    drop i (HistogramM.buckets h) = suf ->
    HistogramM.to_prometheus_buckets h instance (JDict snapshot) i suf out
    = Ok (foldl (fun out b => out +:+ HistogramM.bucket_line h b instance (cum b)) out suf).
Proof.
  intros Hentry Hcum. induction suf as [|b suf IH]; intros i out Hdrop; [done |].
  apply drop_cons_lookup in Hdrop as [Hb Hdrop].
  cbn [HistogramM.to_prometheus_buckets json_subscript].
  unfold odict.subscript. rewrite Hentry. simpl.
  unfold py_sum. rewrite <- fmap_take, py_sum_from_decoded.
  rewrite Nat.add_1_r, (Hcum i b Hb). simpl. by apply IH.
Qed.

Lemma JNum_fmap_inj (l1 l2 : list Z) : JNum <$> l1 = JNum <$> l2 -> l1 = l2.
Proof.
  revert l2. induction l1 as [|x l1 IH]; intros [|y l2]; try done.
  rewrite !fmap_cons. intros [= -> Hl]. f_equal. by apply IH.
Qed.

(** X13.  From observations to the exposition.  A histogram built by the
    constructor from ascending boundaries, after any run of observations
    and a [store_value] into a hash that has none of its fields, decodes to
    the number of values that fell in each bucket, their sum and their
    number; and its exposition shows for every boundary the number of
    observed values at or below it, cumulatively, as the [le] label of
    Prometheus requires. *)
Theorem histogram_exposition_cumulative (field help_text instance : string)
    (buckets values : list Z) (conn : gmap string Z) :
  StronglySorted Z.lt buckets ->
  (forall f, f ∈ hash_fields (MHistogram (HistogramM.__init__ field help_text buckets)) ->
             conn !! f = None) ->
  exists h1 h2 c,
    observe_all (HistogramM.__init__ field help_text buckets) values = Ok h1 /\
    HistogramM.store_value h1 = Ok (h2, c) /\
    HistogramM.base h2 = BaseM.__init__ field help_text /\
    HistogramM.decode (run_cmds conn c) h2
    = JDict [("counts",
              JList ((fun b => JNum (Z.of_nat (length (filter
                                 (fun v => first_bucket v buckets = Some b) values))))
                       <$> buckets));
             ("sum", JNum (foldr Z.add 0 values));
             ("inf", JNum (Z.of_nat (length values)))] /\
    HistogramM.to_prometheus h2
      [(instance, JDict [(field, HistogramM.decode (run_cmds conn c) h2)])]
    = Ok (let out :=
            foldl (fun out b =>
                     out +:+ HistogramM.bucket_line h2 b instance (count_le b values))
              (BaseM.header (HistogramM.base h2) "histogram") buckets in
          let out :=
            out +:+ field +:+ "_bucket{le=" +:+ dquote +:+ "+Inf" +:+ dquote +:+
            ",node=" +:+ dquote +:+ instance +:+ dquote +:+ "} " +:+
            pretty (Z.of_nat (length values)) +:+ nl in
          let out :=
            out +:+ field +:+ "_count{node=" +:+ dquote +:+ instance +:+ dquote +:+ "} " +:+
            pretty (Z.of_nat (length values)) +:+ nl in
          out +:+ field +:+ "_sum{node=" +:+ dquote +:+ instance +:+ dquote +:+ "} " +:+
          pretty (foldr Z.add 0 values) +:+ nl).
Proof.
  intros Hsorted Hfresh.
  pose proof (ascending_NoDup buckets Hsorted) as Hnd.
  set (h0 := HistogramM.__init__ field help_text buckets) in *.
  pose proof (histogram_init_ok field help_text buckets Hnd) as Hok0. fold h0 in Hok0.
  destruct (observe_all_spec h0 values (proj1 Hok0))
    as (h1 & Hall & Hc & Hi & Hs & Hb & Hk1).
  destruct (observe_all_keeps_ok h0 h1 values Hok0 Hall)
    as ((_ & Hnd1 & Hfields1 & Hclean1) & Hbase1 & Hsame1).
  assert (Hhf : forall h, hash_fields (MHistogram h) = BaseM.field <$> sub_counters h).
  { intros h. unfold hash_fields, sub_counters. by rewrite fmap_app. }
  destruct (histogram_store_spec h1 conn Hk1 Hnd1)
    as (h2 & c & Hst & Hdec & Hk2 & _ & Hb2 & Hbase2 & Hsame2);
    [by rewrite Hhf |].
  exists h1, h2, c. split; [done |]. split; [done |].
  assert (Hbase : HistogramM.base h2 = BaseM.__init__ field help_text)
    by (by rewrite Hbase2, Hbase1).
  split; [done |].
  (* the stored values before the flush are absent, the pending ones are the counts *)
  assert (Hkeys1 : (HistogramM.buckets_to_keys h1).*1 = buckets).
  { unfold histogram_keyed, odict.keys in Hk1. by rewrite Hk1, Hb. }
  assert (Hzero : forall m, m ∈ sub_counters h1 -> IntM.decode conn m = 0).
  { intros m Hm. unfold IntM.decode, BaseM.decode. rewrite Hfresh; [done |].
    rewrite Hhf, <- Hsame1. apply list_elem_of_fmap. by exists m. }
  assert (Hpend : forall m, m ∈ sub_counters h1 -> pending m = BaseM.current_value m).
  { intros m Hm. rewrite Forall_forall in Hclean1. specialize (Hclean1 m Hm).
    unfold pending, clean_zero in *. destruct (BaseM.metric_has_changed m); [done |].
    by rewrite Hclean1. }
  assert (Hdecode :
    HistogramM.decode (run_cmds conn c) h2
    = JDict [("counts",
              JList ((fun b => JNum (Z.of_nat (length (filter
                                 (fun v => first_bucket v buckets = Some b) values))))
                       <$> buckets));
             ("sum", JNum (foldr Z.add 0 values));
             ("inf", JNum (Z.of_nat (length values)))]).
  { rewrite Hdec.
    rewrite (Hzero (HistogramM.sum h1)), (Hzero (HistogramM.inf h1)),
      (Hpend (HistogramM.sum h1)), (Hpend (HistogramM.inf h1)), Hs, Hi;
      try (unfold sub_counters; apply elem_of_app; right; by repeat constructor).
    simpl. do 4 f_equal.
    transitivity
      ((fun b => JNum (Z.of_nat (length (filter
                   (fun v => first_bucket v buckets = Some b) values))))
         <$> (HistogramM.buckets_to_keys h1).*1);
      [| f_equal; exact Hkeys1].
    rewrite <- list_fmap_compose.
    apply Forall_fmap_ext_1, Forall_forall. intros [b m] Hin. simpl.
    assert (Hm : m ∈ sub_counters h1).
    { unfold sub_counters. apply elem_of_app. left.
      apply list_elem_of_fmap. by exists (b, m). }
    rewrite (Hzero m Hm), (Hpend m Hm). f_equal.
    assert (Hget : odict.get (HistogramM.buckets_to_keys h1) b = Some m).
    { apply odict_elem_get; [| done]. unfold odict.keys. by rewrite Hkeys1. }
    specialize (Hc b). unfold bucket_count in Hc. rewrite Hget in Hc.
    assert (Hb0 : odict.get (HistogramM.buckets_to_keys h0) b
                  = Some (HistogramM.bucket_key field b)).
    { unfold h0, HistogramM.__init__. simpl.
      rewrite (histogram_init_entries_from field buckets []) by done. simpl.
      apply odict_elem_get.
      - unfold odict.keys. rewrite <- list_fmap_compose. simpl.
        by rewrite list_fmap_id.
      - apply list_elem_of_fmap. exists b. split; [done |].
        rewrite <- Hkeys1. apply list_elem_of_fmap. by exists (b, m). }
    rewrite Hb0 in Hc. simpl in Hc. by injection Hc as ->. }
  split; [done |].
  (* the exposition *)
  assert (Hentry : odict.get [(field, HistogramM.decode (run_cmds conn c) h2)]
                     (BaseM.field (HistogramM.base h2))
                   = Some (HistogramM.decode (run_cmds conn c) h2)).
  { rewrite Hbase. simpl. by rewrite decide_True. }
  assert (Hcounts : (fun kv : Z * BaseM.t => IntM.decode (run_cmds conn c) kv.2)
                      <$> HistogramM.buckets_to_keys h2
                    = (fun b => Z.of_nat (length (filter
                                  (fun v => first_bucket v buckets = Some b) values)))
                        <$> buckets).
  { unfold HistogramM.decode in Hdecode. injection Hdecode as Hl _ _.
    apply JNum_fmap_inj. by rewrite <- !list_fmap_compose. }
  unfold HistogramM.to_prometheus. cbn [HistogramM.to_prometheus_loop].
  unfold HistogramM.to_prometheus_instance.
  rewrite (buckets_render h2 instance _ (run_cmds conn c) (fun b => count_le b values) Hentry).
  - cbn [mbind result_bind json_subscript]. unfold odict.subscript. rewrite Hentry.
    cbn [mbind result_bind]. rewrite Hdecode. simpl. by rewrite Hbase, Hb2, Hb.
  - intros i b Hib. rewrite fmap_take, Hcounts.
    apply cumulative_counts; [done |]. by rewrite Hb2, Hb in Hib.
  - done.
Qed.

Lemma histogram_exposition_cumulative_witness :
  exists h1 h2 c,
    observe_all (HistogramM.__init__ "h" "" [10; 20; 50]) [5; 15; 999; 20; 7] = Ok h1 /\
    HistogramM.store_value h1 = Ok (h2, c) /\
    HistogramM.decode (run_cmds ∅ c) h2
    = JDict [("counts", JList [JNum 2; JNum 2; JNum 0]);
             ("sum", JNum 1046); ("inf", JNum 5)].
Proof.
  destruct (histogram_exposition_cumulative "h" "" "awx-1" [10; 20; 50] [5; 15; 999; 20; 7] ∅)
    as (h1 & h2 & c & Hall & Hst & _ & Hdec & _).
  - repeat constructor; lia.
  - intros f _. apply lookup_empty.
  - exists h1, h2, c. split; [done |]. split; [done |]. rewrite Hdec. by vm_compute.
Defined.

(** ** What a flush leaves in the hash *)

Lemma decode_inc (hash_ : gmap string Z) (m : metric) (value : Z) :
  Metric.decode hash_ (Metric.inc m value) = Metric.decode hash_ m.
Proof. by destruct m. Qed.

Lemma decode_self_observed (hash_ : gmap string Z) (env : flush_env) (sent : bool)
    (field : string) (m : metric) :
  Metric.decode hash_ (self_observed env sent field m) = Metric.decode hash_ m.
Proof.
  unfold self_observed. repeat case_decide; try destruct sent; by rewrite ?decode_inc.
Qed.

Lemma decode_stored_scalar (hash_ : gmap string Z) (m : metric) :
  Metric.is_additive m || Metric.is_gauge m = true ->
  Metric.decode hash_ (stored m) = Metric.decode hash_ m.
Proof.
  unfold stored.
  destruct m as [b | b | b | b | h]; simpl; [| | | | done]; intros _;
    unfold FloatM.store_value, IntM.store_value, SetFloatM.store_value, SetIntM.store_value;
    by destruct (BaseM.metric_has_changed b).
Qed.

Lemma histogram_decode_ext (h : HistogramM.t) (g1 g2 : gmap string Z) :
  (forall f, f ∈ hash_fields (MHistogram h) -> g1 !! f = g2 !! f) ->
  HistogramM.decode g1 h = HistogramM.decode g2 h.
Proof.
  intros Hagree. unfold HistogramM.decode, IntM.decode, BaseM.decode.
  rewrite !(Hagree (BaseM.field (HistogramM.sum h))),
    !(Hagree (BaseM.field (HistogramM.inf h)))
    by (simpl; apply elem_of_app; right; repeat constructor).
  do 4 f_equal. apply Forall_fmap_ext_1, Forall_forall. intros kv Hkv.
  rewrite Hagree; [done |]. simpl. apply elem_of_app. left.
  unfold odict.values. rewrite <- list_fmap_compose. apply list_elem_of_fmap. by exists kv.
Qed.

Lemma NoDup_flat_map_elem {A B} (f : A -> list B) (l : list A) (x : A) :
  NoDup (flat_map f l) -> x ∈ l -> NoDup (f x).
Proof.
  induction l as [|y l IH]; simpl; intros Hnd Hin; [by apply elem_of_nil in Hin |].
  apply NoDup_app in Hnd as (Hy & _ & Hl).
  apply elem_of_cons in Hin as [-> | Hin]; [done | by apply IH].
Qed.

(** X10.  A flush writes what was accumulated.  When no two metrics share a
    field of the hash, [pipe_execute] on a changed namespace leaves the hash
    so that [decode] returns, for every counter, the stored value plus what
    this process had pending; for a changed gauge, its local value; for an
    unchanged gauge, the stored value; for a histogram keyed by distinct
    boundaries, every bucket, the sum and the total plus what was pending.
    Every field of the hash that belongs to no metric and is not the
    broadcast timestamp is left alone.  This holds whether the broadcast
    that follows succeeds, is skipped or fails. *)
Theorem pipe_execute_persists (cfg : settings) (env : flush_env) (self : Metrics.t)
    (w : world) :
  namespace_wf self = true ->
  fields_apart self = true ->
  Metrics.metrics_have_changed self = true ->
  Metrics.pipe self = [] ->
  let r := Metrics.pipe_execute cfg env (Metrics.mk_state self w) in
  (forall field m,
     odict.get (Metrics.METRICS self) field = Some m ->
     match m with
     | MFloat b | MInt b =>
         Metrics.decode (Metrics.self r.2) (Metrics.conn r.2) field
         = Ok (JNum (default 0 (hash w !! field) + pending b))
     | MSetInt b | MSetFloat b =>
         Metrics.decode (Metrics.self r.2) (Metrics.conn r.2) field
         = Ok (JNum (if BaseM.metric_has_changed b then BaseM.current_value b
                     else default 0 (hash w !! field)))
     | MHistogram h =>
         histogram_keyed h -> NoDup (HistogramM.buckets h) ->
         Metrics.decode (Metrics.self r.2) (Metrics.conn r.2) field
         = Ok (JDict
                 [("counts",
                   JList ((fun kv => JNum (IntM.decode (hash w) kv.2 + pending kv.2))
                            <$> HistogramM.buckets_to_keys h));
                  ("sum", JNum (IntM.decode (hash w) (HistogramM.sum h)
                                + pending (HistogramM.sum h)));
                  ("inf", JNum (IntM.decode (hash w) (HistogramM.inf h)
                                + pending (HistogramM.inf h)))])
     end) /\
  (forall f,
     f ∉ flat_map hash_fields (odict.values (Metrics.METRICS self)) ->
     f <> "send_metrics_time" ->
     hash (Metrics.conn r.2) !! f = hash w !! f).
Proof.
  intros Hwf Hapart Hdirty Hempty. cbn zeta.
  destruct (namespace_wf_inv self Hwf) as (Hnd & Hfm & _ & _ & _ & _ & Hts).
  unfold fields_apart in Hapart. apply bool_decide_eq_true in Hapart.
  rewrite Hts in Hapart. apply NoDup_app in Hapart as (Hfields & Hnots & _).
  destruct (pipe_execute_dirty cfg env self w Hwf Hdirty) as (_ & _ & _ & _ & _ & Hget).
  cbn zeta in Hget.
  split.
  - intros field m Hm.
    assert (Hin : (field, m) ∈ Metrics.METRICS self).
    { clear -Hm. induction (Metrics.METRICS self) as [|[k0 m0] d IH]; simpl in Hm; [done |].
      destruct (decide (k0 = field)) as [-> | Hne].
      - injection Hm as ->. apply list_elem_of_here.
      - by apply list_elem_of_further, IH. }
    assert (Hfield : Metric.field m = field).
    { rewrite forallb_forall in Hfm. pose proof Hin as Hin'. apply list_elem_of_In in Hin'.
      apply Hfm in Hin'. by apply bool_decide_eq_true in Hin'. }
    assert (Hdecode :
      Metrics.decode
        (Metrics.self (Metrics.pipe_execute cfg env (Metrics.mk_state self w)).2)
        (Metrics.conn (Metrics.pipe_execute cfg env (Metrics.mk_state self w)).2) field
      = Ok (Metric.decode
              (hash (Metrics.conn (Metrics.pipe_execute cfg env (Metrics.mk_state self w)).2))
              (stored m))).
    { unfold Metrics.decode, odict.subscript. rewrite Hget, Hm. simpl.
      by rewrite decode_self_observed. }
    destruct (flush_field (Metrics.METRICS self) (hash w) field m Hfields Hin)
      as (h1 & Hh1 & Hrun).
    assert (Hhash : forall f, f ∈ hash_fields m ->
      hash (Metrics.conn (Metrics.pipe_execute cfg env (Metrics.mk_state self w)).2) !! f
      = run_cmds h1 (written m) !! f).
    { intros f Hf. rewrite pipe_execute_hash, Hempty; [by apply Hrun | done | done |].
      intros ->. apply (Hnots "send_metrics_time"); [| apply list_elem_of_here].
      apply list_elem_of_In, in_flat_map. exists m. split.
      - apply list_elem_of_In. by apply (odict_get_values _ field).
      - by apply list_elem_of_In. }
    destruct m as [b | b | b | b | h].
    1-4: rewrite Hdecode, decode_stored_scalar by done;
      simpl in Hfield; unfold Metric.field in Hfield; simpl in Hfield;
      simpl; unfold BaseM.decode, pending;
      rewrite Hhash by (simpl; unfold Metric.field; simpl; apply list_elem_of_here);
      rewrite <- Hfield; unfold written; simpl;
      unfold FloatM.store_value, IntM.store_value, SetFloatM.store_value,
        SetIntM.store_value;
      destruct (BaseM.metric_has_changed b); simpl; unfold hincr;
      rewrite ?lookup_insert_eq, ?Hh1 by (simpl; unfold Metric.field; simpl;
                                           apply list_elem_of_here);
      simpl; try done; destruct (hash w !! BaseM.field b); simpl; do 2 f_equal; lia.
    intros Hkeyed Hndb.
    assert (Hndf : NoDup (hash_fields (MHistogram h))).
    { apply (NoDup_flat_map_elem hash_fields _ (MHistogram h) Hfields).
      by apply (odict_get_values _ field). }
    destruct (histogram_store_spec h h1 Hkeyed Hndb Hndf)
      as (h' & c & Hst & Hdec & _ & _ & _ & _ & Hsame).
    assert (Hhf : forall h0, hash_fields (MHistogram h0) = BaseM.field <$> sub_counters h0).
    { intros h0. unfold hash_fields, sub_counters. by rewrite fmap_app. }
    assert (Hwritten : written (MHistogram h) = c).
    { unfold written. simpl. by rewrite Hst. }
    rewrite Hdecode. unfold stored. simpl. rewrite Hst. simpl. f_equal.
    rewrite (histogram_decode_ext h' _ (run_cmds h1 c)).
    + rewrite Hdec. unfold IntM.decode, BaseM.decode.
      rewrite !(Hh1 (BaseM.field (HistogramM.sum h))),
        !(Hh1 (BaseM.field (HistogramM.inf h)))
        by (simpl; apply elem_of_app; right; repeat constructor).
      do 4 f_equal. apply Forall_fmap_ext_1, Forall_forall. intros kv Hkv.
      rewrite Hh1; [done |]. simpl. apply elem_of_app. left.
      unfold odict.values. rewrite <- list_fmap_compose. apply list_elem_of_fmap.
      by exists kv.
    + intros f Hf. rewrite Hhf, Hsame, <- Hhf in Hf. rewrite <- Hwritten. by apply Hhash.
  - intros f Hf Hnts. rewrite pipe_execute_hash, Hempty by done. simpl.
    apply run_cmds_frame. intros x Hx Heq.
    apply flat_map_written_fields in Hx. by rewrite Heq in Hx.
Qed.

Lemma pipe_execute_persists_witness :
  let dirty :=
    Metrics.self
      (Metrics.set example_settings (quiet_flush 120) "task_manager_tasks_started" 7
         (Metrics.mk_state example_namespace empty_world)).2 in
  let r :=
    Metrics.pipe_execute example_settings (quiet_flush 130)
      (Metrics.mk_state dirty empty_world) in
  Metrics.decode (Metrics.self r.2) (Metrics.conn r.2) "task_manager_tasks_started"
  = Ok (JNum 7).
Proof.
  cbn zeta.
  pose proof (pipe_execute_persists example_settings (quiet_flush 130)
                (Metrics.self
                   (Metrics.set example_settings (quiet_flush 120)
                      "task_manager_tasks_started" 7
                      (Metrics.mk_state example_namespace empty_world)).2)
                empty_world) as H.
  cbn zeta in H. destruct H as [H _]; [by vm_compute | by vm_compute | by vm_compute
                                      | by vm_compute |].
  specialize (H "task_manager_tasks_started"
                (MSetInt (BaseM.mk "task_manager_tasks_started" "Number of tasks started"
                            7 true))).
  cbv beta iota in H. apply H. by vm_compute.
Defined.

(** ** The namespaces of the two services *)





(** X15.  [metrics] on a cluster of one version: when every snapshot stored
    for the dispatcher and for the callback receiver was serialized by a
    namespace of the same service, [metrics] returns, for every request, the
    exposition of the dispatcher followed by that of the callback receiver;
    with no snapshot stored at all it returns the empty text. *)
Theorem metrics_same_version_ok (cfg : settings) (svc : service_settings) (now1 now2 : Z)
    (conn : world) (request : request) :
  let d := DispatcherMetrics.__init__ cfg svc now1 false None true in
  let c := CallbackReceiverMetrics.__init__ cfg svc now2 false None true in
  ((forall name j, snapshot_of cfg d conn name = Some j ->
      exists w, j = JDict (Metrics.load_local_metrics d w)) ->
   (forall name j, snapshot_of cfg c conn name = Some j ->
      exists w, j = JDict (Metrics.load_local_metrics c w)) ->
   exists text1 text2,
     Metrics.generate_metrics cfg d conn request = Ok text1 /\
     Metrics.generate_metrics cfg c conn request = Ok text2 /\
     metrics_ cfg svc now1 now2 conn request = Ok (text1 +:+ text2)) /\
  ((forall name, snapshot_of cfg d conn name = None) ->
   (forall name, snapshot_of cfg c conn name = None) ->
   metrics_ cfg svc now1 now2 conn request = Ok "").
Proof.
  cbn zeta.
  assert (Hwfd : namespace_wf (DispatcherMetrics.__init__ cfg svc now1 false None true) = true).
  { apply init_namespace_wf. by vm_compute. }
  assert (Hwfc : namespace_wf (CallbackReceiverMetrics.__init__ cfg svc now2 false None true)
                 = true).
  { apply init_namespace_wf. unfold CallbackReceiverMetrics.METRICSLIST.
    cbn [forallb metric_wf]. by rewrite histogram_init_wf. }
  split.
  - intros Hd Hc.
    destruct (generate_metrics_same_version_spec cfg _ conn request Hwfd Hd) as [text1 H1].
    destruct (generate_metrics_same_version_spec cfg _ conn request Hwfc Hc) as [text2 H2].
    exists text1, text2. split; [done |]. split; [done |].
    unfold metrics_. cbn [metrics_loop]. rewrite H1. cbn [mbind result_bind].
    rewrite H2. cbn [mbind result_bind]. done.
  - intros Hd Hc.
    assert (Hempty : forall self,
      (forall name, snapshot_of cfg self conn name = None) ->
      Metrics.generate_metrics cfg self conn request = Ok "").
    { intros self Hnone. unfold Metrics.generate_metrics.
      destruct (load_other_metrics_ok cfg self conn request) as (names & _ & _ & ->).
      rewrite load_nothing by (intros name _; apply Hnone). done. }
    unfold metrics_. cbn [metrics_loop]. rewrite !Hempty by done. done.
Qed.

Lemma metrics_same_version_ok_witness :
  metrics_ example_settings example_services 100 101 empty_world (mk_request [] []) = Ok "".
Proof.
  pose proof (metrics_same_version_ok example_settings example_services 100 101 empty_world
                (mk_request [] [])) as H.
  cbn zeta in H. destruct H as [_ H]. apply H; intros name; reflexivity.
Defined.
